(** * torch/_utils.py: tensor rebuild helpers and ExceptionWrapper

  A shallow embedding of the serialization "rebuild" functions and of the
  cross-thread exception wrapper of [torch/_utils.py].

  Python values that the functions only carry around are kept in a small
  universe [PyVal]; exceptions are records; code that touches the
  module-level list [_sparse_tensors_to_validate] or calls into the native
  runtime runs in a state-and-exception monad over [World], whose state
  survives a raised exception exactly as Python's does. *)

From Stdlib Require Import ZArith NArith String Ascii List Bool Lia.
From stdpp Require Import base option list strings gmap pretty.

Set Warnings "-register-all".

Local Open Scope Z_scope.
Local Open Scope string_scope.

(** ** Python values *)

Module Py.

(** The values the rebuild functions treat as opaque payloads: hook
    tables, attribute values, state blobs. *)
Inductive PyVal : Type :=
| VNone
| VBool (b : bool)
| VInt (z : Z)
| VStr (s : string)
| VTuple (items : list PyVal)
| VList (items : list PyVal)
| VDict (entries : list (string * PyVal)).

(** Python truth value testing ([if x:]). *)
Definition truthy (v : PyVal) : bool :=
  match v with
  | VNone => false
  | VBool b => b
  | VInt z => negb (Z.eqb z 0)
  | VStr s => negb (String.eqb s "")
  | VTuple items => negb (Nat.eqb (length items) 0)
  | VList items => negb (Nat.eqb (length items) 0)
  | VDict entries => negb (Nat.eqb (length entries) 0)
  end.

(** [type(v).__name__], used in the messages of attribute errors. *)
Definition type_name (v : PyVal) : string :=
  match v with
  | VNone => "NoneType"
  | VBool _ => "bool"
  | VInt _ => "int"
  | VStr _ => "str"
  | VTuple _ => "tuple"
  | VList _ => "list"
  | VDict _ => "dict"
  end.

(** A [str], or an instance of the subclass [KeyErrorMessage] declared in
    [_utils.py]. *)
Inductive PyStr : Type :=
| Str (s : string)
| KeyErrorMessage (s : string).

(** [str(a)]: the characters of the string, whatever its class. *)
Definition str_value (a : PyStr) : string :=
  match a with
  | Str s => s
  | KeyErrorMessage s => s
  end.

(** *** [repr] of a built-in string

    CPython picks the quote (double quotes only when the text has a
    single quote and no double quote), then escapes the backslash, the
    chosen quote, tab, newline and carriage return, and writes every
    other non-printable character as [\xhh].  Characters are read as
    code points U+0000 .. U+00FF. *)

Definition hex_digit (n : N) : ascii :=
  (if N.ltb n 10 then ascii_of_N (48 + n) else ascii_of_N (87 + n))%N.

Definition backslash : ascii := "\"%char.
Definition single_quote : ascii := "'"%char.
Definition double_quote : ascii := Ascii.ascii_of_N 34.
Definition newline : ascii := Ascii.ascii_of_N 10.
Definition carriage_return : ascii := Ascii.ascii_of_N 13.
Definition tab : ascii := Ascii.ascii_of_N 9.

Definition printable (c : ascii) : bool :=
  let n := N_of_ascii c in
  (N.leb 32 n && N.ltb n 127) || (N.leb 161 n && negb (N.eqb n 173)).

Definition escape_char (quote c : ascii) : string :=
  if Ascii.eqb c backslash then String backslash (String backslash "")
  else if Ascii.eqb c quote then String backslash (String quote "")
  else if Ascii.eqb c tab then String backslash "t"
  else if Ascii.eqb c newline then String backslash "n"
  else if Ascii.eqb c carriage_return then String backslash "r"
  else if printable c then String c ""
  else
    let n := N_of_ascii c in
    String backslash
      (String "x" (String (hex_digit (N.div n 16))
                           (String (hex_digit (N.modulo n 16)) ""))).

Fixpoint escape_all (quote : ascii) (s : string) : string :=
  match s with
  | EmptyString => EmptyString
  | String c rest => escape_char quote c +:+ escape_all quote rest
  end.

Fixpoint contains_char (c : ascii) (s : string) : bool :=
  match s with
  | EmptyString => false
  | String d rest => Ascii.eqb c d || contains_char c rest
  end.

Definition repr_quote (s : string) : ascii :=
  if contains_char single_quote s && negb (contains_char double_quote s)
  then double_quote else single_quote.

Definition str_repr (s : string) : string :=
  let q := repr_quote s in
  String q (escape_all q s +:+ String q "").

(** [repr(a)].  [KeyErrorMessage.__repr__] is [return self]. *)
Definition repr (a : PyStr) : string :=
  match a with
  | Str s => str_repr s
  | KeyErrorMessage s => s
  end.

(** *** Exceptions *)

(** What a traceback printer shows of a chained exception. *)
Record ExcSummary := mkSummary {
  sum_class : string;
  sum_text : string
}.

Record Exc := mkExc {
  exc_class : string;               (* type(e).__name__ *)
  exc_bases : list string;          (* names of the proper base classes *)
  exc_args : list PyStr;            (* e.args *)
  exc_text : string;                (* str(e) *)
  exc_cause : option ExcSummary;    (* e.__cause__ *)
  exc_context : option ExcSummary;  (* e.__context__ *)
  exc_suppress_context : bool       (* e.__suppress_context__ *)
}.

Definition summary (e : Exc) : ExcSummary :=
  mkSummary (exc_class e) (exc_text e).

(** [isinstance(e, cls)], by class name. *)
Definition isinstance (e : Exc) (cls : string) : bool :=
  String.eqb (exc_class e) cls || existsb (String.eqb cls) (exc_bases e).

(** The exception a traceback shows as the origin of [e]: the explicit
    cause, else the implicit context unless it is suppressed. *)
Definition chained (e : Exc) : option ExcSummary :=
  match exc_cause e with
  | Some c => Some c
  | None => if exc_suppress_context e then None else exc_context e
  end.

(** [ExcClass("text")] for a built-in class whose [__str__] shows its
    sole argument. *)
Definition new_exc (cls : string) (bases : list string) (text : string) : Exc :=
  mkExc cls bases [Str text] text None None false.

Definition RuntimeError (text : string) : Exc :=
  new_exc "RuntimeError" ["Exception"; "BaseException"] text.
Definition NotImplementedError (text : string) : Exc :=
  new_exc "NotImplementedError" ["RuntimeError"; "Exception"; "BaseException"] text.
Definition TypeError (text : string) : Exc :=
  new_exc "TypeError" ["Exception"; "BaseException"] text.
Definition ValueError (text : string) : Exc :=
  new_exc "ValueError" ["Exception"; "BaseException"] text.
Definition AttributeError (text : string) : Exc :=
  new_exc "AttributeError" ["Exception"; "BaseException"] text.
Definition AssertionError (text : string) : Exc :=
  new_exc "AssertionError" ["Exception"; "BaseException"] text.

(** [raise e from None] while [handled] is being handled: no cause, the
    context is recorded by the interpreter but marked suppressed. *)
Definition raise_from_None (e handled : Exc) : Exc :=
  mkExc (exc_class e) (exc_bases e) (exc_args e) (exc_text e)
        None (Some (summary handled)) true.

(** Outcome of a call: a value, or a raised exception. *)
Inductive Result (A : Type) : Type :=
| Ok (a : A)
| Raise (e : Exc).
Arguments Ok {A} a.
Arguments Raise {A} e.

End Py.
Export Py.

(** ** The tensor runtime the rebuild functions call into *)

Module Torch.

Inductive Dtype : Type :=
| float16 | float32 | float64          (* torch.half, torch.float, torch.double *)
| uint8 | int8 | int32 | int64         (* int64 is torch.long *)
| bool_
| qint8 | quint8 | qint32.

Inductive Device : Type :=
| cpu
| cuda (index : Z)
| meta.

Inductive Layout : Type :=
| strided
| sparse_coo
| sparse_csr
| sparse_csc
| sparse_bsr
| sparse_bsc
| _mkldnn.

Inductive QScheme : Type :=
| per_tensor_affine
| per_channel_affine
| per_tensor_symmetric
| per_channel_symmetric
| per_channel_affine_float_qparams.

#[global] Instance Dtype_eq_dec : EqDecision Dtype.
Proof. solve_decision. Defined.
#[global] Instance Device_eq_dec : EqDecision Device.
Proof. solve_decision. Defined.
#[global] Instance Layout_eq_dec : EqDecision Layout.
Proof. solve_decision. Defined.
#[global] Instance QScheme_eq_dec : EqDecision QScheme.
Proof. solve_decision. Defined.

(** [x in (a, b, ...)] and [x in {a, b, ...}] on enumeration members. *)
Definition member {A : Type} `{EqDecision A} (x : A) (xs : list A) : bool :=
  existsb (fun y => bool_decide (x = y)) xs.

(** A Python float or int handed to the quantizer, kept exact. *)
Abbreviation Number := QArith_base.Q.

(** [UntypedStorage]: a raw buffer with its device tag. *)
Record UntypedStorage := mkUntyped {
  us_device : Device;
  us_nbytes : Z
}.

(** [TypedStorage]: an untyped storage and the dtype it is read at.  Its
    [device] property is that of the untyped storage. *)
Record TypedStorage := mkTyped {
  dtype : Dtype;
  _untyped_storage : UntypedStorage
}.

Definition device (s : TypedStorage) : Device := us_device (_untyped_storage s).

(** A typed one-dimensional tensor of quantizer parameters. *)
Record Vec := mkVec {
  vec_dtype : Dtype;
  vec_device : Device;
  vec_data : list Number
}.

Inductive Quantizer : Type :=
| PerTensorAffineQuantizer (scale : Number) (zero_point : Z)
| PerChannelAffineQuantizer (scales zero_points : Vec) (axis : Z).

(** A dense (possibly quantized) tensor: the fields the rebuild functions
    read or assign. *)
Record Tensor := mkTensor {
  t_dtype : Dtype;
  t_device : Device;
  t_storage : UntypedStorage;
  t_storage_offset : Z;
  t_size : list Z;
  t_stride : list Z;
  t_requires_grad : bool;
  t_backward_hooks : PyVal;             (* tensor._backward_hooks *)
  t_metadata : gmap string bool;        (* the conj / neg bits *)
  t_quantizer : option Quantizer
}.

(** A dense tensor of integers by shape and row-major elements: the
    index and value components of a sparse tensor. *)
Record DenseData := mkDense {
  d_shape : list Z;
  d_elems : list Z
}.

(** A sparse tensor as the validation pass reads it back.  For the COO
    layout [sp_indices] is [_indices()] and [sp_plain_indices] is unused;
    for a compressed layout they are the compressed (crow / ccol) and the
    plain (col / row) indices. *)
Record SparseTensor := mkSparse {
  layout : Layout;
  sp_indices : DenseData;
  sp_plain_indices : DenseData;
  sp_values : DenseData;
  sp_size : list Z;
  sp_is_coalesced : bool
}.

(** Calls into the native runtime, in the order they are made. *)
Inductive Call : Type :=
| call_tensor (dt : Dtype) (dev : Device)
| call_tensor_of_list (dt : Dtype) (dev : Device)
| call_set_ (st : UntypedStorage) (offset : Z) (size stride : list Z)
| call_set_tensor_metadata (metadata : gmap string bool)
| call_empty_affine_quantized (dt : Dtype) (dev : Device)
| call_empty_per_channel_affine_quantized (dt : Dtype) (dev : Device)
| call_sparse_coo_tensor (check_invariants : bool)
| call_sparse_compressed_tensor (lay : Layout) (check_invariants : bool)
| call_validate_sparse_coo_tensor_args
| call_validate_sparse_compressed_tensor_args (lay : Layout).

(** The process-wide state: the module-level list of [_utils.py] and the
    log of native calls. *)
Record World := mkWorld {
  _sparse_tensors_to_validate : list SparseTensor;
  native_calls : list Call
}.

Definition initial_world : World := mkWorld [] [].

(** What lives in native code.  A check returns [None] when it accepts
    its arguments and the exception it raises otherwise. *)
Class TorchRuntime := {
  (* Tensor.set_: is (offset, size, stride) a view the storage can hold? *)
  set__check : Dtype -> UntypedStorage -> Z -> list Z -> list Z -> option Exc;
  (* tensor.requires_grad = b on a leaf tensor of the dtype: may the flag
     take the value b? *)
  requires_grad_check : Dtype -> bool -> option Exc;
  (* torch.tensor(xs, dtype=dt): can the dtype hold the Python number x? *)
  element_check : Dtype -> Number -> option Exc;
  (* the value that a dtype other than torch.long stores for x: for a
     floating dtype, the nearest one it represents *)
  element_value : Dtype -> Number -> Number;
  _validate_sparse_coo_tensor_args :
    DenseData -> DenseData -> list Z -> bool -> option Exc;
  _validate_sparse_compressed_tensor_args :
    DenseData -> DenseData -> DenseData -> list Z -> Layout -> option Exc
}.

End Torch.
Export Torch.

(** ** State and exceptions *)

Module Monad.

(** A computation reads and updates the world and either returns or
    raises; the world it leaves behind is kept in both cases. *)
Definition M (A : Type) : Type := World -> Result A * World.

Definition ret {A} (a : A) : M A := fun w => (Ok a, w).

Definition raise {A} (e : Exc) : M A := fun w => (Raise e, w).

Definition bind {A B} (m : M A) (k : A -> M B) : M B :=
  fun w =>
    match m w with
    | (Ok a, w') => k a w'
    | (Raise e, w') => (Raise e, w')
    end.

Declare Scope py_scope.
Delimit Scope py_scope with py.
Notation "x <- m ;; k" := (bind m (fun x => k))
  (at level 100, m at next level, right associativity) : py_scope.
Notation "m ;;; k" := (bind m (fun _ => k))
  (at level 100, right associativity) : py_scope.

(** [try: body finally: cleanup].  The cleanup runs on both exits; an
    exception of the cleanup itself replaces the outcome of the body. *)
Definition try_finally {A} (body : M A) (cleanup : M unit) : M A :=
  fun w =>
    let (r, w1) := body w in
    match cleanup w1 with
    | (Ok _, w2) => (r, w2)
    | (Raise e, w2) => (Raise e, w2)
    end.

(** [for x in xs: body(x)]: stops at the first exception. *)
Fixpoint for_each {A} (xs : list A) (body : A -> M unit) : M unit :=
  match xs with
  | [] => ret tt
  | x :: rest => bind (body x) (fun _ => for_each rest body)
  end.

Definition get_pending : M (list SparseTensor) :=
  fun w => (Ok (_sparse_tensors_to_validate w), w).

Definition set_pending (l : list SparseTensor) : M unit :=
  fun w => (Ok tt, mkWorld l (native_calls w)).

(** Record one call into the native runtime. *)
Definition native (c : Call) : M unit :=
  fun w => (Ok tt, mkWorld (_sparse_tensors_to_validate w) (native_calls w ++ [c])).

(** Run a native check: pass, or raise what it reports. *)
Definition check (r : option Exc) : M unit :=
  match r with
  | None => ret tt
  | Some e => raise e
  end.

End Monad.
Export Monad.
Local Open Scope py_scope.

(** ** Dense tensors: [_rebuild_tensor], [_rebuild_tensor_v2] *)

Module Dense.
Section WithRuntime.
Context `{RT : TorchRuntime}.

(** [torch.tensor([], dtype=dt, device=dev)]: a fresh one-dimensional
    tensor of zero elements on its own empty storage. *)
Definition tensor_empty (dt : Dtype) (dev : Device) : M Tensor :=
  native (call_tensor dt dev) ;;;
  ret (mkTensor dt dev (mkUntyped dev 0) 0 [0] [1] false VNone ∅ None).

(** Modelled from the spec: [Tensor.set_] is native code; the spec has it
    bind the tensor to the given storage region at [offset] with shape
    [size] and strides [stride], failing when they are incompatible with
    the storage.  Dtype, device and the remaining fields are kept. *)
Definition set_ (t : Tensor) (st : UntypedStorage) (offset : Z)
    (size stride : list Z) : M Tensor :=
  native (call_set_ st offset size stride) ;;;
  check (set__check (t_dtype t) st offset size stride) ;;;
  ret (mkTensor (t_dtype t) (t_device t) st offset size stride
         (t_requires_grad t) (t_backward_hooks t) (t_metadata t) (t_quantizer t)).

Definition _rebuild_tensor (storage : TypedStorage) (storage_offset : Z)
    (size stride : list Z) : M Tensor :=
  (* first construct a tensor with the correct dtype/device *)
  t <- tensor_empty (dtype storage) (us_device (_untyped_storage storage)) ;;
  set_ t (_untyped_storage storage) storage_offset size stride.

(** The tensor with its [requires_grad] flag at [b]. *)
Definition with_requires_grad (t : Tensor) (b : bool) : Tensor :=
  mkTensor (t_dtype t) (t_device t) (t_storage t) (t_storage_offset t)
    (t_size t) (t_stride t) b (t_backward_hooks t) (t_metadata t) (t_quantizer t).

(** [tensor.requires_grad = b].  The setter is native code and may refuse
    the value: a tensor whose dtype carries no gradient cannot be made to
    require one. *)
Definition set_requires_grad (t : Tensor) (b : bool) : M Tensor :=
  check (requires_grad_check (t_dtype t) b) ;;;
  ret (with_requires_grad t b).

(** [tensor._backward_hooks = h] *)
Definition set_backward_hooks (t : Tensor) (h : PyVal) : Tensor :=
  mkTensor (t_dtype t) (t_device t) (t_storage t) (t_storage_offset t)
    (t_size t) (t_stride t) (t_requires_grad t) h (t_metadata t) (t_quantizer t).

(** Modelled from the spec: [torch._C._set_tensor_metadata] is native
    code; the spec has it apply the bit-flag map to the tensor.  The
    given bits override, the others stay. *)
Definition _set_tensor_metadata (t : Tensor) (metadata : gmap string bool) : Tensor :=
  mkTensor (t_dtype t) (t_device t) (t_storage t) (t_storage_offset t)
    (t_size t) (t_stride t) (t_requires_grad t) (t_backward_hooks t)
    (metadata ∪ t_metadata t) (t_quantizer t).

(** The two [assert isinstance] lines hold by typing. *)
Definition set_tensor_metadata (t : Tensor) (metadata : gmap string bool) : M Tensor :=
  native (call_set_tensor_metadata metadata) ;;;
  ret (_set_tensor_metadata t metadata).

(** [if metadata:] on [None] or a dict. *)
Definition metadata_truthy (metadata : option (gmap string bool)) : bool :=
  match metadata with
  | None => false
  | Some m => negb (bool_decide (m = ∅))
  end.

Definition _rebuild_tensor_v2 (storage : TypedStorage) (storage_offset : Z)
    (size stride : list Z) (requires_grad : bool) (backward_hooks : PyVal)
    (metadata : option (gmap string bool)) : M Tensor :=
  tensor <- _rebuild_tensor storage storage_offset size stride ;;
  tensor <- set_requires_grad tensor requires_grad ;;
  tensor <- (if metadata_truthy metadata
             then set_tensor_metadata tensor (default ∅ metadata)
             else ret tensor) ;;
  (* NB: This line exists only for backwards compatibility *)
  ret (set_backward_hooks tensor backward_hooks).

End WithRuntime.
End Dense.
Export Dense.

(** ** Sparse tensors: [_rebuild_sparse_tensor], [_validate_loaded_sparse_tensors] *)

Module Sparse.
Section WithRuntime.
Context `{RT : TorchRuntime}.

(** [str(layout)] *)
Definition layout_str (l : Layout) : string :=
  match l with
  | strided => "torch.strided"
  | sparse_coo => "torch.sparse_coo"
  | sparse_csr => "torch.sparse_csr"
  | sparse_csc => "torch.sparse_csc"
  | sparse_bsr => "torch.sparse_bsr"
  | sparse_bsc => "torch.sparse_bsc"
  | _mkldnn => "torch._mkldnn"
  end.

(** One element of the pickled [data] tuple. *)
Inductive Item : Type :=
| ITensor (d : DenseData)
| ISize (s : list Z)
| IBool (b : bool)
| INone.

(** Argument parsing of the native constructors. *)
Definition arg_tensor (name : string) (x : Item) : M DenseData :=
  match x with
  | ITensor d => ret d
  | _ => raise (TypeError (name +:+ " must be a Tensor"))
  end.

Definition arg_size (x : Item) : M (list Z) :=
  match x with
  | ISize s => ret s
  | _ => raise (TypeError "size must be a sequence of ints")
  end.

Definition arg_optional_bool (x : Item) : M (option bool) :=
  match x with
  | IBool b => ret (Some b)
  | INone => ret None
  | _ => raise (TypeError "is_coalesced must be a bool or None")
  end.

Definition no_data : DenseData := mkDense [0] [].

(** [torch._validate_sparse_coo_tensor_args(...)] *)
Definition validate_sparse_coo_tensor_args (indices values : DenseData)
    (size : list Z) (is_coalesced : bool) : M unit :=
  native call_validate_sparse_coo_tensor_args ;;;
  check (_validate_sparse_coo_tensor_args indices values size is_coalesced).

(** [torch._validate_sparse_compressed_tensor_args(...)] *)
Definition validate_sparse_compressed_tensor_args
    (compressed_indices plain_indices values : DenseData) (size : list Z)
    (lay : Layout) : M unit :=
  native (call_validate_sparse_compressed_tensor_args lay) ;;;
  check (_validate_sparse_compressed_tensor_args
           compressed_indices plain_indices values size lay).

(** Modelled from the spec: [torch.sparse_coo_tensor] is native code.
    With [check_invariants] it runs the structural validation before it
    returns; without, it builds the tensor from its arguments as they
    are.  A missing [is_coalesced] reads back as [False]. *)
Definition sparse_coo_tensor (indices values size : Item)
    (check_invariants : bool) (is_coalesced : Item) : M SparseTensor :=
  native (call_sparse_coo_tensor check_invariants) ;;;
  indices <- arg_tensor "indices" indices ;;
  values <- arg_tensor "values" values ;;
  size <- arg_size size ;;
  is_coalesced <- arg_optional_bool is_coalesced ;;
  let coalesced := default false is_coalesced in
  (if check_invariants
   then validate_sparse_coo_tensor_args indices values size coalesced
   else ret tt) ;;;
  ret (mkSparse sparse_coo indices no_data values size coalesced).

(** Modelled from the spec: [torch.sparse_compressed_tensor] is native
    code, with the same reading of [check_invariants]. *)
Definition sparse_compressed_tensor (compressed_indices plain_indices values size : Item)
    (lay : Layout) (check_invariants : bool) : M SparseTensor :=
  native (call_sparse_compressed_tensor lay check_invariants) ;;;
  compressed_indices <- arg_tensor "compressed_indices" compressed_indices ;;
  plain_indices <- arg_tensor "plain_indices" plain_indices ;;
  values <- arg_tensor "values" values ;;
  size <- arg_size size ;;
  (if check_invariants
   then validate_sparse_compressed_tensor_args
          compressed_indices plain_indices values size lay
   else ret tt) ;;;
  ret (mkSparse lay compressed_indices plain_indices values size false).

(** [_sparse_tensors_to_validate.append(t)] *)
Definition append_pending (t : SparseTensor) : M unit :=
  l <- get_pending ;; set_pending (l ++ [t]).

(** [_sparse_tensors_to_validate.clear()] *)
Definition clear_pending : M unit := set_pending [].

Definition compressed_layouts : list Layout :=
  [sparse_csr; sparse_csc; sparse_bsr; sparse_bsc].

Definition unpack_error (expected got : nat) : Exc :=
  if Nat.ltb got expected
  then ValueError ("not enough values to unpack (expected " +:+ pretty expected
                   +:+ ", got " +:+ pretty got +:+ ")")
  else ValueError ("too many values to unpack (expected " +:+ pretty expected +:+ ")").

Definition _rebuild_sparse_tensor (lay : Layout) (data : list Item) : M SparseTensor :=
  if bool_decide (lay = sparse_coo) then
    args <- match data with
            | [indices; values; size] =>
                (* For BC: *)
                ret (indices, values, size, INone)
            | [indices; values; size; is_coalesced] =>
                ret (indices, values, size, is_coalesced)
            | _ => raise (unpack_error 4 (length data))
            end ;;
    let '(indices, values, size, is_coalesced) := args in
    result <- sparse_coo_tensor indices values size false is_coalesced ;;
    append_pending result ;;;
    ret result
  else if member lay compressed_layouts then
    args <- match data with
            | [compressed_indices; plain_indices; values; size] =>
                ret (compressed_indices, plain_indices, values, size)
            | _ => raise (unpack_error 4 (length data))
            end ;;
    let '(compressed_indices, plain_indices, values, size) := args in
    result <- sparse_compressed_tensor compressed_indices plain_indices values size
                lay false ;;
    append_pending result ;;;
    ret result
  else
    raise (NotImplementedError
             ("rebuilding sparse tensor for layout " +:+ layout_str lay)).

(** The accessors of a compressed sparse tensor. *)
Definition crow_indices (t : SparseTensor) : DenseData := sp_indices t.
Definition col_indices (t : SparseTensor) : DenseData := sp_plain_indices t.
Definition ccol_indices (t : SparseTensor) : DenseData := sp_indices t.
Definition row_indices (t : SparseTensor) : DenseData := sp_plain_indices t.

(** The body of the loop of [_validate_loaded_sparse_tensors]. *)
Definition validate_one (t : SparseTensor) : M unit :=
  if bool_decide (layout t = sparse_coo) then
    validate_sparse_coo_tensor_args
      (sp_indices t) (sp_values t) (sp_size t) (sp_is_coalesced t)
  else if member (layout t) compressed_layouts then
    let '(compressed_indices, plain_indices) :=
      if member (layout t) [sparse_csr; sparse_bsr]
      then (crow_indices t, col_indices t)
      else (ccol_indices t, row_indices t) in
    validate_sparse_compressed_tensor_args
      compressed_indices plain_indices (sp_values t) (sp_size t) (layout t)
  else
    raise (NotImplementedError
             ("_validate_loaded_sparse_tensors for layout `"
              +:+ layout_str (layout t) +:+ "`")).

Definition _validate_loaded_sparse_tensors : M unit :=
  try_finally
    (pending <- get_pending ;; for_each pending validate_one)
    clear_pending.

End WithRuntime.
End Sparse.
Export Sparse.

(** ** Quantized tensors: [_rebuild_qtensor] *)

Module Quantized.
Section WithRuntime.
Context `{RT : TorchRuntime}.

(** [str(qscheme)] *)
Definition qscheme_str (q : QScheme) : string :=
  match q with
  | per_tensor_affine => "torch.per_tensor_affine"
  | per_channel_affine => "torch.per_channel_affine"
  | per_tensor_symmetric => "torch.per_tensor_symmetric"
  | per_channel_symmetric => "torch.per_channel_symmetric"
  | per_channel_affine_float_qparams => "torch.per_channel_affine_float_qparams"
  end.

(** A scale or zero-point entry of [quantizer_params]: a Python number, a
    Python list of numbers, or a tensor. *)
Inductive QArg : Type :=
| QNumber (x : Number)
| QList (xs : list Number)
| QTensor (v : Vec).

(** The pickled tuple [quantizer_params]: the scheme tag first, then the
    scheme's own entries. *)
Record QuantizerParams := mkQParams {
  qp_scheme : QScheme;            (* quantizer_params[0] *)
  qp_rest : list QArg             (* quantizer_params[1:] *)
}.

(** The integer a Python number stands for where an int is expected: its
    integer part, toward zero. *)
Definition number_to_int (x : Number) : Z :=
  Z.quot (QArith_base.Qnum x) (Z.pos (QArith_base.Qden x)).

(** The element that a tensor of dtype [dt] stores for the Python number
    [x]: [torch.long] keeps the integer part. *)
Definition element (dt : Dtype) (x : Number) : Number :=
  if bool_decide (dt = int64) then QArith_base.inject_Z (number_to_int x)
  else element_value dt x.

(** The exception of the first number of [xs] that the dtype cannot hold. *)
Fixpoint first_refusal (dt : Dtype) (xs : list Number) : option Exc :=
  match xs with
  | [] => None
  | x :: rest =>
      match element_check dt x with
      | Some e => Some e
      | None => first_refusal dt rest
      end
  end.

(** [torch.tensor(xs, dtype=dt, device=dev)] on a Python list of numbers:
    the elements are converted one by one, and a number the dtype cannot
    hold is an error. *)
Definition tensor_of_list (xs : list Number) (dt : Dtype) (dev : Device) : M Vec :=
  native (call_tensor_of_list dt dev) ;;;
  check (first_refusal dt xs) ;;;
  ret (mkVec dt dev (map (element dt) xs)).

Fixpoint contiguous_strides (size : list Z) : list Z :=
  match size with
  | [] => []
  | _ :: rest => fold_right Z.mul 1 rest :: contiguous_strides rest
  end.

Definition arg_number (name : string) (x : QArg) : M Number :=
  match x with
  | QNumber n => ret n
  | _ => raise (TypeError (name +:+ " must be a number"))
  end.

Definition arg_vec (name : string) (x : QArg) : M Vec :=
  match x with
  | QTensor v => ret v
  | _ => raise (TypeError (name +:+ " must be a Tensor"))
  end.

(** Modelled from the spec: [torch._empty_affine_quantized] is native
    code; the spec has it allocate a quantized tensor with a scalar scale
    and zero-point. *)
Definition _empty_affine_quantized (size : list Z) (scale zero_point : QArg)
    (dt : Dtype) (dev : Device) : M Tensor :=
  native (call_empty_affine_quantized dt dev) ;;;
  scale <- arg_number "scale" scale ;;
  zero_point <- arg_number "zero_point" zero_point ;;
  ret (mkTensor dt dev (mkUntyped dev 0) 0 size (contiguous_strides size)
         false VNone ∅
         (Some (PerTensorAffineQuantizer scale (number_to_int zero_point)))).

(** Modelled from the spec: [torch._empty_per_channel_affine_quantized]
    is native code; the spec has it allocate a quantized tensor with
    per-channel scale and zero-point vectors. *)
Definition _empty_per_channel_affine_quantized (size : list Z)
    (scales zero_points axis : QArg) (dt : Dtype) (dev : Device) : M Tensor :=
  native (call_empty_per_channel_affine_quantized dt dev) ;;;
  scales <- arg_vec "scales" scales ;;
  zero_points <- arg_vec "zero_points" zero_points ;;
  axis <- arg_number "axis" axis ;;
  ret (mkTensor dt dev (mkUntyped dev 0) 0 size (contiguous_strides size)
         false VNone ∅
         (Some (PerChannelAffineQuantizer scales zero_points (number_to_int axis)))).

Definition _rebuild_qtensor (storage : TypedStorage) (storage_offset : Z)
    (size stride : list Z) (quantizer_params : QuantizerParams)
    (requires_grad : bool) (backward_hooks : PyVal) : M Tensor :=
  let qscheme := qp_scheme quantizer_params in
  tensor <-
    (if bool_decide (qscheme = per_tensor_affine) then
       args <- match qp_rest quantizer_params with
               | [scale; zero_point] => ret (scale, zero_point)
               | rest => raise (unpack_error 3 (S (length rest)))
               end ;;
       let '(scale, zero_point) := args in
       _empty_affine_quantized size scale zero_point (dtype storage) (device storage)
     else if member qscheme [per_channel_affine; per_channel_affine_float_qparams] then
       args <- match qp_rest quantizer_params with
               | [scales; zero_points; axis] => ret (scales, zero_points, axis)
               | rest => raise (unpack_error 4 (S (length rest)))
               end ;;
       let '(scales, zero_points, axis) := args in
       promoted <-
         (match scales, zero_points with
          | QList scales_list, QList zero_points_list =>
              (* type(scales) is list and type(zero_points) is list *)
              if bool_decide (qscheme = per_channel_affine) then
                scales <- tensor_of_list scales_list float64 (device storage) ;;
                zero_points <- tensor_of_list zero_points_list int64 (device storage) ;;
                ret (QTensor scales, QTensor zero_points)
              else
                scales <- tensor_of_list scales_list float32 (device storage) ;;
                zero_points <- tensor_of_list zero_points_list float32 (device storage) ;;
                ret (QTensor scales, QTensor zero_points)
          | _, _ => ret (scales, zero_points)
          end) ;;
       let '(scales, zero_points) := promoted in
       _empty_per_channel_affine_quantized size scales zero_points axis
         (dtype storage) (device storage)
     else
       raise (RuntimeError ("Can't deserialize quantized tensor with qscheme "
                            +:+ qscheme_str qscheme))) ;;
  (* tensor.set_(storage, ...): set_ reads a TypedStorage through its
     untyped storage *)
  tensor <- set_ tensor (_untyped_storage storage) storage_offset size stride ;;
  tensor <- set_requires_grad tensor requires_grad ;;
  (* NB: This line exists only for backwards compatibility *)
  ret (set_backward_hooks tensor backward_hooks).

End WithRuntime.
End Quantized.
Export Quantized.

(** ** Parameters: [_rebuild_parameter_with_state], [_set_obj_state] *)

Module Param.

(** A [torch.nn.Parameter] (or a subclass instance): the wrapped tensor
    and the attributes kept in the instance, by name. *)
Record NNParameter := mkParameter {
  p_data : Tensor;
  p_attrs : gmap string PyVal
}.

(** What the class of the object decides.  [torch.nn.Parameter] is
    defined elsewhere, and [setattr] goes through the descriptors and the
    [__setattr__] of the class: a read-only or typed attribute refuses the
    assignment, another one updates the tensor and not the instance. *)
Class ObjectModel := {
  (* torch.nn.Parameter(data, requires_grad) *)
  new_Parameter : Tensor -> bool -> Result NNParameter;
  (* setattr(obj, k, v): the outcome, and the object as the call leaves it *)
  setattr : NNParameter -> string -> PyVal -> Result unit * NNParameter
}.

(** The assignment of an attribute that is kept in the instance. *)
Definition store (obj : NNParameter) (k : string) (v : PyVal) : NNParameter :=
  mkParameter (p_data obj) (<[k := v]> (p_attrs obj)).

(** [k] is an ordinary attribute of the class: assigning it succeeds,
    whatever the value, and only stores the value in the instance. *)
Definition plain `{ObjectModel} (k : string) : Prop :=
  forall obj v, setattr obj k v = (Ok tt, store obj k v).

(** [repr(v)], as the f-string of the error message formats a tuple's
    items. *)
Fixpoint val_repr (v : PyVal) : string :=
  match v with
  | VNone => "None"
  | VBool true => "True"
  | VBool false => "False"
  | VInt z => pretty z
  | VStr s => str_repr s
  | VTuple items =>
      "(" +:+
      (fix go (l : list PyVal) : string :=
         match l with
         | [] => ""
         | [x] => val_repr x
         | x :: rest => val_repr x +:+ ", " +:+ go rest
         end) items
      +:+ (if Nat.eqb (length items) 1 then "," else "") +:+ ")"
  | VList items =>
      "[" +:+
      (fix go (l : list PyVal) : string :=
         match l with
         | [] => ""
         | [x] => val_repr x
         | x :: rest => val_repr x +:+ ", " +:+ go rest
         end) items
      +:+ "]"
  | VDict entries =>
      "{" +:+
      (fix go (l : list (string * PyVal)) : string :=
         match l with
         | [] => ""
         | [(k, x)] => str_repr k +:+ ": " +:+ val_repr x
         | (k, x) :: rest => str_repr k +:+ ": " +:+ val_repr x +:+ ", " +:+ go rest
         end) entries
      +:+ "}"
  end.

(** The value the loop leaves in attribute [k]: the one of the last item
    that names [k], if any. *)
Fixpoint last_binding (k : string) (items : list (string * PyVal)) : option PyVal :=
  match items with
  | [] => None
  | (k', v) :: rest =>
      match last_binding k rest with
      | Some v' => Some v'
      | None => if String.eqb k' k then Some v else None
      end
  end.

Section WithObjects.
Context `{OM : ObjectModel}.

(** [for k, v in items: setattr(obj, k, v)]: the loop ends at the first
    assignment that raises. *)
Fixpoint setattr_all (obj : NNParameter) (items : list (string * PyVal))
    : Result unit * NNParameter :=
  match items with
  | [] => (Ok tt, obj)
  | (k, v) :: rest =>
      match setattr obj k v with
      | (Ok _, obj) => setattr_all obj rest
      | (Raise e, obj) => (Raise e, obj)
      end
  end.

(** [if x: for k, v in x.items(): setattr(obj, k, v)].  The result is the
    outcome together with the object as the statement leaves it. *)
Definition replay (obj : NNParameter) (x : PyVal) : Result unit * NNParameter :=
  if truthy x then
    match x with
    | VDict entries => setattr_all obj entries
    | _ => (Raise (AttributeError ("'" +:+ type_name x
                                   +:+ "' object has no attribute 'items'")), obj)
    end
  else (Ok tt, obj).

(** [_set_obj_state(obj, state)]: the outcome and the object as the call
    leaves it; on a normal return that object is the returned one. *)
Definition _set_obj_state (obj : NNParameter) (state : PyVal) : Result unit * NNParameter :=
  match (match state with
         | VTuple items =>
             match items with
             | [dict_state; slots_state] => Ok (dict_state, slots_state)
             | _ => Raise (RuntimeError ("Invalid serialized state: " +:+ val_repr state))
             end
         | _ => Ok (state, VNone)
         end) with
  | Raise e => (Raise e, obj)
  | Ok (dict_state, slots_state) =>
      (* Starting with Python 3.11, the __dict__ attribute is lazily created
         and is serialized as None when not needed. *)
      match replay obj dict_state with
      | (Raise e, obj) => (Raise e, obj)
      | (Ok _, obj) => replay obj slots_state
      end
  end.

Definition _rebuild_parameter (data : Tensor) (requires_grad : bool)
    (backward_hooks : PyVal) : Result NNParameter :=
  match new_Parameter data requires_grad with
  | Raise e => Raise e
  | Ok param =>
      (* NB: This line exists only for backwards compatibility *)
      match setattr param "_backward_hooks" backward_hooks with
      | (Raise e, _) => Raise e
      | (Ok _, param) => Ok param
      end
  end.

Definition _rebuild_parameter_with_state (data : Tensor) (requires_grad : bool)
    (backward_hooks state : PyVal) : Result NNParameter :=
  match new_Parameter data requires_grad with
  | Raise e => Raise e
  | Ok param =>
      (* NB: This line exists only for backwards compatibility *)
      match setattr param "_backward_hooks" backward_hooks with
      | (Raise e, _) => Raise e
      | (Ok _, param) =>
          (* Restore state on Parameter like python attr. *)
          match _set_obj_state param state with
          | (Raise e, _) => Raise e
          | (Ok _, param) => Ok param
          end
      end
  end.

End WithObjects.

End Param.
Export Param.

(** ** [ExceptionWrapper] *)

Module Wrapper.

(** *** Exception classes *)

(** How a class is called: [cls(a)] or [cls(message=m)]. *)
Inductive CallArgs : Type :=
| Positional (a : PyStr)
| KeywordMessage (m : PyStr).

(** An exception class other than [KeyError], by what [reraise] asks of
    it: its name, its [message] attribute if any, and what calling it
    does (an instance, or an exception from the constructor). *)
Record ClassDesc := mkClass {
  cls_name : string;                   (* cls.__name__ *)
  cls_message : PyVal;                 (* getattr(cls, "message", None) *)
  cls_call : CallArgs -> Result Exc
}.

Inductive ExcType : Type :=
| KeyError
| OtherClass (c : ClassDesc).

Definition lookup_bases : list string := ["LookupError"; "Exception"; "BaseException"].

(** [KeyError(a)]: [str] of a [KeyError] with one argument is the [repr]
    of that argument. *)
Definition KeyError_call (args : CallArgs) : Result Exc :=
  match args with
  | Positional a => Ok (mkExc "KeyError" lookup_bases [a] (repr a) None None false)
  | KeywordMessage _ => Raise (TypeError "KeyError() takes no keyword arguments")
  end.

(** A class with the constructor and [__str__] of [BaseException]. *)
Definition plain_class (name : string) (bases : list string) : ClassDesc :=
  mkClass name VNone
    (fun args =>
       match args with
       | Positional a => Ok (mkExc name bases [a] (str_value a) None None false)
       | KeywordMessage _ =>
           Raise (TypeError (name +:+ "() takes no keyword arguments"))
       end).

Definition name_of (ty : ExcType) : string :=
  match ty with
  | KeyError => "KeyError"
  | OtherClass c => cls_name c
  end.

Definition getattr_message (ty : ExcType) : PyVal :=
  match ty with
  | KeyError => VNone
  | OtherClass c => cls_message c
  end.

Definition call (ty : ExcType) (args : CallArgs) : Result Exc :=
  match ty with
  | KeyError => KeyError_call args
  | OtherClass c => cls_call c args
  end.

(** [ty == KeyError] *)
Definition is_KeyError (ty : ExcType) : bool :=
  match ty with
  | KeyError => true
  | OtherClass _ => false
  end.

(** *** Live error objects *)

Abbreviation loc := positive.

Record FrameSummary := mkFrame {
  fs_filename : string;
  fs_lineno : Z;
  fs_name : string;
  fs_line : string
}.

(** The mutable objects [sys.exc_info()] points to. *)
Inductive HeapObj : Type :=
| HTraceback (frames : list FrameSummary)   (* tb and its tb_next chain *)
| HException (text : string).               (* an instance, by str(value) *)

Abbreviation Heap := (gmap loc HeapObj).

(** [(type, value, traceback)]; [None] is the triple of three [None]s
    that [sys.exc_info()] gives when no exception is being handled. *)
Definition ExcInfo : Type := option (ExcType * loc * loc).

Definition quoted (s : string) : string :=
  String double_quote s +:+ String double_quote "".

(** Each line with its line end. *)
Definition lines (ls : list string) : string :=
  fold_right (fun l rest => l +:+ String newline rest) "" ls.

Definition format_frame (f : FrameSummary) : string :=
  "  File " +:+ quoted (fs_filename f)
  +:+ ", line " +:+ pretty (fs_lineno f) +:+ ", in " +:+ fs_name f
  +:+ String newline ("    " +:+ fs_line f +:+ String newline "").

(** [traceback.format_exception] is library code: it renders the triple
    from the live objects it points to. *)
Class Traceback := {
  format_exception : Heap -> ExcInfo -> list string
}.

(** [''.join(parts)] *)
Definition join (parts : list string) : string :=
  fold_right String.append "" parts.

(** *** The wrapper *)

(** What an attribute of an instance holds: [None], a string, a class, or
    a reference to a live object. *)
Inductive Value : Type :=
| ANone
| AStr (s : string)
| AClass (ty : ExcType)
| ARef (l : loc).

(** An instance, by its [__dict__]. *)
Abbreviation Instance := (gmap string Value).

(** [exc_info[0]] *)
Definition exc_info_type (exc_info : ExcInfo) : Value :=
  match exc_info with
  | Some i => AClass i.1.1
  | None => ANone
  end.

(** [ExceptionWrapper(exc_info, where)], run with the live objects [h]
    while [current] is what [sys.exc_info()] returns: the attributes that
    the three assignments give the new instance. *)
Definition __init__ `{Traceback} (h : Heap) (current : ExcInfo)
    (exc_info : option ExcInfo) (where_ : string) : Instance :=
  (* It is important that we don't store exc_info *)
  let exc_info := match exc_info with
                  | None => current
                  | Some i => i
                  end in
  let self : Instance := ∅ in
  let self := <["exc_type" := exc_info_type exc_info]> self in
  let self := <["exc_msg" := AStr (join (format_exception h exc_info))]> self in
  let self := <["where" := AStr where_]> self in
  self.

(** What reading an attribute gives while the live objects are [h]: a
    string or a class is itself, a reference shows the object as it is
    now. *)
Inductive Seen : Type :=
| SNone
| SStr (s : string)
| SClass (ty : ExcType)
| SObject (o : option HeapObj).

Definition read (h : Heap) (v : Value) : Seen :=
  match v with
  | ANone => SNone
  | AStr s => SStr s
  | AClass ty => SClass ty
  | ARef l => SObject (h !! l)
  end.

(** All that can be read through the instance. *)
Definition view (h : Heap) (self : Instance) : gmap string Seen := read h <$> self.

(** The instance keeps a reference to the live object at [l]. *)
Definition refers_to (self : Instance) (l : loc) : Prop :=
  exists k, self !! k = Some (ARef l).

(** The three attributes as [reraise] reads them. *)
Record ExceptionWrapper := mkWrapper {
  exc_type : option ExcType;
  exc_msg : string;
  where_ : string
}.

Definition wrapper_of (h : Heap) (self : Instance) : option ExceptionWrapper :=
  match view h self !! "exc_type", view h self !! "exc_msg", view h self !! "where" with
  | Some (SClass ty), Some (SStr msg), Some (SStr label) =>
      Some (mkWrapper (Some ty) msg label)
  | Some SNone, Some (SStr msg), Some (SStr label) =>
      Some (mkWrapper None msg label)
  | _, _, _ => None
  end.

(** The f-string of [reraise]. *)
Definition composite (name where_ exc_msg : string) : string :=
  "Caught " +:+ name +:+ " " +:+ where_ +:+ "." +:+ String newline "Original "
  +:+ exc_msg.

(** The [try: ... except TypeError: ...] block and the final [raise]. *)
Definition instantiate_and_raise (ty : ExcType) (msg : PyStr) : Result PyVal :=
  match call ty (Positional msg) with
  | Ok exception => Raise exception
  | Raise e =>
      if isinstance e "TypeError"
      then (* If the exception takes multiple arguments, don't try to
              instantiate since we don't know how to *)
        Raise (raise_from_None
                 (mkExc "RuntimeError" ["Exception"; "BaseException"] [msg]
                        (str_value msg) None None false) e)
      else Raise e
  end.

Definition reraise (self : ExceptionWrapper) : Result PyVal :=
  match exc_type self with
  | None => Raise (AttributeError "'NoneType' object has no attribute '__name__'")
  | Some ty =>
      let msg := composite (name_of ty) (where_ self) (exc_msg self) in
      if is_KeyError ty then
        (* KeyError calls repr() on its argument; we work around it. *)
        instantiate_and_raise ty (KeyErrorMessage msg)
      else if truthy (getattr_message ty) then
        (* Some exceptions have first argument as non-str but explicitly
           have message field *)
        match call ty (KeywordMessage (Str msg)) with
        | Ok exception => Raise exception
        | Raise e => Raise e
        end
      else instantiate_and_raise ty (Str msg)
  end.

End Wrapper.
Export Wrapper.

(** ** A small runtime to run the functions on *)

Module Sample.

Definition element_size (dt : Dtype) : Z :=
  match dt with
  | float16 => 2
  | float32 | int32 | qint32 => 4
  | float64 | int64 => 8
  | uint8 | int8 | bool_ | qint8 | quint8 => 1
  end.

(** The furthest element a strided view reaches. *)
Fixpoint max_offset (size stride : list Z) : Z :=
  match size, stride with
  | n :: size', s :: stride' => (n - 1) * s + max_offset size' stride'
  | _, _ => 0
  end.

Definition sample_set__check (dt : Dtype) (st : UntypedStorage) (offset : Z)
    (size stride : list Z) : option Exc :=
  if negb (Nat.eqb (length size) (length stride)) then
    Some (RuntimeError "mismatch in length of strides and shape")
  else if existsb (Z.eqb 0) size then None
  else if Z.ltb (us_nbytes st) ((offset + max_offset size stride + 1) * element_size dt)
  then Some (RuntimeError "setStorage: sizes and strides are out of bounds for storage")
  else None.

(** Rows of a two-dimensional tensor stored row-major. *)
Fixpoint rows (width : nat) (count : nat) (elems : list Z) : list (list Z) :=
  match count with
  | O => []
  | S count' => take width elems :: rows width count' (drop width elems)
  end.

Definition in_bounds (bound : Z) (xs : list Z) : bool :=
  forallb (fun x => Z.leb 0 x && Z.ltb x bound) xs.

(** Index bounds of a COO tensor: row [d] of [indices] stays below
    [size[d]]. *)
Definition sample_validate_coo (indices values : DenseData) (size : list Z)
    (is_coalesced : bool) : option Exc :=
  match d_shape indices with
  | [ndim; nnz] =>
      let rs := rows (Z.to_nat nnz) (Z.to_nat ndim) (d_elems indices) in
      if forallb (fun p => in_bounds p.2 p.1) (zip rs size)
      then None
      else Some (RuntimeError "size is inconsistent with indices")
  | _ => Some (RuntimeError "indices must be an nDim x nnz tensor")
  end.

(** Index bounds of a compressed tensor: the plain indices stay below the
    extent of the plain dimension. *)
Definition sample_validate_compressed (compressed_indices plain_indices values : DenseData)
    (size : list Z) (lay : Layout) : option Exc :=
  let bound := if member lay [sparse_csr; sparse_bsr]
               then default 0 (size !! 1%nat)
               else default 0 (size !! 0%nat) in
  if in_bounds bound (d_elems plain_indices) then None
  else Some (RuntimeError "plain indices out of bounds").

(** Only floating dtypes carry a gradient. *)
Definition sample_requires_grad_check (dt : Dtype) (b : bool) : option Exc :=
  if b && negb (member dt [float16; float32; float64])
  then Some (RuntimeError
               "only Tensors of floating point and complex dtype can require gradients")
  else None.

(** A stand-in for the range check of the conversion: the magnitude from
    which [long], [float] and [double] refuse a number. *)
Definition magnitude_bound (dt : Dtype) : option Z :=
  match dt with
  | int64 => Some (2 ^ 63)
  | float32 => Some (2 ^ 128)
  | float64 => Some (2 ^ 1024)
  | _ => None
  end.

Definition sample_element_check (dt : Dtype) (x : Number) : option Exc :=
  match magnitude_bound dt with
  | Some bound =>
      if Z.leb (bound * Z.pos (QArith_base.Qden x)) (Z.abs (QArith_base.Qnum x))
      then Some (RuntimeError "value cannot be converted without overflow")
      else None
  | None => None
  end.

(** Bits of the significand of a floating dtype. *)
Definition precision (dt : Dtype) : Z :=
  match dt with
  | float16 => 11
  | float32 => 24
  | _ => 53
  end.

(** [floor (log2 (n / d))] for positive [n] and [d]. *)
Definition floor_log2 (n d : Z) : Z :=
  let e := Z.log2 n - Z.log2 d in
  if Z.leb (d * 2 ^ Z.max e 0) (n * 2 ^ Z.max (- e) 0) then e else e - 1.

(** [n / d] rounded to an integer, ties to even, for positive [d]. *)
Definition round_half_even (n d : Z) : Z :=
  let q := Z.div n d in
  let r := Z.modulo n d in
  if Z.ltb (2 * r) d then q
  else if Z.ltb d (2 * r) then q + 1
  else if Z.even q then q else q + 1.

(** A stand-in for the rounding of the conversion: the nearest number
    with [precision dt] significant bits. *)
Definition sample_element_value (dt : Dtype) (x : Number) : Number :=
  let n := QArith_base.Qnum x in
  let d := Z.pos (QArith_base.Qden x) in
  if Z.eqb n 0 then x
  else
    let shift := precision dt - 1 - floor_log2 (Z.abs n) d in
    let m := round_half_even (Z.abs n * 2 ^ Z.max shift 0) (d * 2 ^ Z.max (- shift) 0) in
    Qreduction.Qred
      (QArith_base.Qmake (Z.sgn n * m * 2 ^ Z.max (- shift) 0)
                         (Z.to_pos (2 ^ Z.max shift 0))).

#[local] Instance sample_runtime : TorchRuntime := {|
  set__check := sample_set__check;
  requires_grad_check := sample_requires_grad_check;
  element_check := sample_element_check;
  element_value := sample_element_value;
  _validate_sparse_coo_tensor_args := sample_validate_coo;
  _validate_sparse_compressed_tensor_args := sample_validate_compressed
|}.

(** A 2 x 2 COO tensor with one entry at row 5: out of bounds. *)
Definition bad_indices : DenseData := mkDense [2; 1] [5; 0].
Definition one_value : DenseData := mkDense [1] [7].
Definition bad_coo_data : list Item :=
  [ITensor bad_indices; ITensor one_value; ISize [2; 2]].

Definition good_indices : DenseData := mkDense [2; 1] [1; 0].
Definition good_coo_data : list Item :=
  [ITensor good_indices; ITensor one_value; ISize [2; 2]; IBool true].

(** A 2 x 2 CSR tensor with one entry in column 3: out of bounds. *)
Definition bad_csr_data : list Item :=
  [ITensor (mkDense [3] [0; 1; 1]); ITensor (mkDense [1] [3]);
   ITensor one_value; ISize [2; 2]].

Definition float_storage : TypedStorage := mkTyped float32 (mkUntyped cpu 24).

(** *** Exception classes for the wrapper *)

Definition ValueError_class : ClassDesc :=
  plain_class "ValueError" ["Exception"; "BaseException"].

(** [class NotFound(Exception)] whose [__init__(self, name)] calls
    [super().__init__(f"{name} not found")]. *)
Definition NotFound_class : ClassDesc :=
  mkClass "NotFound" VNone
    (fun args =>
       match args with
       | Positional a =>
           let text := str_value a +:+ " not found" in
           Ok (mkExc "NotFound" ["Exception"; "BaseException"] [Str text] text
                     None None false)
       | KeywordMessage _ =>
           Raise (TypeError "NotFound.__init__() got an unexpected keyword argument 'message'")
       end).

(** [class CodedError(Exception)] with [__init__(self, code, detail)]:
    two required positional arguments. *)
Definition CodedError_class : ClassDesc :=
  mkClass "CodedError" VNone
    (fun args =>
       match args with
       | Positional _ =>
           Raise (TypeError "CodedError.__init__() missing 1 required positional argument: 'detail'")
       | KeywordMessage _ =>
           Raise (TypeError "CodedError.__init__() got an unexpected keyword argument 'message'")
       end).

(** [class RemoteError(Exception)] with a class attribute
    [message = "remote failure"] and [__init__(self, *, message)]: the
    message is keyword-only. *)
Definition RemoteError_class : ClassDesc :=
  mkClass "RemoteError" (VStr "remote failure")
    (fun args =>
       match args with
       | Positional _ =>
           Raise (TypeError "RemoteError.__init__() takes 1 positional argument but 2 were given")
       | KeywordMessage m =>
           Ok (mkExc "RemoteError" ["Exception"; "BaseException"] [m] (str_value m)
                     None None false)
       end).

(** [class MissingKey(KeyError): pass].  It inherits the constructor and
    [__str__] of [KeyError], and it is not [KeyError] itself. *)
Definition MissingKey_class : ClassDesc :=
  mkClass "MissingKey" VNone
    (fun args =>
       match args with
       | Positional a =>
           Ok (mkExc "MissingKey" ("KeyError" :: lookup_bases) [a] (repr a)
                     None None false)
       | KeywordMessage _ =>
           Raise (TypeError "MissingKey() takes no keyword arguments")
       end).

(** *** A traceback printer

    A stand-in for the library's printer, to run the examples on: the
    header and one entry per frame when there is a traceback, then the
    line of the exception.  The library prints more: the module of the
    class, position markers under the source lines, chained exceptions. *)
Definition sample_format_exception (h : Heap) (exc_info : ExcInfo) : list string :=
  match exc_info with
  | None => ["NoneType: None" +:+ String newline ""]
  | Some (ty, value, tb) =>
      (match h !! tb with
       | Some (HTraceback frames) =>
           ("Traceback (most recent call last):" +:+ String newline "")
           :: map format_frame frames
       | _ => []
       end)
      ++ [match h !! value with
          | Some (HException text) =>
              if String.eqb text "" then name_of ty +:+ String newline ""
              else name_of ty +:+ ": " +:+ text +:+ String newline ""
          | _ => name_of ty +:+ String newline ""
          end]
  end.

#[local] Instance sample_traceback : Traceback := {|
  format_exception := sample_format_exception
|}.

(** *** A parameter class

    A stand-in for a subclass of [torch.nn.Parameter], to run the
    examples on, with a read-only property [checksum].  [requires_grad]
    takes a bool and goes to the tensor, as does [_backward_hooks]; every
    other name is an ordinary attribute. *)
Definition sample_new_Parameter (data : Tensor) (requires_grad : bool)
    : Result NNParameter :=
  match sample_requires_grad_check (t_dtype data) requires_grad with
  | Some e => Raise e
  | None => Ok (mkParameter (with_requires_grad data requires_grad) ∅)
  end.

Definition sample_setattr (obj : NNParameter) (k : string) (v : PyVal)
    : Result unit * NNParameter :=
  if String.eqb k "checksum" then
    (Raise (AttributeError "can't set attribute 'checksum'"), obj)
  else if String.eqb k "requires_grad" then
    match v with
    | VBool b =>
        match sample_requires_grad_check (t_dtype (p_data obj)) b with
        | Some e => (Raise e, obj)
        | None => (Ok tt, mkParameter (with_requires_grad (p_data obj) b) (p_attrs obj))
        end
    | _ => (Raise (RuntimeError "requires_grad must be a bool"), obj)
    end
  else if String.eqb k "_backward_hooks" then
    (Ok tt, mkParameter (set_backward_hooks (p_data obj) v) (p_attrs obj))
  else (Ok tt, store obj k v).

#[local] Instance sample_objects : ObjectModel := {|
  new_Parameter := sample_new_Parameter;
  setattr := sample_setattr
|}.

Definition float_tensor : Tensor :=
  mkTensor float32 cpu (mkUntyped cpu 0) 0 [0] [1] false VNone ∅ None.

Definition long_tensor : Tensor :=
  mkTensor int64 cpu (mkUntyped cpu 0) 0 [0] [1] false VNone ∅ None.

(** A worker's error as [sys.exc_info()] shows it. *)
Definition worker_frames : list FrameSummary :=
  [mkFrame "worker.py" 12 "_worker_loop" "data = fetcher.fetch(index)";
   mkFrame "fetch.py" 40 "fetch" "raise ValueError(index)"].

Definition worker_heap : Heap :=
  {[ 1%positive := HException "bad index 7"; 2%positive := HTraceback worker_frames ]}.

Definition worker_exc_info : ExcInfo :=
  Some (OtherClass ValueError_class, 1%positive, 2%positive).

End Sample.

(** ** Sequences of calls *)

Module Session.
Section WithRuntime.
Context `{RT : TorchRuntime}.

(** A load pass: the rebuild calls of the unpickler, one after the other.
    A call that raises leaves the world as it was at the raise; the pass
    goes on with the next call, so every interleaving of failed and
    successful calls is covered. *)
Fixpoint rebuild_all (calls : list (Layout * list Item)) (w : World) : World :=
  match calls with
  | [] => w
  | (lay, data) :: rest => rebuild_all rest (snd (_rebuild_sparse_tensor lay data w))
  end.

End WithRuntime.

(** What can happen to the live error objects after a capture. *)
Inductive Mutation : Type :=
| Overwrite (l : loc) (o : HeapObj)
| Discard (l : loc).

Definition mutate1 (h : Heap) (m : Mutation) : Heap :=
  match m with
  | Overwrite l o => <[l := o]> h
  | Discard l => delete l h
  end.

Definition mutate (h : Heap) (ms : list Mutation) : Heap := foldl mutate1 h ms.

(** The triple that [__init__] reads: its argument, or the current one. *)
Definition resolve (current : ExcInfo) (exc_info : option ExcInfo) : ExcInfo :=
  match exc_info with
  | None => current
  | Some i => i
  end.

(** A class whose instances carry the message they are made from: called
    the way [reraise] calls it, it returns an instance that shows the
    message, or (positional call only) raises a [TypeError]. *)
Definition carries_message (ty : ExcType) (msg : string) : Prop :=
  match ty with
  | KeyError => True
  | OtherClass c =>
      if truthy (cls_message c)
      then exists e, cls_call c (KeywordMessage (Str msg)) = Ok e /\ exc_text e = msg
      else (exists e, cls_call c (Positional (Str msg)) = Ok e /\ exc_text e = msg)
           \/ (exists e, cls_call c (Positional (Str msg)) = Raise e
                         /\ isinstance e "TypeError" = true)
  end.

End Session.
Export Session.

(** ** Exceptions that leave a generator *)

Module Generators.

(** The [StopIteration] of [next] on an exhausted iterator. *)
Definition StopIteration : Exc :=
  mkExc "StopIteration" ["Exception"; "BaseException"] [] "" None None false.

(** A [StopIteration] that escapes from the body of a generator is
    replaced by this [RuntimeError], raised from it: the [StopIteration]
    is its cause and its context, and the context is marked suppressed. *)
Definition generator_raised_StopIteration (e : Exc) : Exc :=
  mkExc "RuntimeError" ["Exception"; "BaseException"]
        [Str "generator raised StopIteration"] "generator raised StopIteration"
        (Some (summary e)) (Some (summary e)) true.

(** What the caller of the generator sees when its body raises [e]. *)
Definition leaves_generator (e : Exc) : Exc :=
  if isinstance e "StopIteration" then generator_raised_StopIteration e else e.

End Generators.
Export Generators.

(** ** Running totals: [_accumulate] *)

Module Accumulate.
Section WithElement.
Context {A : Type}.

(** The [for element in it:] loop: what is yielded from [total] on, and
    the exception that ends the generator when [fn] raises. *)
Fixpoint accumulate_rest (fn : A -> A -> Result A) (total : A) (it : list A)
    : list A * option Exc :=
  match it with
  | [] => ([], None)
  | element :: it' =>
      match fn total element with
      | Raise e => ([], Some (leaves_generator e))
      | Ok total' =>
          let (yielded, exc) := accumulate_rest fn total' it' in
          (total' :: yielded, exc)
      end
  end.

(** [_accumulate(iterable, fn)]: the values the generator yields, in
    order, and the exception that ends it when [fn] raises. *)
Definition _accumulate (iterable : list A) (fn : A -> A -> Result A)
    : list A * option Exc :=
  match iterable with
  | [] => ([], None)                       (* except StopIteration: return *)
  | total :: it =>
      let (yielded, exc) := accumulate_rest fn total it in
      (total :: yielded, exc)
  end.

(** Left fold of [fn] from [total], stopping at the first exception. *)
Fixpoint reduce_from (fn : A -> A -> Result A) (total : A) (xs : list A) : Result A :=
  match xs with
  | [] => Ok total
  | x :: xs' =>
      match fn total x with
      | Ok total' => reduce_from fn total' xs'
      | Raise e => Raise e
      end
  end.

(** [functools.reduce(fn, xs)] on a non-empty list; [None] on the empty
    one. *)
Definition reduce (fn : A -> A -> Result A) (xs : list A) : option (Result A) :=
  match xs with
  | [] => None
  | x :: xs' => Some (reduce_from fn x xs')
  end.

End WithElement.

(** The default [fn=lambda x, y: x + y], on Python ints. *)
Definition add (x y : Z) : Result Z := Ok (x + y).

Definition sum (xs : list Z) : Z := foldr Z.add 0 xs.

End Accumulate.
Export Accumulate.

(** ** Chunking and reordering: [_take_tensors], [_reorder_tensors_as] *)

Module Chunks.

(** A tensor as the two functions read it: its [type()] string, whether
    it is sparse, and the element counts and sizes of itself or, when
    sparse, of its indices and values.  [ti_id] tells tensors apart. *)
Record TensorInfo := mkInfo {
  ti_id : Z;
  ti_type : string;                     (* tensor.type() *)
  ti_is_sparse : bool;
  ti_numel : Z;
  ti_element_size : Z;
  ti_indices_numel : Z;
  ti_indices_element_size : Z;
  ti_values_numel : Z;
  ti_values_element_size : Z
}.

(** The [size] computed at the head of the loop of [_take_tensors]. *)
Definition tensor_size (tensor : TensorInfo) : Z :=
  if ti_is_sparse tensor then
    ti_indices_numel tensor * ti_indices_element_size tensor
    + ti_values_numel tensor * ti_values_element_size tensor
  else ti_numel tensor * ti_element_size tensor.

(** [buf_dict]: an insertion-ordered dict from type to [[buffer, size]]. *)
Abbreviation BufDict := (list (string * (list TensorInfo * Z))).

(** [buf_dict[t]] of the [defaultdict]: the entry, created as [[[], 0]]
    at the end of the dict when the key is new. *)
Fixpoint dict_get (d : BufDict) (t : string) : (list TensorInfo * Z) * BufDict :=
  match d with
  | [] => (([], 0), [(t, ([], 0))])
  | (k, v) :: d' =>
      if String.eqb k t then (v, d)
      else let (r, d'') := dict_get d' t in (r, (k, v) :: d'')
  end.

(** [buf_dict[t] = v] on a key that is present: the entry keeps its place. *)
Fixpoint dict_set (d : BufDict) (t : string) (v : list TensorInfo * Z) : BufDict :=
  match d with
  | [] => [(t, v)]
  | (k, v') :: d' =>
      if String.eqb k t then (k, v) :: d'
      else (k, v') :: dict_set d' t v
  end.

(** The keys of the dict in insertion order, and the value under a key
    (the default [[[], 0]] when the key is absent). *)
Definition dict_keys (d : BufDict) : list string := map fst d.

Fixpoint dict_value (d : BufDict) (t : string) : list TensorInfo * Z :=
  match d with
  | [] => ([], 0)
  | (k, v) :: d' => if String.eqb k t then v else dict_value d' t
  end.

(** One round of the [for tensor in tensors:] loop: the chunk it yields,
    if any, and the dict it leaves. *)
Definition take_step (size_limit : Z) (d : BufDict) (tensor : TensorInfo)
    : option (list TensorInfo) * BufDict :=
  let t := ti_type tensor in
  let size := tensor_size tensor in
  let (buf_and_size, d) := dict_get d t in
  if Z.ltb size_limit (buf_and_size.2 + size) && Z.ltb 0 buf_and_size.2 then
    (Some buf_and_size.1, dict_set d t ([tensor], size))
  else
    (None, dict_set d t ((buf_and_size.1 ++ [tensor])%list, buf_and_size.2 + size)).

Fixpoint take_loop (size_limit : Z) (d : BufDict) (tensors : list TensorInfo)
    : list (list TensorInfo) * BufDict :=
  match tensors with
  | [] => ([], d)
  | tensor :: rest =>
      let (y, d') := take_step size_limit d tensor in
      let (ys, d'') := take_loop size_limit d' rest in
      (match y with
       | Some chunk => chunk :: ys
       | None => ys
       end, d'')
  end.

(** The final [for buf, _ in buf_dict.values(): if len(buf) > 0: yield buf]. *)
Definition leftovers (d : BufDict) : list (list TensorInfo) :=
  filter (fun buf => (0 < length buf)%nat) (map (fun kv => kv.2.1) d).

(** [_take_tensors(tensors, size_limit)]: the chunks in the order the
    generator yields them. *)
Definition _take_tensors (tensors : list TensorInfo) (size_limit : Z)
    : list (list TensorInfo) :=
  let (yielded, d) := take_loop size_limit [] tensors in
  (yielded ++ leftovers d)%list.

(** The tensors of one type, in order. *)
Definition of_type (ty : string) (l : list TensorInfo) : list TensorInfo :=
  filter (fun x => ti_type x = ty) l.

Definition total_size (l : list TensorInfo) : Z :=
  foldr (fun x acc => tensor_size x + acc) 0 l.

(** All tensors of a chunk have type [k]. *)
Definition homogeneous (k : string) (chunk : list TensorInfo) : Prop :=
  Forall (fun x => ti_type x = k) chunk.

(** What [buf_dict] satisfies between two rounds of the loop: distinct
    keys, and under each key tensors of that type with their total size. *)
Definition dict_ok (d : BufDict) : Prop :=
  NoDup (dict_keys d)
  /\ forall k, homogeneous k (dict_value d k).1
               /\ (dict_value d k).2 = total_size (dict_value d k).1.

(** A chunk respects the limit, or it is over it only by its last
    tensor, everything before weighing nothing. *)
Definition within_limit (size_limit : Z) (chunk : list TensorInfo) : Prop :=
  total_size chunk <= size_limit \/ total_size (removelast chunk) = 0.

Definition nonnegative (l : list TensorInfo) : Prop :=
  Forall (fun x => 0 <= tensor_size x) l.

Definition dict_bounded (size_limit : Z) (d : BufDict) : Prop :=
  forall k, within_limit size_limit (dict_value d k).1
            /\ nonnegative (dict_value d k).1.

(** The distinct strings of a list in the order they first appear, those
    of [seen] left out. *)
Fixpoint first_seen (seen l : list string) : list string :=
  match l with
  | [] => []
  | x :: l' =>
      if bool_decide (x ∈ seen) then first_seen seen l'
      else x :: first_seen (x :: seen) l'
  end.

(** [type_dict]: the tensors grouped by type. *)
Definition group_by_type (tensors : list TensorInfo) : gmap string (list TensorInfo) :=
  foldl (fun d tensor =>
           <[ti_type tensor := (default [] (d !! ti_type tensor) ++ [tensor])%list]> d)
        ∅ tensors.

(** What the iterator of type [ty] has still to give (nothing when the
    dict has no such key). *)
Definition remaining (iters : gmap string (list TensorInfo)) (ty : string)
    : list TensorInfo :=
  default [] (iters !! ty).

(** A [KeyError] of a dict lookup on a missing string key. *)
Definition missing_key (k : string) : Exc :=
  mkExc "KeyError" lookup_bases [Str k] (str_repr k) None None false.

(** [next] on an exhausted iterator, inside the generator expression. *)
Definition generator_stop : Exc := leaves_generator StopIteration.

(** [tuple(next(type_dict_[tensor.type()]) for tensor in ordered_tensors)],
    with [iters] the state of the iterators of [type_dict_]: what each
    has still to give. *)
Fixpoint reorder_loop (iters : gmap string (list TensorInfo))
    (ordered_tensors : list TensorInfo) : Result (list TensorInfo) :=
  match ordered_tensors with
  | [] => Ok []
  | tensor :: rest =>
      match iters !! ti_type tensor with
      | None => Raise (missing_key (ti_type tensor))
      | Some [] => Raise generator_stop
      | Some (x :: remaining) =>
          match reorder_loop (<[ti_type tensor := remaining]> iters) rest with
          | Ok out => Ok (x :: out)
          | Raise e => Raise e
          end
      end
  end.

Definition _reorder_tensors_as (tensors ordered_tensors : list TensorInfo)
    : Result (list TensorInfo) :=
  let type_dict := group_by_type tensors in
  reorder_loop type_dict ordered_tensors.

End Chunks.
Export Chunks.

Module ChunkSample.

Definition float_a : TensorInfo := mkInfo 1 "torch.FloatTensor" false 4 4 0 0 0 0.
Definition long_b : TensorInfo := mkInfo 2 "torch.LongTensor" false 2 8 0 0 0 0.
Definition float_c : TensorInfo := mkInfo 3 "torch.FloatTensor" false 8 4 0 0 0 0.
Definition sparse_d : TensorInfo :=
  mkInfo 4 "torch.sparse.FloatTensor" true 0 0 6 8 3 4.
Definition float_empty : TensorInfo := mkInfo 5 "torch.FloatTensor" false 0 4 0 0 0 0.

Definition some_tensors : list TensorInfo := [float_a; long_b; float_c; sparse_d].

End ChunkSample.

(** ** Keyword compatibility: [_get_async_or_non_blocking] *)

Module Kwargs.

(** [key in kwargs] *)
Definition has_key (k : string) (kwargs : list (string * PyVal)) : bool :=
  existsb (fun kv => String.eqb kv.1 k) kwargs.

(** [kwargs[k]] on a key that is present. *)
Definition item (k : string) (kwargs : list (string * PyVal)) : PyVal :=
  default VNone (snd <$> List.find (fun kv => String.eqb kv.1 k) kwargs).

(** [list(kwargs.keys()).pop()]: the key inserted last. *)
Definition last_key (kwargs : list (string * PyVal)) : string :=
  default "" (fst <$> last kwargs).

Definition async_warning : string := "'async' is deprecated; use 'non_blocking'".

(** [_get_async_or_non_blocking(function_name, non_blocking, kwargs)],
    with [kwargs] in insertion order: the outcome and the warnings
    issued. *)
Definition _get_async_or_non_blocking (function_name : string) (non_blocking : PyVal)
    (kwargs : list (string * PyVal)) : Result PyVal * list string :=
  if Nat.eqb (length kwargs) 0 then (Ok non_blocking, [])
  else if negb (Nat.eqb (length kwargs) 1) || negb (has_key "async" kwargs) then
    let argument := last_key kwargs in
    (Raise (TypeError (function_name +:+ "() got an unexpected keyword argument '"
                       +:+ argument +:+ "'")), [])
  else (Ok (item "async" kwargs), [async_warning]).

End Kwargs.
Export Kwargs.

(** ** Object state: [_get_obj_state] *)

Module ObjState.

(** An object as [_get_obj_state] reads it. *)
Record PyObject := mkObject {
  o_getstate : option PyVal;           (* obj.__getstate__(), when there is one *)
  o_slotnames : list string;           (* copyreg._slotnames(obj.__class__) *)
  o_dict : list (string * PyVal);      (* obj.__dict__ *)
  o_slots : gmap string PyVal          (* the slots that hold a value *)
}.

(** [{name: getattr(obj, name) for name in names if hasattr(obj, name)}]:
    a name met again keeps its place in the dict. *)
Fixpoint slot_items (names seen : list string) (slots : gmap string PyVal)
    : list (string * PyVal) :=
  match names with
  | [] => []
  | name :: rest =>
      match slots !! name with
      | Some v =>
          if bool_decide (name ∈ seen) then slot_items rest seen slots
          else (name, v) :: slot_items rest (name :: seen) slots
      | None => slot_items rest seen slots
      end
  end.

Definition _get_obj_state (obj : PyObject) : PyVal :=
  match o_getstate obj with
  | Some state => state
  | None =>
      let slots_to_save := o_slotnames obj in
      if negb (Nat.eqb (length slots_to_save) 0) then
        VTuple [VDict (o_dict obj); VDict (slot_items slots_to_save [] (o_slots obj))]
      else VDict (o_dict obj)
  end.

(** A state that replays nothing: a falsy non-tuple, or a pair of falsy
    values. *)
Definition nothing_to_replay (state : PyVal) : bool :=
  match state with
  | VTuple [a; b] => negb (truthy a) && negb (truthy b)
  | VTuple _ => false
  | _ => negb (truthy state)
  end.

End ObjState.
Export ObjState.

(** ** The validation pass, tensor by tensor *)

Module Drain.
Section WithRuntime.
Context `{RT : TorchRuntime}.

(** What validating [t] raises; [None] when [t] passes. *)
Definition verdict (t : SparseTensor) : option Exc :=
  if bool_decide (layout t = sparse_coo) then
    _validate_sparse_coo_tensor_args
      (sp_indices t) (sp_values t) (sp_size t) (sp_is_coalesced t)
  else if member (layout t) compressed_layouts then
    _validate_sparse_compressed_tensor_args
      (sp_indices t) (sp_plain_indices t) (sp_values t) (sp_size t) (layout t)
  else
    Some (NotImplementedError
            ("_validate_loaded_sparse_tensors for layout `"
             +:+ layout_str (layout t) +:+ "`")).

(** The native call that validating [t] makes. *)
Definition validation_call (t : SparseTensor) : list Call :=
  if bool_decide (layout t = sparse_coo) then [call_validate_sparse_coo_tensor_args]
  else if member (layout t) compressed_layouts
       then [call_validate_sparse_compressed_tensor_args (layout t)]
       else [].

(** The tensors that the rebuild calls of a load pass return, in call
    order; a call that raises returns none. *)
Fixpoint returned (calls : list (Layout * list Item)) (w : World) : list SparseTensor :=
  match calls with
  | [] => []
  | (lay, data) :: rest =>
      let (r, w') := _rebuild_sparse_tensor lay data w in
      match r with
      | Ok t => t :: returned rest w'
      | Raise _ => returned rest w'
      end
  end.

End WithRuntime.

(** A computation that leaves the pending list as it found it. *)
Definition keeps_pending {A} (m : M A) : Prop :=
  forall w, _sparse_tensors_to_validate (snd (m w)) = _sparse_tensors_to_validate w.

End Drain.
Export Drain.

(** ** More exception classes *)

Module WrapperSample.

(** [class OpError(Exception)] with a class attribute [message] and
    [__init__(self, node_def, op, message)]: the message alone does not
    make an instance. *)
Definition OpError_class : ClassDesc :=
  mkClass "OpError" (VStr "op failed")
    (fun args =>
       Raise (TypeError
                "OpError.__init__() missing 2 required positional arguments: 'node_def' and 'op'")).

(** [class Fussy(Exception)] whose [__init__] raises [ValueError]. *)
Definition Fussy_class : ClassDesc :=
  mkClass "Fussy" VNone (fun args => Raise (Py.ValueError "bad argument")).

End WrapperSample.

(** ** The tuple [quantizer_params] *)

Module QuantizerTuple.

(** The length of [quantizer_params] that [_rebuild_qtensor] unpacks for
    a scheme it supports. *)
Definition unpacked_length (qscheme : QScheme) : option nat :=
  if bool_decide (qscheme = per_tensor_affine) then Some 3%nat
  else if member qscheme [per_channel_affine; per_channel_affine_float_qparams]
       then Some 4%nat
       else None.

End QuantizerTuple.
Export QuantizerTuple.

(** ** Device lookup: [_get_available_device_type] to [_get_device_index] *)

Module DeviceIndex.

(** A device module ([torch.cuda], [torch.xpu], a custom backend), by the
    members the helpers read. *)
Record DeviceModule := mkModule {
  is_available : bool;
  current_device : Z;
  device_count : Z;
  get_device_properties : Z -> PyVal
}.

(** The attributes of [torch] that the helpers look up. *)
Record TorchModule := mkTorch {
  torch_cuda : DeviceModule;                   (* torch.cuda *)
  torch_xpu : option DeviceModule;             (* torch.xpu, if hasattr(torch, "xpu") *)
  _get_privateuse1_backend_name : string;
  torch_backends : gmap string DeviceModule    (* device modules under other names *)
}.

(** [getattr(torch, name, None)] on the name of a device module. *)
Definition getattr_torch (torch : TorchModule) (name : string) : option DeviceModule :=
  if String.eqb name "cuda" then Some (torch_cuda torch)
  else if String.eqb name "xpu" then torch_xpu torch
  else torch_backends torch !! name.

(** [str.lower] on code points below 256. *)
Definition lower_char (c : ascii) : ascii :=
  let n := N_of_ascii c in
  if (N.leb 65 n && N.leb n 90) || (N.leb 192 n && N.leb n 222 && negb (N.eqb n 215))
  then ascii_of_N (n + 32) else c.

Fixpoint lower (s : string) : string :=
  match s with
  | EmptyString => EmptyString
  | String c rest => String (lower_char c) (lower rest)
  end.

Definition _get_available_device_type (torch : TorchModule) : option string :=
  if is_available (torch_cuda torch) then Some "cuda"
  else if match torch_xpu torch with
          | Some xpu => is_available xpu
          | None => false
          end
  then Some "xpu"
  else
    let custom_backend_name := _get_privateuse1_backend_name torch in
    let custom_device_mod := getattr_torch torch custom_backend_name in
    if match custom_device_mod with
       | Some m => is_available m
       | None => false
       end
    then Some custom_backend_name
    (* add more available device types here *)
    else None.

(** Truth value of [device_type]: [None] and the empty string are falsy. *)
Definition type_truthy (device_type : option string) : bool :=
  match device_type with
  | Some s => negb (String.eqb s "")
  | None => false
  end.

Definition no_attribute (name : string) : Exc :=
  AttributeError ("module 'torch' has no attribute '" +:+ name +:+ "'").

(** [get_member] returns a Python value, which may be [None]; the
    function hands it on as it is, so the result is [None] both when no
    branch applies and when [get_member] says so. *)
Definition _get_device_attr {A} (torch : TorchModule)
    (get_member : DeviceModule -> option A) : Result (option A) :=
  let device_type := _get_available_device_type torch in
  if type_truthy device_type && String.eqb (lower (default "" device_type)) "cuda" then
    Ok (get_member (torch_cuda torch))
  else if type_truthy device_type && String.eqb (lower (default "" device_type)) "xpu" then
    match torch_xpu torch with
    | Some xpu => Ok (get_member xpu)
    | None => Raise (no_attribute "xpu")
    end
  else if bool_decide (device_type = Some (_get_privateuse1_backend_name torch)) then
    match getattr_torch torch (default "" device_type) with
    | Some m => Ok (get_member m)
    | None => Raise (no_attribute (default "" device_type))
    end
  (* add more available device types here *)
  else Ok None.

(** [m.current_device()] is an int. *)
Definition _get_current_device_index (torch : TorchModule) : Result (option Z) :=
  _get_device_attr torch (fun m => Some (current_device m)).



Definition get_current_device_index (torch : TorchModule) : Z :=
  if Z.ltb 0 (device_count (torch_cuda torch))
  then current_device (torch_cuda torch)
  else -1.

(** A [torch.device]. *)
Record TorchDevice := mkDevice {
  dev_type : string;
  dev_index : option Z
}.

(** [str(device)] *)
Definition device_str (d : TorchDevice) : string :=
  match dev_index d with
  | Some i => dev_type d +:+ ":" +:+ pretty i
  | None => dev_type d
  end.

(** The [device] argument: a string, a [torch.device], an int or [None]. *)
Inductive DeviceArg : Type :=
| ArgStr (s : string)
| ArgDevice (d : TorchDevice)
| ArgInt (i : Z)
| ArgNone.

Definition arg_str (a : DeviceArg) : string :=
  match a with
  | ArgStr s => s
  | ArgDevice d => device_str d
  | ArgInt i => pretty i
  | ArgNone => "None"
  end.

(** What [_get_device_index] reads from its surroundings: the [torch]
    module, the native parser [torch.device(str)], and
    [torch.jit.is_scripting()]. *)
Record Interp := mkInterp {
  torch : TorchModule;
  torch_device : string -> Result TorchDevice;
  is_scripting : bool
}.

Definition _get_device_index (I : Interp) (device : DeviceArg)
    (optional allow_cpu : bool) : Result (option Z) :=
  match (match device with
         | ArgStr s =>
             match torch_device I s with
             | Ok d => Ok (ArgDevice d)
             | Raise e => Raise e
             end
         | _ => Ok device
         end) with
  | Raise e => Raise e
  | Ok device =>
      match (match device with
             | ArgDevice d =>
                 if negb allow_cpu && String.eqb (dev_type d) "cpu" then
                   Raise (Py.ValueError ("Expected a non cpu device, but got: "
                                         +:+ device_str d))
                 else Ok (if String.eqb (dev_type d) "cpu" then Some (-1)
                          else dev_index d)
             | ArgInt i => Ok (Some i)
             | _ => Ok None
             end) with
      | Raise e => Raise e
      | Ok (Some device_idx) => Ok (Some device_idx)
      | Ok None =>
          if optional then
            if is_scripting I then Ok (Some (get_current_device_index (torch I)))
            else _get_current_device_index (torch I)
          else
            Raise (Py.ValueError
                     ("Expected a torch.device with a specified index or an integer, but got:"
                      +:+ arg_str device))
      end
  end.

(** The argument names no device index: [None], or a device other than
    the CPU without an index. *)
Definition no_index (device : DeviceArg) : bool :=
  match device with
  | ArgDevice d => negb (String.eqb (dev_type d) "cpu") && negb (bool_decide (is_Some (dev_index d)))
  | ArgNone => true
  | _ => false
  end.

(** The argument is a [torch.device] of type [cpu]. *)
Definition is_cpu (device : DeviceArg) : bool :=
  match device with
  | ArgDevice d => String.eqb (dev_type d) "cpu"
  | _ => false
  end.

End DeviceIndex.
Export DeviceIndex.

(** ** [_element_size] *)

Module ElementSize.

(** A [torch.dtype], by what [_element_size] asks of it. *)
Record DtypeInfo := mkDtypeInfo {
  is_complex : bool;
  is_floating_point : bool;
  is_bool : bool;                (* dtype == torch.bool *)
  finfo_bits : Z;                (* torch.finfo(dtype).bits *)
  iinfo_bits : Z                 (* torch.iinfo(dtype).bits *)
}.

Inductive DtypeArg : Type :=
| NotADtype (v : PyVal)
| ADtype (d : DtypeInfo).

Definition _element_size (dtype : DtypeArg) : Result Z :=
  match dtype with
  | NotADtype v =>
      Raise (RuntimeError ("expected torch.dtype, but got <class '"
                           +:+ type_name v +:+ "'>"))
  | ADtype d =>
      if is_complex d then Ok (Z.shiftr (finfo_bits d) 2)
      else if is_floating_point d then Ok (Z.shiftr (finfo_bits d) 3)
      else if is_bool d then
        (* NOTE: torch.bool is not supported in torch.iinfo() *)
        Ok 1
      else Ok (Z.shiftr (iinfo_bits d) 3)
  end.

End ElementSize.
Export ElementSize.

Module DeviceSample.

Definition two_gpus : DeviceModule := mkModule true 1 2 (fun _ => VStr "GPU").
Definition no_gpu : DeviceModule := mkModule false 0 0 (fun _ => VNone).

Definition gpu_box : TorchModule := mkTorch two_gpus None "privateuseone" ∅.
Definition cpu_box : TorchModule := mkTorch no_gpu None "privateuseone" ∅.

(** A stand-in for the native parser: the two strings the samples use. *)
Definition parse (s : string) : Result TorchDevice :=
  if String.eqb s "cpu" then Ok (mkDevice "cpu" None)
  else if String.eqb s "cuda:1" then Ok (mkDevice "cuda" (Some 1))
  else Raise (RuntimeError ("Invalid device string: '" +:+ s +:+ "'")).

Definition gpu_interp : Interp := mkInterp gpu_box parse false.
Definition cpu_interp : Interp := mkInterp cpu_box parse false.

Definition complex64 : DtypeInfo := mkDtypeInfo true false false 32 0.
Definition float32_info : DtypeInfo := mkDtypeInfo false true false 32 0.

End DeviceSample.

(** ** [_import_dotted_name] *)

Module DottedName.

(** A module, class or other object with named attributes. *)
Inductive PyObj : Type :=
| mkObj (obj_repr : string) (obj_attrs : list (string * PyObj)).

Definition obj_repr (o : PyObj) : string :=
  match o with
  | mkObj r _ => r
  end.

Definition obj_attrs (o : PyObj) : list (string * PyObj) :=
  match o with
  | mkObj _ attrs => attrs
  end.

Definition dot : ascii := "."%char.

(** [name.split(".")]: never empty; an empty string gives one empty
    component. *)
Fixpoint split_dot (name : string) : list string :=
  match name with
  | EmptyString => [EmptyString]
  | String c rest =>
      if Ascii.eqb c dot then EmptyString :: split_dot rest
      else match split_dot rest with
           | component :: components => String c component :: components
           | [] => [String c EmptyString]
           end
  end.

(** [".".join(components)] *)
Fixpoint join_dot (components : list string) : string :=
  match components with
  | [] => EmptyString
  | [component] => component
  | component :: rest => component +:+ String dot (join_dot rest)
  end.

(** [__import__(name)] with [modules] the importable top-level modules. *)
Definition __import__ (modules : list (string * PyObj)) (name : string) : Result PyObj :=
  if String.eqb name "" then Raise (Py.ValueError "Empty module name")
  else match List.find (fun kv => String.eqb kv.1 name) modules with
       | Some kv => Ok kv.2
       | None =>
           Raise (new_exc "ModuleNotFoundError"
                          ["ImportError"; "Exception"; "BaseException"]
                          ("No module named '" +:+ name +:+ "'"))
       end.

(** [getattr(obj, component)] *)
Definition getattr (obj : PyObj) (component : string) : Result PyObj :=
  match List.find (fun kv => String.eqb kv.1 component) (obj_attrs obj) with
  | Some kv => Ok kv.2
  | None =>
      Raise (AttributeError (obj_repr obj +:+ " has no attribute '"
                             +:+ component +:+ "'"))
  end.

(** [for component in components: obj = getattr(obj, component)] *)
Fixpoint getattr_chain (obj : PyObj) (components : list string) : Result PyObj :=
  match components with
  | [] => Ok obj
  | component :: rest =>
      match getattr obj component with
      | Ok obj' => getattr_chain obj' rest
      | Raise e => Raise e
      end
  end.

Definition _import_dotted_name (modules : list (string * PyObj)) (name : string)
    : Result PyObj :=
  let components := split_dot name in
  match components with
  | [] => Raise (new_exc "IndexError" ["LookupError"; "Exception"; "BaseException"]
                         "list index out of range")
  | first :: rest =>
      match __import__ modules first with
      | Ok obj => getattr_chain obj rest
      | Raise e => Raise e
      end
  end.

(** A component that can be written between dots. *)
Definition dotless (component : string) : Prop := contains_char dot component = false.

Definition FloatTensor_obj : PyObj := mkObj "<class 'torch.cuda.FloatTensor'>" [].
Definition cuda_obj : PyObj :=
  mkObj "module 'torch.cuda'" [("FloatTensor", FloatTensor_obj)].
Definition torch_obj : PyObj := mkObj "module 'torch'" [("cuda", cuda_obj)].
Definition some_modules : list (string * PyObj) := [("torch", torch_obj)].

End DottedName.

(** * Properties *)

(** ** The pending-validation list *)

(** Unfold the monad and run it as far as the arguments allow. *)
Ltac py_run :=
  cbv [bind ret raise native check get_pending set_pending for_each member
       existsb fst snd];
  cbn;
  repeat (case_bool_decide; try congruence; cbn).

Module SparseFacts.
Section WithRuntime.
Context `{RT : TorchRuntime}.

Lemma try_finally_clear {A} (body : M A) (w : World) :
  try_finally body clear_pending w
  = (fst (body w), mkWorld [] (native_calls (snd (body w)))).
Proof.
  unfold try_finally, clear_pending, set_pending.
  destruct (body w) as [r w1]; reflexivity.
Qed.

(** C1. Whatever rebuild calls came before and from whatever state, one
    call of [_validate_loaded_sparse_tensors] leaves the pending list
    empty, whether it returns or raises; its outcome is the outcome of the
    validation loop. *)
Theorem validate_drains_pending (calls : list (Layout * list Item)) (w0 : World) :
  let w := rebuild_all calls w0 in
  _sparse_tensors_to_validate (snd (_validate_loaded_sparse_tensors w)) = []
  /\ fst (_validate_loaded_sparse_tensors w)
     = fst (for_each (_sparse_tensors_to_validate w) validate_one w).
Proof.
  intros w. unfold _validate_loaded_sparse_tensors.
  rewrite try_finally_clear. split; reflexivity.
Qed.






End WithRuntime.
End SparseFacts.

(** ** Dense rebuilds *)

Module DenseFacts.
Section WithRuntime.
Context `{RT : TorchRuntime}.

(** What [set_] does, by the verdict of the native check. *)
Lemma set__outcome (t : Tensor) (st : UntypedStorage) (offset : Z)
    (size stride : list Z) (w : World) :
  set_ t st offset size stride w
  = let w' := mkWorld (_sparse_tensors_to_validate w)
                      (native_calls w ++ [call_set_ st offset size stride]) in
    match set__check (t_dtype t) st offset size stride with
    | None =>
        (Ok (mkTensor (t_dtype t) (t_device t) st offset size stride
               (t_requires_grad t) (t_backward_hooks t) (t_metadata t) (t_quantizer t)),
         w')
    | Some e => (Raise e, w')
    end.
Proof.
  unfold set_. py_run.
  destruct (set__check (t_dtype t) st offset size stride); reflexivity.
Qed.

Lemma _rebuild_tensor_outcome (storage : TypedStorage) (storage_offset : Z)
    (size stride : list Z) (w : World) :
  _rebuild_tensor storage storage_offset size stride w
  = let dev := us_device (_untyped_storage storage) in
    let w' := mkWorld (_sparse_tensors_to_validate w)
                (native_calls w
                 ++ [call_tensor (dtype storage) dev;
                     call_set_ (_untyped_storage storage) storage_offset size stride]) in
    match set__check (dtype storage) (_untyped_storage storage)
            storage_offset size stride with
    | None =>
        (Ok (mkTensor (dtype storage) dev (_untyped_storage storage) storage_offset
               size stride false VNone ∅ None), w')
    | Some e => (Raise e, w')
    end.
Proof.
  unfold _rebuild_tensor, tensor_empty.
  unfold bind at 1. unfold bind at 1. unfold native at 1. unfold ret at 1.
  rewrite set__outcome. cbn -[app]. rewrite <- app_assoc. reflexivity.
Qed.

(** C7. [_rebuild_tensor] first makes the zero-element tensor with the
    dtype and device of the storage, then calls [set_] with the storage,
    offset, size and stride, and nothing else.  It returns exactly when
    [set_] accepts the view, and the tensor it returns has the dtype and
    device of the storage, is bound to that storage at the offset, and has
    the given size and stride. *)
Theorem rebuild_tensor_binds_storage (storage : TypedStorage) (storage_offset : Z)
    (size stride : list Z) (w : World) :
  let dev := us_device (_untyped_storage storage) in
  let verdict := set__check (dtype storage) (_untyped_storage storage)
                   storage_offset size stride in
  (exists t0,
      fst (tensor_empty (dtype storage) dev w) = Ok t0
      /\ t_size t0 = [0] /\ t_dtype t0 = dtype storage /\ t_device t0 = dev)
  /\ native_calls (snd (_rebuild_tensor storage storage_offset size stride w))
     = (native_calls w
        ++ [call_tensor (dtype storage) dev;
            call_set_ (_untyped_storage storage) storage_offset size stride])%list
  /\ match fst (_rebuild_tensor storage storage_offset size stride w) with
     | Ok t =>
         verdict = None
         /\ t_dtype t = dtype storage
         /\ t_device t = device storage
         /\ t_storage t = _untyped_storage storage
         /\ t_storage_offset t = storage_offset
         /\ t_size t = size
         /\ t_stride t = stride
     | Raise e => verdict = Some e
     end.
Proof.
  intros dev verdict. split.
  { eexists. split; [reflexivity |]. repeat split. }
  rewrite _rebuild_tensor_outcome. fold dev. fold verdict.
  destruct verdict as [e |]; cbn; repeat split.
Qed.

Lemma _rebuild_tensor_v2_unfold (storage : TypedStorage) (storage_offset : Z)
    (size stride : list Z) (requires_grad : bool) (backward_hooks : PyVal)
    (metadata : option (gmap string bool)) (w : World) :
  _rebuild_tensor_v2 storage storage_offset size stride
    requires_grad backward_hooks metadata w
  = match _rebuild_tensor storage storage_offset size stride w with
    | (Ok t0, w') =>
        match requires_grad_check (t_dtype t0) requires_grad with
        | Some e => (Raise e, w')
        | None =>
            let t1 := with_requires_grad t0 requires_grad in
            if metadata_truthy metadata
            then (Ok (set_backward_hooks
                        (_set_tensor_metadata t1 (default ∅ metadata)) backward_hooks),
                  mkWorld (_sparse_tensors_to_validate w')
                          (native_calls w'
                           ++ [call_set_tensor_metadata (default ∅ metadata)]))
            else (Ok (set_backward_hooks t1 backward_hooks), w')
        end
    | (Raise e, w') => (Raise e, w')
    end.
Proof.
  unfold _rebuild_tensor_v2, bind at 1.
  destruct (_rebuild_tensor storage storage_offset size stride w) as [[t0 | e] w'];
    [| reflexivity].
  unfold bind at 1, set_requires_grad, bind at 1, check.
  destruct (requires_grad_check (t_dtype t0) requires_grad); [reflexivity |].
  destruct (metadata_truthy metadata); reflexivity.
Qed.

(** C10. [_rebuild_tensor_v2] calls the metadata setter only for a
    non-empty map.  For [None] and for the empty map no setter call is
    made: the world is the one [_rebuild_tensor] leaves and the metadata
    bits are those of the tensor it built; for a non-empty map the setter
    is called once, with that map.  Whatever the metadata, the tensor that
    is returned has [requires_grad] and [_backward_hooks] from the
    arguments and is otherwise the one of [_rebuild_tensor].  The call
    returns exactly when [_rebuild_tensor] returns and the native setter
    of [requires_grad] accepts the flag; a failure of either is passed on
    unchanged, before any metadata is applied. *)
Theorem rebuild_tensor_v2_metadata_gate (storage : TypedStorage) (storage_offset : Z)
    (size stride : list Z) (requires_grad : bool) (backward_hooks : PyVal)
    (metadata : option (gmap string bool)) (w : World) :
  let base := _rebuild_tensor storage storage_offset size stride w in
  let out := _rebuild_tensor_v2 storage storage_offset size stride
               requires_grad backward_hooks metadata w in
  match fst base with
  | Raise e0 => out = (Raise e0, snd base)
  | Ok t0 =>
      match requires_grad_check (dtype storage) requires_grad with
      | Some e => out = (Raise e, snd base)
      | None =>
          exists t,
            fst out = Ok t
            /\ t_requires_grad t = requires_grad
            /\ t_backward_hooks t = backward_hooks
            /\ (t_dtype t, t_device t, t_storage t, t_storage_offset t,
                t_size t, t_stride t, t_quantizer t)
               = (t_dtype t0, t_device t0, t_storage t0, t_storage_offset t0,
                  t_size t0, t_stride t0, t_quantizer t0)
            /\ match metadata with
               | Some m =>
                   if bool_decide (m = ∅)
                   then snd out = snd base /\ t_metadata t = t_metadata t0
                   else _sparse_tensors_to_validate (snd out)
                        = _sparse_tensors_to_validate (snd base)
                        /\ native_calls (snd out)
                           = (native_calls (snd base)
                              ++ [call_set_tensor_metadata m])%list
                        /\ t_metadata t = m ∪ t_metadata t0
               | None => snd out = snd base /\ t_metadata t = t_metadata t0
               end
      end
  end.
Proof.
  intros base out. subst base out. rewrite _rebuild_tensor_v2_unfold.
  pose proof (_rebuild_tensor_outcome storage storage_offset size stride w) as Hbase.
  cbn zeta in Hbase.
  destruct (_rebuild_tensor storage storage_offset size stride w) as [[t0 | e] w'];
    [| reflexivity].
  cbn [fst snd].
  assert (Hdt : t_dtype t0 = dtype storage).
  { destruct (set__check (dtype storage) (_untyped_storage storage)
                storage_offset size stride); [discriminate |].
    injection Hbase as -> _. reflexivity. }
  rewrite Hdt.
  destruct (requires_grad_check (dtype storage) requires_grad); [reflexivity |].
  destruct metadata as [m |]; cbn [metadata_truthy default from_option id].
  - case_bool_decide as Hm; cbn [negb];
      (eexists; split; [reflexivity |]; cbn -[app union]; repeat split;
       by rewrite Hdt).
  - eexists. split; [reflexivity |]. cbn -[app union]. repeat split.
    by rewrite Hdt.
Qed.

End WithRuntime.
End DenseFacts.

(** ** Quantized rebuild *)

Module QuantizedFacts.
Section WithRuntime.
Context `{RT : TorchRuntime}.

(** C4. [_rebuild_qtensor] dispatches on the scheme tag.  For
    [per_tensor_affine] it allocates with the scalar scale and zero-point.
    For the two per-channel tags with list-typed scales and zero-points it
    first builds typed tensors on the storage's device: [double] scales and
    [long] zero-points, which hold the integer parts, for
    [per_channel_affine]; [float] scales and [float] zero-points for
    [per_channel_affine_float_qparams]; a number that its dtype cannot
    hold ends the call there.  Scales and zero-points that come as tensors
    are passed on as they are.  The allocated tensor is then bound to the
    storage by [set_] and gets [requires_grad], if the native setter
    accepts the flag, and [_backward_hooks].  For every other tag the call
    raises the [RuntimeError] "Can't deserialize quantized tensor with
    qscheme ..." before any native call. *)
Theorem rebuild_qtensor_dispatch (storage : TypedStorage) (storage_offset : Z)
    (size stride : list Z) (requires_grad : bool) (backward_hooks : PyVal)
    (w : World) :
  let dt := dtype storage in
  let dev := device storage in
  let st := _untyped_storage storage in
  let rebuild params :=
    _rebuild_qtensor storage storage_offset size stride params
      requires_grad backward_hooks w in
  let after (made : list Call) : World :=
    mkWorld (_sparse_tensors_to_validate w) (native_calls w ++ made)%list in
  let finish (q : Quantizer) (made : list Call) : Result Tensor * World :=
    let w' := after (made ++ [call_set_ st storage_offset size stride])%list in
    match set__check dt st storage_offset size stride with
    | Some e => (Raise e, w')
    | None =>
        match requires_grad_check dt requires_grad with
        | Some e => (Raise e, w')
        | None => (Ok (mkTensor dt dev st storage_offset size stride
                         requires_grad backward_hooks ∅ (Some q)), w')
        end
    end in
  let promoted (scale_dtype zero_point_dtype : Dtype) (scales zero_points : list Number)
      (axis : Number) : Result Tensor * World :=
    match first_refusal scale_dtype scales with
    | Some e => (Raise e, after [call_tensor_of_list scale_dtype dev])
    | None =>
        match first_refusal zero_point_dtype zero_points with
        | Some e => (Raise e, after [call_tensor_of_list scale_dtype dev;
                                     call_tensor_of_list zero_point_dtype dev])
        | None =>
            finish (PerChannelAffineQuantizer
                      (mkVec scale_dtype dev (map (element scale_dtype) scales))
                      (mkVec zero_point_dtype dev
                         (map (element zero_point_dtype) zero_points))
                      (number_to_int axis))
                   [call_tensor_of_list scale_dtype dev;
                    call_tensor_of_list zero_point_dtype dev;
                    call_empty_per_channel_affine_quantized dt dev]
        end
    end in
  (forall scale zero_point,
      rebuild (mkQParams per_tensor_affine [QNumber scale; QNumber zero_point])
      = finish (PerTensorAffineQuantizer scale (number_to_int zero_point))
               [call_empty_affine_quantized dt dev])
  /\ (forall scales zero_points axis,
      rebuild (mkQParams per_channel_affine
                 [QList scales; QList zero_points; QNumber axis])
      = promoted float64 int64 scales zero_points axis)
  /\ (forall scales zero_points axis,
      rebuild (mkQParams per_channel_affine_float_qparams
                 [QList scales; QList zero_points; QNumber axis])
      = promoted float32 float32 scales zero_points axis)
  /\ (forall x, element int64 x = QArith_base.inject_Z (number_to_int x))
  /\ (forall x, element float32 x = element_value float32 x)
  /\ (forall qscheme scales zero_points axis,
      member qscheme [per_channel_affine; per_channel_affine_float_qparams] = true ->
      rebuild (mkQParams qscheme [QTensor scales; QTensor zero_points; QNumber axis])
      = finish (PerChannelAffineQuantizer scales zero_points (number_to_int axis))
               [call_empty_per_channel_affine_quantized dt dev])
  /\ (forall qscheme rest,
      member qscheme
        [per_tensor_affine; per_channel_affine; per_channel_affine_float_qparams]
      = false ->
      rebuild (mkQParams qscheme rest)
      = (Raise (RuntimeError ("Can't deserialize quantized tensor with qscheme "
                              +:+ qscheme_str qscheme)), w)).
Proof.
  intros dt dev st rebuild after finish promoted.
  assert (Hrun : forall (q : Quantizer) (made : list Call) (w1 : World),
             w1 = after made ->
             bind (set_ (mkTensor dt dev (mkUntyped dev 0) 0 size
                           (contiguous_strides size) false VNone ∅ (Some q))
                        st storage_offset size stride)
                  (fun t => bind (set_requires_grad t requires_grad)
                              (fun t => ret (set_backward_hooks t backward_hooks))) w1
             = finish q made).
  { intros q made w1 ->. unfold bind at 1. rewrite DenseFacts.set__outcome.
    subst finish after. cbn -[app].
    rewrite <- app_assoc.
    destruct (set__check dt st storage_offset size stride); [reflexivity |].
    unfold bind, set_requires_grad, check. cbn -[app].
    destruct (requires_grad_check dt requires_grad); reflexivity. }
  assert (Hlist : forall (xs : list Number) (ty : Dtype) (w1 : World),
             tensor_of_list xs ty dev w1
             = let w2 := mkWorld (_sparse_tensors_to_validate w1)
                           (native_calls w1 ++ [call_tensor_of_list ty dev]) in
               match first_refusal ty xs with
               | Some e => (Raise e, w2)
               | None => (Ok (mkVec ty dev (map (element ty) xs)), w2)
               end).
  { intros xs ty w1. unfold tensor_of_list, bind, native, check.
    destruct (first_refusal ty xs); reflexivity. }
  assert (Hpromoted : forall qscheme sd zd scales zero_points axis,
             member qscheme [per_channel_affine; per_channel_affine_float_qparams] = true ->
             (sd, zd) = (if bool_decide (qscheme = per_channel_affine)
                         then (float64, int64) else (float32, float32)) ->
             rebuild (mkQParams qscheme [QList scales; QList zero_points; QNumber axis])
             = promoted sd zd scales zero_points axis).
  { intros qscheme sd zd scales zero_points axis Hq Hty.
    subst rebuild promoted finish after dt dev st. cbn beta zeta.
    destruct qscheme; try discriminate Hq; injection Hty as -> ->;
      unfold _rebuild_qtensor, tensor_of_list, _empty_per_channel_affine_quantized,
        arg_vec, arg_number, set_requires_grad, set_;
      py_run;
      (destruct (first_refusal _ scales); [reflexivity |]);
      (destruct (first_refusal _ zero_points);
       [cbn -[app]; by rewrite <- ?app_assoc |]);
      cbn -[app]; rewrite <- ?app_assoc; cbn -[app];
      (destruct (set__check _ _ _ _ _); [reflexivity |]);
      (destruct (requires_grad_check _ _); reflexivity). }
  subst rebuild. repeat split.
  - intros scale zero_point. rewrite <- (Hrun _ _ _ eq_refl). reflexivity.
  - intros scales zero_points axis. by apply Hpromoted.
  - intros scales zero_points axis. by apply Hpromoted.
  - intros qscheme scales zero_points axis Hq.
    rewrite <- (Hrun _ _ _ eq_refl).
    unfold _rebuild_qtensor. cbn [qp_scheme qp_rest].
    assert (Hnot : bool_decide (qscheme = per_tensor_affine) = false).
    { destruct qscheme; try reflexivity; discriminate. }
    rewrite Hnot, Hq. reflexivity.
  - intros qscheme rest Hq. destruct qscheme; try discriminate; reflexivity.
Qed.

End WithRuntime.
End QuantizedFacts.

(** ** Parameter state *)

Module ParamFacts.
Section WithObjects.
Context `{OM : ObjectModel}.

(** The loop over [xs ++ ys] is the loop over [xs], then, unless it
    raised, the loop over [ys]. *)
Lemma setattr_all_app (xs ys : list (string * PyVal)) (obj : NNParameter) :
  setattr_all obj (xs ++ ys)
  = match setattr_all obj xs with
    | (Ok _, obj') => setattr_all obj' ys
    | (Raise e, obj') => (Raise e, obj')
    end.
Proof.
  revert obj. induction xs as [| [k v] rest IH]; intros obj; [reflexivity |].
  cbn [app setattr_all].
  destruct (setattr obj k v) as [[[] | e] obj']; [apply IH | reflexivity].
Qed.

(** On ordinary attributes the loop assigns key by key: it returns, an
    attribute then holds the value of the last item naming it and is
    untouched when no item names it, and the tensor is the same. *)
Lemma setattr_all_plain (items : list (string * PyVal)) (obj : NNParameter) :
  Forall (fun kv => plain kv.1) items ->
  exists obj',
    setattr_all obj items = (Ok tt, obj')
    /\ p_data obj' = p_data obj
    /\ forall k, p_attrs obj' !! k
                 = match last_binding k items with
                   | Some v => Some v
                   | None => p_attrs obj !! k
                   end.
Proof.
  revert obj. induction items as [| [k' v] rest IH]; intros obj Hplain.
  { exists obj. repeat split. }
  apply Forall_cons in Hplain as [Hk Hrest]. cbn [fst] in Hk.
  cbn [setattr_all]. rewrite Hk.
  destruct (IH (store obj k' v) Hrest) as (obj' & Hrun & Hdata & Hattrs).
  exists obj'. split; [exact Hrun |]. split; [exact Hdata |].
  intros k. rewrite Hattrs. cbn [last_binding].
  destruct (last_binding k rest); [reflexivity |].
  cbn [store p_attrs]. destruct (String.eqb_spec k' k) as [-> | Hne].
  - apply lookup_insert_eq.
  - by apply lookup_insert_ne.
Qed.

Lemma replay_dict (obj : NNParameter) (d : list (string * PyVal)) :
  replay obj (VDict d) = setattr_all obj d.
Proof. destruct d; reflexivity. Qed.

(** C8. [_set_obj_state] replays the state blob.  A plain attribute map
    is applied key by key, by the loop of [setattr] calls over its items;
    a pair of an attribute map and a slot map is split and each is applied
    key by key, attributes first.  An assignment that the class of the
    object refuses ends the replay with its exception; on ordinary
    attributes the replay returns and every key holds the value of its
    last item.  A tuple whose length is not 2 raises the [RuntimeError]
    "Invalid serialized state" and leaves the object as it was.
    [_rebuild_parameter_with_state] does this on the parameter that
    [_rebuild_parameter] builds. *)
Theorem set_obj_state_replays (obj : NNParameter) (d s : list (string * PyVal))
    (items : list PyVal)
    (data : Tensor) (requires_grad : bool) (backward_hooks : PyVal) :
  let invalid := RuntimeError ("Invalid serialized state: " +:+ val_repr (VTuple items)) in
  let on_built (state : PyVal) : Result NNParameter :=
    match _rebuild_parameter data requires_grad backward_hooks with
    | Raise e => Raise e
    | Ok param =>
        match _set_obj_state param state with
        | (Raise e, _) => Raise e
        | (Ok _, param) => Ok param
        end
    end in
  _set_obj_state obj (VDict d) = setattr_all obj d
  /\ _set_obj_state obj (VTuple [VDict d; VDict s]) = setattr_all obj (d ++ s)
  /\ (Forall (fun kv => plain kv.1) (d ++ s) ->
      exists obj',
        setattr_all obj (d ++ s) = (Ok tt, obj')
        /\ p_data obj' = p_data obj
        /\ forall k, p_attrs obj' !! k
                     = match last_binding k (d ++ s) with
                       | Some v => Some v
                       | None => p_attrs obj !! k
                       end)
  /\ (forall before k v rest obj1 e obj2,
        (d ++ s)%list = (before ++ (k, v) :: rest)%list ->
        setattr_all obj before = (Ok tt, obj1) ->
        setattr obj1 k v = (Raise e, obj2) ->
        setattr_all obj (d ++ s) = (Raise e, obj2))
  /\ (length items <> 2%nat ->
      _set_obj_state obj (VTuple items) = (Raise invalid, obj)
      /\ _rebuild_parameter_with_state data requires_grad backward_hooks (VTuple items)
         = match _rebuild_parameter data requires_grad backward_hooks with
           | Raise e => Raise e
           | Ok _ => Raise invalid
           end)
  /\ (forall state,
        _rebuild_parameter_with_state data requires_grad backward_hooks state
        = on_built state).
Proof.
  intros invalid on_built.
  assert (Hdict : forall o, _set_obj_state o (VDict d) = setattr_all o d).
  { intros o. unfold _set_obj_state. rewrite replay_dict.
    destruct (setattr_all o d) as [[[] | e] o']; reflexivity. }
  assert (Hbuilt : forall state,
             _rebuild_parameter_with_state data requires_grad backward_hooks state
             = on_built state).
  { intros state. subst on_built.
    unfold _rebuild_parameter_with_state, _rebuild_parameter.
    destruct (new_Parameter data requires_grad) as [param | e]; [| reflexivity].
    destruct (setattr param "_backward_hooks" backward_hooks) as [[[] | e] param'];
      reflexivity. }
  split; [apply Hdict |]. split.
  { unfold _set_obj_state. rewrite replay_dict, setattr_all_app.
    destruct (setattr_all obj d) as [[[] | e] o']; [apply replay_dict | reflexivity]. }
  split; [apply setattr_all_plain |]. split.
  { intros before k v rest obj1 e obj2 -> Hbefore Hk.
    rewrite setattr_all_app, Hbefore. cbn [setattr_all]. by rewrite Hk. }
  split; [| exact Hbuilt].
  intros Hlen.
  assert (Hset : forall o, _set_obj_state o (VTuple items) = (Raise invalid, o)).
  { intros o. destruct items as [| x [| y [| z rest]]]; cbn [length] in Hlen;
      try lia; reflexivity. }
  split; [apply Hset |].
  rewrite Hbuilt. subst on_built. cbn beta.
  destruct (_rebuild_parameter data requires_grad backward_hooks); [| reflexivity].
  by rewrite Hset.
Qed.

End WithObjects.

(** On the sample class: an attribute map and a slot map of ordinary
    attributes are both applied. *)
Lemma set_obj_state_replays_witness :
  let OM := Sample.sample_objects in
  let obj := mkParameter Sample.float_tensor ∅ in
  exists obj',
    setattr_all obj ([("label", VStr "w")] ++ [("tag", VInt 7)]) = (Ok tt, obj')
    /\ p_data obj' = p_data obj
    /\ forall k, p_attrs obj' !! k
                 = match last_binding k ([("label", VStr "w")] ++ [("tag", VInt 7)]) with
                   | Some v => Some v
                   | None => p_attrs obj !! k
                   end.
Proof.
  apply (proj1 (proj2 (proj2
           (@set_obj_state_replays Sample.sample_objects
              (mkParameter Sample.float_tensor ∅)
              [("label", VStr "w")] [("tag", VInt 7)] []
              Sample.float_tensor true (VDict []))))).
  repeat constructor.
Defined.

End ParamFacts.

(** ** Strings and their [repr] *)

Module ReprFacts.

Lemma length_append (a b : string) :
  String.length (a +:+ b) = (String.length a + String.length b)%nat.
Proof. induction a as [| c a IH]; simpl; [reflexivity | by rewrite IH]. Qed.

Lemma contains_char_append (c : ascii) (a b : string) :
  contains_char c (a +:+ b) = contains_char c a || contains_char c b.
Proof.
  induction a as [| d a IH]; simpl; [reflexivity |].
  rewrite IH. apply orb_assoc.
Qed.

Lemma escape_char_nonempty (q c : ascii) :
  (1 <= String.length (escape_char q c))%nat.
Proof.
  unfold escape_char.
  repeat match goal with
         | |- context [if ?b then _ else _] => destruct b
         end; cbn; lia.
Qed.

Lemma escape_all_length (q : ascii) (s : string) :
  (String.length s <= String.length (escape_all q s))%nat.
Proof.
  induction s as [| c s IH]; [cbn; lia |].
  cbn [escape_all String.length].
  rewrite length_append. pose proof (escape_char_nonempty q c). lia.
Qed.

(** The [repr] of a string is at least two characters longer than the
    string: it is never the string itself. *)
Lemma str_repr_longer (s : string) :
  (String.length s + 2 <= String.length (str_repr s))%nat.
Proof.
  unfold str_repr. cbn [String.length]. rewrite length_append. cbn [String.length].
  pose proof (escape_all_length (repr_quote s) s). lia.
Qed.

Lemma str_repr_differs (s : string) : str_repr s <> s.
Proof.
  intros H. pose proof (str_repr_longer s) as Hlen. rewrite H in Hlen. lia.
Qed.

Lemma repr_quote_cases (s : string) :
  repr_quote s = single_quote \/ repr_quote s = double_quote.
Proof. unfold repr_quote. destruct (_ && _); auto. Qed.

(** No escaped character contains a raw newline. *)
Lemma escape_char_single_line (q c : ascii) :
  q = single_quote \/ q = double_quote ->
  contains_char newline (escape_char q c) = false.
Proof.
  intros [-> | ->];
    destruct c as [[] [] [] [] [] [] [] []]; vm_compute; reflexivity.
Qed.

Lemma escape_all_single_line (q : ascii) (s : string) :
  q = single_quote \/ q = double_quote ->
  contains_char newline (escape_all q s) = false.
Proof.
  intros Hq. induction s as [| c s IH]; [reflexivity |].
  cbn [escape_all].
  rewrite contains_char_append, IH, escape_char_single_line by exact Hq.
  reflexivity.
Qed.

(** [repr] puts a multi-line text on one line. *)
Lemma str_repr_single_line (s : string) :
  contains_char newline (str_repr s) = false.
Proof.
  pose proof (repr_quote_cases s) as Hq. unfold str_repr.
  cbn [contains_char]. rewrite contains_char_append, escape_all_single_line by exact Hq.
  destruct Hq as [-> | ->]; reflexivity.
Qed.

Lemma composite_multi_line (name label trace : string) :
  contains_char newline (composite name label trace) = true.
Proof.
  unfold composite. rewrite !contains_char_append.
  cbn [contains_char]. replace (Ascii.eqb newline newline) with true by reflexivity.
  cbn [orb]. rewrite !orb_true_r. reflexivity.
Qed.

End ReprFacts.

(** ** [ExceptionWrapper.reraise] *)

Module WrapperFacts.
Import Sample.
#[local] Existing Instance sample_traceback.

(** Every path through [reraise] ends in a [raise]. *)
Lemma reraise_raises (w : ExceptionWrapper) : exists e, reraise w = Raise e.
Proof.
  unfold reraise, instantiate_and_raise.
  destruct (exc_type w) as [ty |]; [| eauto].
  destruct (is_KeyError ty).
  - destruct (call ty _) as [e | e]; [eauto |].
    destruct (isinstance e "TypeError"); eauto.
  - destruct (truthy (getattr_message ty)).
    + destruct (call ty _); eauto.
    + destruct (call ty _) as [e | e]; [eauto |].
      destruct (isinstance e "TypeError"); eauto.
Qed.

(** C3, as stated, fails: for a class whose constructor builds its own
    text from the argument, the raised error shows that text and not the
    composite message. *)
Lemma reraise_message_rewritten_by_constructor :
  exists e,
    reraise (mkWrapper (Some (OtherClass NotFound_class))
               "Traceback (most recent call last): ..." "in worker 3")
    = Raise e
    /\ exc_text e
       <> composite "NotFound" "in worker 3" "Traceback (most recent call last): ...".
Proof. eexists. split; [reflexivity |]. vm_compute. discriminate. Qed.

(** C3, amended. [reraise] never returns normally.  For a snapshot of
    kind [ty] with trace text [trace] and label [label], when [ty] carries
    the message it is constructed with, the raised error's message is
    exactly "Caught <name> <label>.\nOriginal <trace>", the trace text
    verbatim at the end. *)
Theorem reraise_message_shape (ty : ExcType) (trace label : string) :
  let w := mkWrapper (Some ty) trace label in
  let msg := "Caught " +:+ name_of ty +:+ " " +:+ label +:+ "."
             +:+ String newline "Original " +:+ trace in
  (forall w' : ExceptionWrapper, exists e, reraise w' = Raise e)
  /\ (carries_message ty msg ->
      exists e, reraise w = Raise e /\ exc_text e = msg).
Proof.
  intros w msg. split; [apply reraise_raises |].
  intros Hc. subst w. unfold reraise. cbn [exc_type where_ exc_msg].
  change (composite (name_of ty) label trace) with msg.
  destruct ty as [| c].
  - eexists. split; reflexivity.
  - cbn [is_KeyError getattr_message call] in *. cbn [carries_message] in Hc.
    destruct (truthy (cls_message c)).
    + destruct Hc as (e & -> & Htext). eauto.
    + unfold instantiate_and_raise. cbn [call].
      destruct Hc as [(e & -> & Htext) | (e & -> & Hty)]; [eauto |].
      rewrite Hty. eexists. split; reflexivity.
Qed.

Lemma reraise_message_shape_witness :
  exists e,
    reraise (mkWrapper (Some (OtherClass ValueError_class))
               (join (format_exception worker_heap worker_exc_info)) "in worker 3")
    = Raise e
    /\ exc_text e
       = "Caught ValueError in worker 3." +:+ String newline "Original "
         +:+ join (format_exception worker_heap worker_exc_info).
Proof.
  apply (proj2 (reraise_message_shape (OtherClass ValueError_class)
                  (join (format_exception worker_heap worker_exc_info)) "in worker 3")).
  left. eexists. split; reflexivity.
Defined.

(** C5, as stated, fails: a class that cannot be built from the message
    as its sole argument but exposes a [message] attribute is raised
    through [message=], not replaced by a [RuntimeError]. *)
Lemma reraise_no_fallback_with_message_attribute :
  (exists e', cls_call RemoteError_class
                (Positional (Str (composite "RemoteError" "in worker 3" "Traceback ...")))
              = Raise e'
              /\ isinstance e' "TypeError" = true)
  /\ exists e,
       reraise (mkWrapper (Some (OtherClass RemoteError_class))
                  "Traceback ..." "in worker 3") = Raise e
       /\ exc_class e = "RemoteError"
       /\ exc_class e <> "RuntimeError".
Proof.
  split.
  - eexists. split; reflexivity.
  - eexists. split; [reflexivity |]. split; [reflexivity | discriminate].
Qed.

(** C5, amended. For a snapshot whose kind exposes no truthy [message]
    attribute and whose construction from the composite message as sole
    argument raises a [TypeError], [reraise] raises a [RuntimeError]
    carrying the composite message; the [TypeError] is not raised, is not
    the cause, and is suppressed from the chain a traceback shows. *)
Theorem reraise_arity_fallback (c : ClassDesc) (trace label : string) (e' : Exc) :
  let msg := composite (cls_name c) label trace in
  truthy (cls_message c) = false ->
  cls_call c (Positional (Str msg)) = Raise e' ->
  isinstance e' "TypeError" = true ->
  exists e,
    reraise (mkWrapper (Some (OtherClass c)) trace label) = Raise e
    /\ exc_class e = "RuntimeError"
    /\ exc_args e = [Str msg]
    /\ exc_text e = msg
    /\ exc_cause e = None
    /\ exc_suppress_context e = true
    /\ chained e = None.
Proof.
  intros msg Hattr Hcall Hty.
  unfold reraise, instantiate_and_raise.
  cbn [exc_type where_ exc_msg is_KeyError getattr_message call name_of].
  rewrite Hattr. fold msg. rewrite Hcall, Hty.
  eexists. split; [reflexivity |]. repeat split.
Qed.

Lemma reraise_arity_fallback_witness :
  exists e,
    reraise (mkWrapper (Some (OtherClass CodedError_class)) "Traceback ..." "in worker 3")
    = Raise e
    /\ exc_class e = "RuntimeError"
    /\ exc_args e = [Str (composite "CodedError" "in worker 3" "Traceback ...")]
    /\ exc_text e = composite "CodedError" "in worker 3" "Traceback ..."
    /\ exc_cause e = None
    /\ exc_suppress_context e = true
    /\ chained e = None.
Proof.
  apply (reraise_arity_fallback CodedError_class "Traceback ..." "in worker 3"
           (TypeError "CodedError.__init__() missing 1 required positional argument: 'detail'"));
    reflexivity.
Defined.

(** C6. For a snapshot of kind [KeyError], [reraise] raises a [KeyError]
    whose sole argument is the composite message as a [KeyErrorMessage].
    The [repr] of that argument is the message itself, so the error shows
    the multi-line text as it is.  The same [KeyError] built from the
    plain string shows the [repr] of the string: a different text, quoted
    and on a single line. *)
Theorem reraise_KeyError_plain_text (trace label : string) :
  let msg := composite "KeyError" label trace in
  reraise (mkWrapper (Some KeyError) trace label)
  = Raise (mkExc "KeyError" lookup_bases [KeyErrorMessage msg] msg None None false)
  /\ repr (KeyErrorMessage msg) = msg
  /\ str_value (KeyErrorMessage msg) = msg
  /\ contains_char newline msg = true
  /\ KeyError_call (Positional (Str msg))
     = Ok (mkExc "KeyError" lookup_bases [Str msg] (str_repr msg) None None false)
  /\ str_repr msg <> msg
  /\ contains_char newline (str_repr msg) = false.
Proof.
  intros msg. repeat split.
  - apply ReprFacts.composite_multi_line.
  - apply ReprFacts.str_repr_differs.
  - apply ReprFacts.str_repr_single_line.
Qed.

End WrapperFacts.

(** ** [ExceptionWrapper.__init__] *)

Module CaptureFacts.
Import Sample.

Section WithTraceback.
Context `{TB : Traceback}.

(** The attributes of a fresh wrapper, one by one. *)
Lemma init_attributes (h : Heap) (current : ExcInfo) (exc_info : option ExcInfo)
    (label : string) (k : string) :
  __init__ h current exc_info label !! k
  = if String.eqb k "where" then Some (AStr label)
    else if String.eqb k "exc_msg"
         then Some (AStr (join (format_exception h (resolve current exc_info))))
         else if String.eqb k "exc_type"
              then Some (exc_info_type (resolve current exc_info))
              else None.
Proof.
  unfold __init__. fold (resolve current exc_info).
  destruct (String.eqb_spec k "where") as [-> | H1]; [apply lookup_insert_eq |].
  rewrite lookup_insert_ne by congruence.
  destruct (String.eqb_spec k "exc_msg") as [-> | H2]; [apply lookup_insert_eq |].
  rewrite lookup_insert_ne by congruence.
  destruct (String.eqb_spec k "exc_type") as [-> | H3]; [apply lookup_insert_eq |].
  rewrite lookup_insert_ne by congruence. apply lookup_empty.
Qed.

(** C9. [__init__] renders the trace from the live objects at the moment
    of the call and stores the class, that string and the label, nothing
    else: the wrapper has these three attributes and none of them refers
    to a live object.  Whatever is done to the error and traceback objects
    afterwards (overwritten, discarded), all that can be read through the
    wrapper is the same: its [exc_msg] is the rendering made at capture
    time, and [reraise] works on the same three values. *)
Theorem capture_snapshot_is_independent (h : Heap) (current : ExcInfo)
    (exc_info : option ExcInfo) (label : string) (ms : list Mutation) :
  let info := resolve current exc_info in
  let rendered := join (format_exception h info) in
  let self := __init__ h current exc_info label in
  let later := mutate h ms in
  dom self = ({[ "exc_type"; "exc_msg"; "where" ]} : gset string)
  /\ (forall l, ~ refers_to self l)
  /\ view later self = view h self
  /\ view later self !! "exc_msg" = Some (SStr rendered)
  /\ wrapper_of later self
     = Some (mkWrapper (option_map (fun i => i.1.1) info) rendered label).
Proof.
  intros info rendered self later.
  assert (Hview : forall h' k,
             view h' self !! k
             = if String.eqb k "where" then Some (SStr label)
               else if String.eqb k "exc_msg" then Some (SStr rendered)
                    else if String.eqb k "exc_type"
                         then Some (read h' (exc_info_type info))
                         else None).
  { intros h' k. unfold view. rewrite lookup_fmap. subst self.
    rewrite init_attributes. fold info. fold rendered.
    repeat (destruct (String.eqb k _); [reflexivity |]). reflexivity. }
  assert (Hty : forall h', read h' (exc_info_type info)
                           = match info with
                             | Some i => SClass i.1.1
                             | None => SNone
                             end).
  { intros h'. destruct info; reflexivity. }
  split; [| split; [| split; [| split]]].
  - subst self. unfold __init__. rewrite !dom_insert_L, dom_empty_L. set_solver.
  - intros l [k Hk]. subst self. rewrite init_attributes in Hk.
    repeat (destruct (String.eqb k _); [discriminate Hk || (injection Hk as Hk) |]);
      try discriminate.
    destruct (resolve current exc_info); discriminate.
  - apply map_eq. intros k. rewrite !Hview, !Hty. reflexivity.
  - apply Hview.
  - unfold wrapper_of. rewrite !Hview, Hty. cbn [String.eqb Ascii.eqb Bool.eqb].
    destruct info; reflexivity.
Qed.

End WithTraceback.

#[local] Existing Instance sample_traceback.

(** The live objects do change: rendering them again after the mutation
    gives another text, while the wrapper still shows the first one. *)
Example snapshot_outlives_the_error :
  let ms := [Overwrite 1%positive (HException "overwritten"); Discard 2%positive] in
  let self := __init__ worker_heap None (Some worker_exc_info) "in worker 3" in
  let later := mutate worker_heap ms in
  view later self !! "exc_msg"
  = Some (SStr (lines ["Traceback (most recent call last):";
                       "  File " +:+ quoted "worker.py" +:+ ", line 12, in _worker_loop";
                       "    data = fetcher.fetch(index)";
                       "  File " +:+ quoted "fetch.py" +:+ ", line 40, in fetch";
                       "    raise ValueError(index)";
                       "ValueError: bad index 7"]))
  /\ join (format_exception later worker_exc_info)
     = lines ["ValueError: overwritten"].
Proof.
  split; [| vm_compute; reflexivity].
  cbv zeta.
  rewrite (proj1 (proj2 (proj2 (proj2
             (capture_snapshot_is_independent worker_heap None (Some worker_exc_info)
                "in worker 3" _))))).
  vm_compute. reflexivity.
Qed.

Example capture_outside_handler :
  wrapper_of worker_heap (__init__ worker_heap None None "in background")
  = Some (mkWrapper None ("NoneType: None" +:+ String newline "") "in background").
Proof.
  rewrite (proj2 (proj2 (proj2 (proj2
             (capture_snapshot_is_independent worker_heap None None
                "in background" []))))).
  reflexivity.
Qed.

End CaptureFacts.

(** ** Runs on the sample runtime *)

Module SampleRuns.
Import Sample.
#[local] Existing Instance sample_runtime.
#[local] Existing Instance sample_objects.

Example rebuild_bad_coo_succeeds :
  fst (_rebuild_sparse_tensor sparse_coo bad_coo_data initial_world)
  = Ok (mkSparse sparse_coo bad_indices no_data one_value [2; 2] false).
Proof. reflexivity. Qed.

Example drain_bad_coo_raises :
  let w := snd (_rebuild_sparse_tensor sparse_coo bad_coo_data initial_world) in
  _validate_loaded_sparse_tensors w
  = (Raise (RuntimeError "size is inconsistent with indices"),
     mkWorld [] [call_sparse_coo_tensor false; call_validate_sparse_coo_tensor_args]).
Proof. reflexivity. Qed.

Example drain_good_coo_returns :
  let w := snd (_rebuild_sparse_tensor sparse_coo good_coo_data initial_world) in
  _validate_loaded_sparse_tensors w
  = (Ok tt,
     mkWorld [] [call_sparse_coo_tensor false; call_validate_sparse_coo_tensor_args]).
Proof. reflexivity. Qed.

Example rebuild_tensor_fits :
  fst (_rebuild_tensor float_storage 0 [2; 3] [3; 1] initial_world)
  = Ok (mkTensor float32 cpu (mkUntyped cpu 24) 0 [2; 3] [3; 1] false VNone ∅ None).
Proof. reflexivity. Qed.

Example rebuild_tensor_too_large :
  fst (_rebuild_tensor float_storage 1 [2; 3] [3; 1] initial_world)
  = Raise (RuntimeError "setStorage: sizes and strides are out of bounds for storage").
Proof. reflexivity. Qed.

Example drain_bad_csr_raises :
  let w := snd (_rebuild_sparse_tensor sparse_csr bad_csr_data initial_world) in
  _validate_loaded_sparse_tensors w
  = (Raise (RuntimeError "plain indices out of bounds"),
     mkWorld [] [call_sparse_compressed_tensor sparse_csr false;
                 call_validate_sparse_compressed_tensor_args sparse_csr]).
Proof. reflexivity. Qed.

Example rebuild_strided_not_implemented :
  _rebuild_sparse_tensor strided bad_coo_data initial_world
  = (Raise (NotImplementedError "rebuilding sparse tensor for layout torch.strided"),
     initial_world).
Proof. reflexivity. Qed.

Example rebuild_qtensor_symmetric_unsupported :
  fst (_rebuild_qtensor (mkTyped quint8 (mkUntyped cpu 6)) 0 [2; 3] [3; 1]
         (mkQParams per_channel_symmetric []) false (VDict []) initial_world)
  = Raise (RuntimeError
             "Can't deserialize quantized tensor with qscheme torch.per_channel_symmetric").
Proof. reflexivity. Qed.

(** The zero-points of the plain per-channel scheme become integers. *)
Example rebuild_qtensor_per_channel :
  fst (_rebuild_qtensor (mkTyped quint8 (mkUntyped cpu 6)) 0 [2; 3] [3; 1]
         (mkQParams per_channel_affine
            [QList [QArith_base.Qmake 1 2; QArith_base.Qmake 1 4];
             QList [QArith_base.Qmake 1 2; QArith_base.Qmake 37 10];
             QNumber (QArith_base.Qmake 0 1)])
         false (VDict []) initial_world)
  = Ok (mkTensor quint8 cpu (mkUntyped cpu 6) 0 [2; 3] [3; 1] false (VDict []) ∅
          (Some (PerChannelAffineQuantizer
                   (mkVec float64 cpu [QArith_base.Qmake 1 2; QArith_base.Qmake 1 4])
                   (mkVec int64 cpu [QArith_base.Qmake 0 1; QArith_base.Qmake 3 1])
                   0))).
Proof. vm_compute. reflexivity. Qed.

(** A quantized tensor cannot require a gradient. *)
Example rebuild_qtensor_requires_grad_refused :
  fst (_rebuild_qtensor (mkTyped quint8 (mkUntyped cpu 6)) 0 [2; 3] [3; 1]
         (mkQParams per_tensor_affine
            [QNumber (QArith_base.Qmake 1 10); QNumber (QArith_base.Qmake 0 1)])
         true (VDict []) initial_world)
  = Raise (RuntimeError
             "only Tensors of floating point and complex dtype can require gradients").
Proof. vm_compute. reflexivity. Qed.

Example rebuild_tensor_v2_long_requires_grad_refused :
  fst (_rebuild_tensor_v2 (mkTyped int64 (mkUntyped cpu 48)) 0 [2; 3] [3; 1]
         true (VDict []) None initial_world)
  = Raise (RuntimeError
             "only Tensors of floating point and complex dtype can require gradients").
Proof. vm_compute. reflexivity. Qed.

Example set_obj_state_triple_rejected :
  _rebuild_parameter_with_state float_tensor true (VDict [])
    (VTuple [VNone; VNone; VInt 3])
  = Raise (RuntimeError "Invalid serialized state: (None, None, 3)").
Proof. vm_compute. reflexivity. Qed.

(** The replay ends at the attribute that the class refuses; the one
    before it has been assigned. *)
Example set_obj_state_read_only_attribute :
  _set_obj_state (mkParameter float_tensor ∅)
    (VDict [("label", VStr "w"); ("checksum", VInt 1); ("tag", VInt 7)])
  = (Raise (AttributeError "can't set attribute 'checksum'"),
     mkParameter float_tensor {[ "label" := VStr "w" ]}).
Proof. reflexivity. Qed.

Example reraise_ValueError :
  reraise (mkWrapper (Some (OtherClass ValueError_class)) "Traceback ..." "in worker 3")
  = Raise (Py.ValueError
             ("Caught ValueError in worker 3." +:+ String newline "Original Traceback ...")).
Proof. reflexivity. Qed.

(** Only [KeyError] itself gets the [KeyErrorMessage] treatment: a
    subclass compares unequal and its message goes through [repr]. *)
Example reraise_KeyError_subclass :
  reraise (mkWrapper (Some (OtherClass MissingKey_class)) "Traceback ..." "in worker 3")
  = Raise (mkExc "MissingKey" ("KeyError" :: lookup_bases)
             [Str (composite "MissingKey" "in worker 3" "Traceback ...")]
             ("'Caught MissingKey in worker 3.\nOriginal Traceback ...'")
             None None false).
Proof. reflexivity. Qed.

End SampleRuns.

(** * Further properties *)

(** ** [_accumulate] *)

Module AccumulateFacts.
Section WithElement.
Context {A : Type}.
Implicit Types (fn : A -> A -> Result A) (xs it : list A).

Lemma accumulate_rest_lookup fn it (total : A) (i : nat) (v : A) :
  (accumulate_rest fn total it).1 !! i = Some v
  <-> (i < length it)%nat /\ reduce_from fn total (take (S i) it) = Ok v.
Proof.
  revert total i. induction it as [| element it IH]; intros total i.
  { cbn. split; [intros H; discriminate | intros [H _]; lia]. }
  cbn [accumulate_rest reduce_from take length].
  destruct (fn total element) as [total' | e].
  - destruct (accumulate_rest fn total' it) as [yielded exc] eqn:E.
    destruct i as [| i]; cbn [fst lookup list_lookup].
    + destruct it; cbn; (split; [intros [= ->]; split; [lia | reflexivity]
                               | intros [_ [= ->]]; reflexivity]).
    + specialize (IH total' i). rewrite E in IH. cbn [fst] in IH.
      change ((total' :: yielded) !! S i) with (yielded !! i).
      rewrite IH. split; intros [H1 H2]; (split; [lia | exact H2]).
  - cbn. split; [intros H; discriminate | intros [_ H]; discriminate].
Qed.

Lemma accumulate_rest_exception fn it (total : A) :
  (accumulate_rest fn total it).2
  = match reduce_from fn total it with
    | Raise e => Some (leaves_generator e)
    | Ok _ => None
    end.
Proof.
  revert total. induction it as [| element it IH]; intros total; [reflexivity |].
  cbn [accumulate_rest reduce_from].
  destruct (fn total element) as [total' | e]; [| reflexivity].
  specialize (IH total').
  destruct (accumulate_rest fn total' it) as [yielded exc]. exact IH.
Qed.

(** X1. The [i]-th value that [_accumulate] yields is the left fold of
    [fn] over the first [i + 1] elements, and it is yielded exactly when
    that fold raises nothing.  The generator ends with the first exception
    of [fn], except that a [StopIteration] from [fn] reaches the caller as
    the [RuntimeError] "generator raised StopIteration" with the
    [StopIteration] as its cause; it ends with no exception when the whole
    fold succeeds.  An empty iterable yields nothing. *)
Theorem accumulate_yields_prefix_folds fn xs :
  (forall (i : nat) (v : A),
      (_accumulate xs fn).1 !! i = Some v
      <-> (i < length xs)%nat /\ reduce fn (take (S i) xs) = Some (Ok v))
  /\ (_accumulate xs fn).2
     = match reduce fn xs with
       | Some (Raise e) =>
           if isinstance e "StopIteration"
           then Some (mkExc "RuntimeError" ["Exception"; "BaseException"]
                        [Str "generator raised StopIteration"]
                        "generator raised StopIteration"
                        (Some (summary e)) (Some (summary e)) true)
           else Some e
       | _ => None
       end
  /\ _accumulate [] fn = ([], None).
Proof.
  split; [| split; [| reflexivity]].
  - intros i v. destruct xs as [| total it].
    { cbn. split; [intros H; discriminate | intros [H _]; lia]. }
    unfold _accumulate.
    destruct (accumulate_rest fn total it) as [yielded exc] eqn:E.
    cbn [fst reduce take length]. destruct i as [| i].
    + cbn. split; [intros [= ->]; split; [lia | reflexivity]
                  | intros [_ [= ->]]; reflexivity].
    + change ((total :: yielded) !! S i) with (yielded !! i).
      pose proof (accumulate_rest_lookup fn it total i v) as H.
      rewrite E in H. cbn [fst] in H. rewrite H.
      split; intros [H1 H2].
      * split; [lia | by rewrite H2].
      * split; [lia | by injection H2 as ->].
  - destruct xs as [| total it]; [reflexivity |].
    unfold _accumulate. pose proof (accumulate_rest_exception fn it total) as H.
    destruct (accumulate_rest fn total it) as [yielded exc]. cbn [snd reduce] in *.
    rewrite H. destruct (reduce_from fn total it) as [v | e]; [reflexivity |].
    unfold leaves_generator. destruct (isinstance e "StopIteration"); reflexivity.
Qed.

End WithElement.

Lemma accumulate_rest_add (it : list Z) (total : Z) :
  accumulate_rest add total it
  = (map (fun i => total + sum (take (S i) it)) (seq 0 (length it)), None).
Proof.
  revert total. induction it as [| x it IH]; intros total; [reflexivity |].
  cbn [accumulate_rest add length seq map]. rewrite IH.
  f_equal. f_equal.
  - unfold sum. simpl. lia.
  - rewrite <- seq_shift, map_map. apply map_ext. intros i.
    unfold sum. simpl. lia.
Qed.

(** X2. With the default [fn] on integers, [_accumulate] yields the
    running sums: one value per element, the [i]-th being the sum of the
    first [i + 1] elements, so the last one is the sum of all. *)
Theorem accumulate_default_running_sums (xs : list Z) :
  _accumulate xs add
  = (map (fun i => sum (take (S i) xs)) (seq 0 (length xs)), None)
  /\ length (_accumulate xs add).1 = length xs
  /\ last (_accumulate xs add).1
     = match xs with
       | [] => None
       | _ => Some (sum xs)
       end.
Proof.
  assert (H : _accumulate xs add
              = (map (fun i => sum (take (S i) xs)) (seq 0 (length xs)), None)).
  { destruct xs as [| x it]; [reflexivity |].
    unfold _accumulate. rewrite accumulate_rest_add.
    cbn [length seq map]. f_equal. f_equal.
    - unfold sum. simpl. lia.
    - rewrite <- seq_shift, map_map. apply map_ext. intros i. reflexivity. }
  split; [exact H |]. rewrite H. cbn [fst].
  split; [by rewrite length_map, length_seq |].
  destruct xs as [| x it]; [reflexivity |].
  cbn [length]. rewrite seq_S, map_app. cbn [map]. rewrite last_snoc.
  cbn [Nat.add]. f_equal. f_equal. apply (firstn_all (x :: it)).
Qed.

Example accumulate_docstring_sum :
  _accumulate [1; 2; 3; 4; 5] add = ([1; 3; 6; 10; 15], None).
Proof. reflexivity. Qed.

(** A [StopIteration] raised by [fn] does not end the generator
    silently. *)
Example accumulate_fn_raises_StopIteration :
  _accumulate [1; 2; 3]
    (fun x y => if Z.eqb y 3 then Raise StopIteration else Ok (x + y))
  = ([1; 3], Some (generator_raised_StopIteration StopIteration)).
Proof. reflexivity. Qed.

Example accumulate_docstring_product :
  _accumulate [1; 2; 3; 4; 5] (fun x y => Ok (x * y)) = ([1; 2; 6; 24; 120], None).
Proof. reflexivity. Qed.

End AccumulateFacts.

(** ** [_take_tensors] and [_reorder_tensors_as] *)

Module ChunkFacts.

(** *** The insertion-ordered dict *)

Lemma dict_get_spec (d : BufDict) (t : string) :
  (dict_get d t).1 = dict_value d t
  /\ dict_keys (dict_get d t).2
     = (dict_keys d ++ if decide (t ∈ dict_keys d) then [] else [t])%list
  /\ (forall k, dict_value (dict_get d t).2 k = dict_value d k)
  /\ t ∈ dict_keys (dict_get d t).2.
Proof.
  unfold dict_keys. induction d as [| [k v] d IH].
  { cbn. split; [reflexivity |]. split; [reflexivity |]. split.
    - intros k. destruct (String.eqb t k); reflexivity.
    - apply list_elem_of_singleton. reflexivity. }
  cbn [dict_get dict_value]. destruct (String.eqb_spec k t) as [-> | Hne].
  - cbn [fst snd map]. rewrite decide_True by apply list_elem_of_here.
    rewrite app_nil_r. split; [reflexivity |]. split; [reflexivity |].
    split; [reflexivity | apply list_elem_of_here].
  - destruct (dict_get d t) as [r d''] eqn:E. cbn [fst snd] in *.
    destruct IH as (IH1 & IH2 & IH3 & IH4).
    cbn [map fst]. split; [exact IH1 |]. split; [| split].
    + rewrite IH2. cbn [app]. f_equal. f_equal.
      destruct (decide (t ∈ map fst d)) as [Hin | Hin].
      * rewrite decide_True; [reflexivity | by apply list_elem_of_further].
      * rewrite decide_False; [reflexivity |].
        intros [Heq | Hin']%elem_of_cons; [congruence | contradiction].
    + intros k'. cbn [dict_value]. rewrite IH3. reflexivity.
    + by apply list_elem_of_further.
Qed.

Lemma dict_set_spec (d : BufDict) (t : string) (v : list TensorInfo * Z) :
  t ∈ dict_keys d ->
  dict_keys (dict_set d t v) = dict_keys d
  /\ forall k, dict_value (dict_set d t v) k
               = if decide (k = t) then v else dict_value d k.
Proof.
  unfold dict_keys. induction d as [| [k v'] d IH]; intros Hin.
  { cbn in Hin. by apply elem_of_nil in Hin. }
  cbn [dict_set]. destruct (String.eqb_spec k t) as [-> | Hne].
  - split; [reflexivity |]. intros k. cbn [dict_value].
    destruct (String.eqb_spec t k) as [-> | Hne].
    + by rewrite decide_True.
    + by rewrite decide_False.
  - assert (Hin' : t ∈ map fst d).
    { cbn [map fst] in Hin. apply elem_of_cons in Hin as [Heq | Hin]; [congruence | exact Hin]. }
    destruct (IH Hin') as [IH1 IH2]. split.
    + cbn [map fst]. by rewrite IH1.
    + intros k'. cbn [dict_value]. rewrite IH2.
      destruct (String.eqb_spec k k') as [-> | Hne'].
      * by rewrite decide_False.
      * reflexivity.
Qed.

(** The values of a dict with distinct keys, through [dict_value]. *)
Lemma dict_values_by_key (d : BufDict) :
  NoDup (dict_keys d) ->
  map snd d = map (dict_value d) (dict_keys d).
Proof.
  induction d as [| [k v] d IH]; intros Hnd; [reflexivity |].
  unfold dict_keys in *. cbn [map fst snd] in *.
  apply NoDup_cons in Hnd as [Hk Hnd].
  cbn [dict_value]. rewrite String.eqb_refl. f_equal.
  rewrite (IH Hnd). apply map_ext_in. intros k' Hk'.
  destruct (String.eqb_spec k k') as [-> | Hne]; [| reflexivity].
  exfalso. apply Hk. by apply list_elem_of_In.
Qed.

Lemma dict_value_absent (d : BufDict) (k : string) :
  k ∉ dict_keys d -> dict_value d k = ([], 0).
Proof.
  unfold dict_keys. induction d as [| [k' v] d IH]; intros Hk; [reflexivity |].
  cbn [dict_value]. destruct (String.eqb_spec k' k) as [-> | Hne].
  - exfalso. apply Hk. cbn. apply list_elem_of_here.
  - apply IH. intros Hin. apply Hk. cbn. by apply list_elem_of_further.
Qed.

(** *** One round *)

Lemma take_step_spec (size_limit : Z) (d : BufDict) (tensor : TensorInfo) :
  let t := ti_type tensor in
  let size := tensor_size tensor in
  let v := dict_value d t in
  let y := (take_step size_limit d tensor).1 in
  let d' := (take_step size_limit d tensor).2 in
  dict_keys d' = (dict_keys d ++ if decide (t ∈ dict_keys d) then [] else [t])%list
  /\ ((size_limit < v.2 + size /\ 0 < v.2 /\ y = Some v.1
       /\ forall k, dict_value d' k
                    = if decide (k = t) then ([tensor], size) else dict_value d k)
      \/ (~ (size_limit < v.2 + size /\ 0 < v.2) /\ y = None
          /\ forall k, dict_value d' k
                       = if decide (k = t)
                         then ((v.1 ++ [tensor])%list, v.2 + size)
                         else dict_value d k)).
Proof.
  intros t size v y d'. subst y d'. unfold take_step. fold t size.
  destruct (dict_get_spec d t) as (G1 & G2 & G3 & G4).
  destruct (dict_get d t) as [bs d1]. cbn [fst snd] in *. fold v in G1. subst bs.
  destruct (Z.ltb_spec size_limit (v.2 + size)) as [H1 | H1];
    destruct (Z.ltb_spec 0 v.2) as [H2 | H2]; cbn [andb fst snd].
  1: { destruct (dict_set_spec d1 t ([tensor], size) G4) as [S1 S2].
       split; [rewrite S1; exact G2 |]. left. repeat split; try assumption.
       intros k. rewrite S2, G3. reflexivity. }
  all: destruct (dict_set_spec d1 t ((v.1 ++ [tensor])%list, v.2 + size) G4) as [S1 S2];
    (split; [rewrite S1; exact G2 |]); right;
    (split; [lia |]); (split; [reflexivity |]);
    intros k; rewrite S2, G3; reflexivity.
Qed.

Lemma total_size_app (a b : list TensorInfo) :
  total_size (a ++ b) = total_size a + total_size b.
Proof.
  induction a as [| x a IH]; [reflexivity |].
  cbn [app]. unfold total_size in *. cbn [foldr]. rewrite IH. lia.
Qed.

Lemma take_step_ok (size_limit : Z) (d : BufDict) (tensor : TensorInfo) :
  dict_ok d -> dict_ok (take_step size_limit d tensor).2.
Proof.
  intros [Hnd Hbuf].
  destruct (take_step_spec size_limit d tensor) as [Hkeys Hcases].
  split.
  - rewrite Hkeys.
    destruct (decide (ti_type tensor ∈ dict_keys d)); [by rewrite app_nil_r |].
    apply NoDup_app. split; [exact Hnd |]. split.
    + intros x Hx Hx'. apply list_elem_of_singleton in Hx'. by subst.
    + apply NoDup_singleton.
  - intros k. unfold homogeneous in *.
    destruct Hcases as [(_ & _ & _ & Hv) | (_ & _ & Hv)]; rewrite Hv;
      destruct (decide (k = ti_type tensor)) as [-> | Hne];
      try apply Hbuf; cbn [fst snd].
    + split; [by apply Forall_singleton | unfold total_size; cbn [foldr]; lia].
    + destruct (Hbuf (ti_type tensor)) as [Hh Hs]. split.
      * apply Forall_app. split; [exact Hh | by apply Forall_singleton].
      * rewrite total_size_app, Hs. unfold total_size. cbn [foldr]. lia.
Qed.

Lemma of_type_app (ty : string) (a b : list TensorInfo) :
  of_type ty (a ++ b) = (of_type ty a ++ of_type ty b)%list.
Proof. apply filter_app. Qed.

Lemma of_type_same (k : string) (l : list TensorInfo) :
  homogeneous k l -> of_type k l = l.
Proof.
  unfold homogeneous, of_type. induction 1 as [| x l Hx _ IH]; [reflexivity |].
  rewrite filter_cons_True by exact Hx. by rewrite IH.
Qed.

Lemma of_type_other (k ty : string) (l : list TensorInfo) :
  homogeneous k l -> k <> ty -> of_type ty l = [].
Proof.
  unfold homogeneous, of_type. intros H Hne. induction H as [| x l Hx _ IH]; [reflexivity |].
  rewrite filter_cons_False by congruence. exact IH.
Qed.

Lemma of_type_cons (ty : string) (x : TensorInfo) (l : list TensorInfo) :
  of_type ty (x :: l)
  = if decide (ti_type x = ty) then x :: of_type ty l else of_type ty l.
Proof. unfold of_type. by rewrite filter_cons. Qed.

Lemma total_size_positive_nonempty (l : list TensorInfo) :
  0 < total_size l -> l <> [].
Proof. intros H ->. cbn in H. lia. Qed.

(** *** The loop *)

Lemma take_loop_spec (size_limit : Z) (tensors : list TensorInfo) (d : BufDict) :
  dict_ok d ->
  dict_ok (take_loop size_limit d tensors).2
  /\ (forall ty,
        (of_type ty (concat (take_loop size_limit d tensors).1)
         ++ (dict_value (take_loop size_limit d tensors).2 ty).1)%list
        = ((dict_value d ty).1 ++ of_type ty tensors)%list)
  /\ Forall (fun c => c <> [] /\ exists ty, homogeneous ty c)
            (take_loop size_limit d tensors).1.
Proof.
  revert d. induction tensors as [| tensor rest IH]; intros d Hd.
  { cbn. split; [exact Hd |]. split; [| constructor].
    intros ty. by rewrite app_nil_r. }
  cbn [take_loop].
  pose proof (take_step_ok size_limit d tensor Hd) as Hd1.
  destruct (take_step_spec size_limit d tensor) as [_ Hcases].
  destruct (take_step size_limit d tensor) as [y d1]. cbn [fst snd] in *.
  specialize (IH d1 Hd1).
  destruct (take_loop size_limit d1 rest) as [ys d2]. cbn [fst snd] in *.
  destruct IH as (Hd2 & Hty & Hys).
  destruct Hd as [_ Hbuf].
  destruct (Hbuf (ti_type tensor)) as [Hhom Hsz].
  split; [exact Hd2 |].
  destruct Hcases as [(_ & Hpos & -> & Hv) | (_ & -> & Hv)].
  - split.
    + intros ty. cbn [concat]. rewrite of_type_app, <- app_assoc, Hty, Hv, of_type_cons.
      destruct (decide (ty = ti_type tensor)) as [-> | Hne].
      * rewrite decide_True by reflexivity. rewrite of_type_same by exact Hhom.
        reflexivity.
      * rewrite decide_False by congruence.
        rewrite (of_type_other (ti_type tensor)) by (exact Hhom || congruence).
        reflexivity.
    + constructor; [| exact Hys]. split.
      * apply total_size_positive_nonempty. by rewrite <- Hsz.
      * eauto.
  - split; [| exact Hys].
    intros ty. rewrite Hty, Hv, of_type_cons.
    destruct (decide (ty = ti_type tensor)) as [-> | Hne].
    + rewrite decide_True by reflexivity. cbn [fst]. by rewrite <- app_assoc.
    + rewrite decide_False by congruence. reflexivity.
Qed.

Lemma concat_filter_nonempty (L : list (list TensorInfo)) :
  concat (filter (fun buf => (0 < length buf)%nat) L) = concat L.
Proof.
  induction L as [| b L IH]; [reflexivity |].
  rewrite filter_cons. destruct b as [| x b].
  - rewrite decide_False by (cbn; lia). exact IH.
  - rewrite decide_True by (cbn; lia). cbn [concat]. by rewrite IH.
Qed.

Lemma leftovers_of_type (d : BufDict) (ty : string) :
  dict_ok d -> of_type ty (concat (leftovers d)) = (dict_value d ty).1.
Proof.
  intros [Hnd Hbuf]. unfold leftovers. rewrite concat_filter_nonempty.
  replace (map (fun kv : string * (list TensorInfo * Z) => kv.2.1) d)
    with (map fst (map snd d)) by (rewrite map_map; reflexivity).
  rewrite (dict_values_by_key d Hnd), map_map.
  destruct (decide (ty ∈ dict_keys d)) as [Hin | Hout].
  - revert Hin Hnd. generalize (dict_keys d) as ks.
    induction ks as [| k ks IH]; intros Hin Hnd.
    { by apply elem_of_nil in Hin. }
    apply NoDup_cons in Hnd as [Hk Hnd]. cbn [map concat].
    rewrite of_type_app.
    destruct (decide (k = ty)) as [-> | Hne].
    + rewrite of_type_same by apply Hbuf.
      assert (Hrest : of_type ty (concat (map (fun x => (dict_value d x).1) ks)) = []).
      { clear IH Hin Hnd. induction ks as [| k' ks IH]; [reflexivity |].
        cbn [map concat]. rewrite of_type_app.
        rewrite (of_type_other k').
        - apply IH. intros Hin. apply Hk. by apply list_elem_of_further.
        - apply Hbuf.
        - intros ->. apply Hk. apply list_elem_of_here. }
      rewrite Hrest. apply app_nil_r.
    + rewrite (of_type_other k) by (apply Hbuf || exact Hne).
      apply IH; [| exact Hnd].
      apply elem_of_cons in Hin as [Heq | Hin]; [congruence | exact Hin].
  - rewrite (dict_value_absent d ty Hout). cbn [fst].
    revert Hout. generalize (dict_keys d) as ks.
    induction ks as [| k ks IH]; intros Hout; [reflexivity |].
    cbn [map concat]. rewrite of_type_app, (of_type_other k).
    + apply IH. intros Hin. apply Hout. by apply list_elem_of_further.
    + apply Hbuf.
    + intros ->. apply Hout. apply list_elem_of_here.
Qed.

Lemma dict_ok_empty : dict_ok [].
Proof.
  split; [constructor |]. intros k. split; [constructor | reflexivity].
Qed.

Lemma take_tensors_of_type (tensors : list TensorInfo) (size_limit : Z) (ty : string) :
  of_type ty (concat (_take_tensors tensors size_limit)) = of_type ty tensors.
Proof.
  unfold _take_tensors.
  destruct (take_loop_spec size_limit tensors [] dict_ok_empty) as (Hd & Hty & _).
  destruct (take_loop size_limit [] tensors) as [ys d]. cbn [fst snd] in *.
  rewrite concat_app, of_type_app, (leftovers_of_type d ty Hd), Hty. reflexivity.
Qed.

Lemma of_type_split (ty : string) (l r : list TensorInfo) (x : TensorInfo) :
  of_type ty l = x :: r ->
  exists a b, l = (a ++ x :: b)%list /\ of_type ty a = [] /\ of_type ty b = r.
Proof.
  induction l as [| y l IH]; intros H; [discriminate |].
  rewrite of_type_cons in H. destruct (decide (ti_type y = ty)) as [Hy | Hy].
  - injection H as -> <-. exists [], l. repeat split.
  - destruct (IH H) as (a & b & -> & Ha & Hb).
    exists (y :: a), b. repeat split; [| exact Hb].
    rewrite of_type_cons, decide_False by exact Hy. exact Ha.
Qed.

(** Two lists with the same tensors of every type, in the same order
    within each type, hold the same tensors. *)
Lemma same_by_type_permutation (l1 l2 : list TensorInfo) :
  (forall ty, of_type ty l1 = of_type ty l2) -> l1 ≡ₚ l2.
Proof.
  revert l2. induction l1 as [| x l1 IH]; intros l2 H.
  { destruct l2 as [| y l2]; [reflexivity |].
    specialize (H (ti_type y)). rewrite of_type_cons, decide_True in H by reflexivity.
    discriminate. }
  pose proof (H (ti_type x)) as Hx.
  rewrite of_type_cons, decide_True in Hx by reflexivity.
  symmetry in Hx. apply of_type_split in Hx as (a & b & -> & Ha & Hb).
  rewrite <- Permutation_middle. constructor. apply IH. intros ty.
  specialize (H ty). rewrite !of_type_app, !of_type_cons in H.
  rewrite of_type_app.
  destruct (decide (ti_type x = ty)) as [<- | Hne].
  - by rewrite Ha, Hb.
  - exact H.
Qed.

Lemma leftovers_are_values (d : BufDict) (buf : list TensorInfo) :
  dict_ok d -> buf ∈ leftovers d ->
  buf <> [] /\ exists k, buf = (dict_value d k).1.
Proof.
  intros [Hnd _] Hin. unfold leftovers in Hin.
  apply list_elem_of_filter in Hin as [Hlen Hin]. split.
  { intros ->. cbn in Hlen. lia. }
  replace (map (fun kv : string * (list TensorInfo * Z) => kv.2.1) d)
    with (map fst (map snd d)) in Hin by (rewrite map_map; reflexivity).
  rewrite (dict_values_by_key d Hnd), map_map in Hin.
  apply list_elem_of_fmap in Hin as (k & -> & _). eauto.
Qed.

(** X3. The chunks of [_take_tensors] hold exactly the input tensors:
    none is lost or repeated, and the tensors of any one type come out in
    the order they went in. *)
Theorem take_tensors_partitions_input (tensors : list TensorInfo) (size_limit : Z) :
  concat (_take_tensors tensors size_limit) ≡ₚ tensors
  /\ forall ty, of_type ty (concat (_take_tensors tensors size_limit))
                = of_type ty tensors.
Proof.
  split.
  - apply same_by_type_permutation. intros ty. apply take_tensors_of_type.
  - intros ty. apply take_tensors_of_type.
Qed.

(** X4. Every chunk that [_take_tensors] yields is non-empty and holds
    tensors of a single type. *)
Theorem take_tensors_chunks_homogeneous (tensors : list TensorInfo) (size_limit : Z) :
  Forall (fun chunk => chunk <> [] /\ exists ty, homogeneous ty chunk)
         (_take_tensors tensors size_limit).
Proof.
  unfold _take_tensors.
  destruct (take_loop_spec size_limit tensors [] dict_ok_empty) as (Hd & _ & Hys).
  destruct (take_loop size_limit [] tensors) as [ys d]. cbn [fst snd] in *.
  apply Forall_app. split; [exact Hys |].
  apply Forall_forall. intros buf Hin.
  destruct (leftovers_are_values d buf Hd Hin) as [Hne [k ->]].
  split; [exact Hne |]. exists k. apply Hd.
Qed.

Lemma total_size_nonnegative (l : list TensorInfo) :
  nonnegative l -> 0 <= total_size l.
Proof.
  unfold nonnegative, total_size. induction 1 as [| x l Hx _ IH]; cbn [foldr]; lia.
Qed.

Lemma take_loop_bounded (size_limit : Z) (tensors : list TensorInfo) (d : BufDict) :
  dict_ok d -> dict_bounded size_limit d -> nonnegative tensors ->
  dict_bounded size_limit (take_loop size_limit d tensors).2
  /\ Forall (within_limit size_limit) (take_loop size_limit d tensors).1.
Proof.
  revert d. induction tensors as [| tensor rest IH]; intros d Hd Hb Hnn.
  { cbn. split; [exact Hb | constructor]. }
  apply Forall_cons in Hnn as [Hsize Hnn].
  cbn [take_loop].
  pose proof (take_step_ok size_limit d tensor Hd) as Hd1.
  destruct (take_step_spec size_limit d tensor) as [_ Hcases].
  destruct (take_step size_limit d tensor) as [y d1]. cbn [fst snd] in *.
  assert (Hb1 : dict_bounded size_limit d1 /\ forall c, y = Some c -> within_limit size_limit c).
  { destruct Hd as [_ Hbuf]. destruct (Hbuf (ti_type tensor)) as [_ Hsz].
    destruct (Hb (ti_type tensor)) as [Hw Hn].
    destruct Hcases as [(_ & _ & -> & Hv) | (Hno & -> & Hv)].
    - split; [| intros c [= <-]; exact Hw].
      intros k. rewrite Hv. destruct (decide (k = ti_type tensor)); [| apply Hb].
      cbn [fst]. split; [right; reflexivity | by apply Forall_singleton].
    - split; [| intros c [=]].
      intros k. rewrite Hv. destruct (decide (k = ti_type tensor)); [| apply Hb].
      cbn [fst]. split; [| apply Forall_app; split; [exact Hn | by apply Forall_singleton]].
      pose proof (total_size_nonnegative _ Hn) as Hge.
      destruct (Z.le_gt_cases ((dict_value d (ti_type tensor)).2 + tensor_size tensor)
                  size_limit) as [Hle | Hgt].
      + left. rewrite total_size_app, <- Hsz.
        replace (total_size [tensor]) with (tensor_size tensor + 0) by reflexivity. lia.
      + right. rewrite removelast_last. lia. }
  destruct Hb1 as [Hb1 Hy].
  specialize (IH d1 Hd1 Hb1 Hnn).
  destruct (take_loop size_limit d1 rest) as [ys d2]. cbn [fst snd] in *.
  destruct IH as [Hb2 Hys]. split; [exact Hb2 |].
  destruct y as [c |]; [| exact Hys]. constructor; [by apply Hy | exact Hys].
Qed.

(** X5. When no tensor has a negative size, every chunk of
    [_take_tensors] is within [size_limit], except that a chunk may exceed
    it by its last tensor alone: then all tensors before the last have
    size zero. *)
Theorem take_tensors_respects_limit (tensors : list TensorInfo) (size_limit : Z) :
  nonnegative tensors ->
  Forall (within_limit size_limit) (_take_tensors tensors size_limit).
Proof.
  intros Hnn. unfold _take_tensors.
  assert (Hb0 : dict_bounded size_limit []).
  { intros k. split; [right; reflexivity | constructor]. }
  destruct (take_loop_spec size_limit tensors [] dict_ok_empty) as (Hd & _ & _).
  destruct (take_loop_bounded size_limit tensors [] dict_ok_empty Hb0 Hnn) as [Hb Hys].
  destruct (take_loop size_limit [] tensors) as [ys d]. cbn [fst snd] in *.
  apply Forall_app. split; [exact Hys |].
  apply Forall_forall. intros buf Hin.
  destruct (leftovers_are_values d buf Hd Hin) as [_ [k ->]]. apply Hb.
Qed.

(** *** [_reorder_tensors_as] *)

Lemma group_by_type_from (tensors : list TensorInfo)
    (d : gmap string (list TensorInfo)) (ty : string) :
  let d' := foldl (fun d tensor =>
                     <[ti_type tensor
                       := (default [] (d !! ti_type tensor) ++ [tensor])%list]> d)
                  d tensors in
  remaining d' ty = (remaining d ty ++ of_type ty tensors)%list
  /\ (d' !! ty = None <-> d !! ty = None /\ of_type ty tensors = []).
Proof.
  revert d. induction tensors as [| x tensors IH]; intros d; cbn [foldl].
  { split; [by rewrite app_nil_r | tauto]. }
  destruct (IH (<[ti_type x := (default [] (d !! ti_type x) ++ [x])%list]> d))
    as [IH1 IH2].
  cbn zeta in *. rewrite IH1, IH2, of_type_cons. unfold remaining.
  destruct (decide (ti_type x = ty)) as [<- | Hne].
  - rewrite lookup_insert_eq. cbn [default from_option id].
    split; [by rewrite <- app_assoc |].
    split; [intros [[=] _] | intros [_ [=]]].
  - rewrite lookup_insert_ne by exact Hne. split; [reflexivity | tauto].
Qed.

Lemma group_by_type_spec (tensors : list TensorInfo) (ty : string) :
  remaining (group_by_type tensors) ty = of_type ty tensors
  /\ (group_by_type tensors !! ty = None <-> of_type ty tensors = []).
Proof.
  destruct (group_by_type_from tensors ∅ ty) as [H1 H2]. cbn zeta in *.
  unfold group_by_type. split.
  - rewrite H1. unfold remaining. by rewrite lookup_empty.
  - rewrite H2, lookup_empty. tauto.
Qed.

Lemma remaining_insert (iters : gmap string (list TensorInfo)) (t ty : string)
    (l : list TensorInfo) :
  remaining (<[t := l]> iters) ty = if decide (t = ty) then l else remaining iters ty.
Proof.
  unfold remaining. destruct (decide (t = ty)) as [-> | Hne].
  - by rewrite lookup_insert_eq.
  - by rewrite lookup_insert_ne.
Qed.

(** The loop gives back [ordered] itself when, type by type, its tensors
    are the next ones the iterators hold. *)
Lemma reorder_loop_prefix (ordered : list TensorInfo)
    (iters : gmap string (list TensorInfo)) :
  (forall ty, of_type ty ordered `prefix_of` remaining iters ty) ->
  reorder_loop iters ordered = Ok ordered.
Proof.
  revert iters. induction ordered as [| tensor rest IH]; intros iters H; [reflexivity |].
  cbn [reorder_loop].
  pose proof (H (ti_type tensor)) as [k Hk].
  rewrite of_type_cons, decide_True in Hk by reflexivity.
  unfold remaining in Hk.
  destruct (iters !! ti_type tensor) as [[| x xs] |] eqn:E; cbn [default from_option id] in Hk;
    try discriminate.
  injection Hk as -> ->.
  rewrite IH; [reflexivity |].
  intros ty. rewrite remaining_insert.
  destruct (decide (ti_type tensor = ty)) as [<- | Hne].
  - by exists k.
  - specialize (H ty). rewrite of_type_cons, decide_False in H by exact Hne. exact H.
Qed.

(** What the loop returns when it returns, the iterators holding
    tensors of their own type. *)
Lemma reorder_loop_spec (ordered out : list TensorInfo)
    (iters : gmap string (list TensorInfo)) :
  (forall ty, homogeneous ty (remaining iters ty)) ->
  reorder_loop iters ordered = Ok out ->
  map ti_type out = map ti_type ordered
  /\ forall ty, of_type ty out
                = take (length (of_type ty ordered)) (remaining iters ty).
Proof.
  revert iters out. induction ordered as [| tensor rest IH]; intros iters out Hhom H.
  { injection H as <-. split; [reflexivity |]. intros ty. reflexivity. }
  cbn [reorder_loop] in H.
  destruct (iters !! ti_type tensor) as [[| x xs] |] eqn:E; try discriminate.
  destruct (reorder_loop (<[ti_type tensor := xs]> iters) rest) as [out' | e] eqn:E';
    [| discriminate].
  injection H as <-.
  assert (Hrem : remaining iters (ti_type tensor) = x :: xs).
  { unfold remaining. by rewrite E. }
  assert (Hx : ti_type x = ti_type tensor).
  { pose proof (Hhom (ti_type tensor)) as Hh. rewrite Hrem in Hh.
    by apply Forall_cons in Hh as [Hh _]. }
  assert (Hhom' : forall ty, homogeneous ty (remaining (<[ti_type tensor := xs]> iters) ty)).
  { intros ty. rewrite remaining_insert.
    destruct (decide (ti_type tensor = ty)) as [<- | Hne]; [| apply Hhom].
    pose proof (Hhom (ti_type tensor)) as Hh. rewrite Hrem in Hh.
    by apply Forall_cons in Hh as [_ Hh]. }
  destruct (IH _ _ Hhom' E') as [IH1 IH2]. split.
  { cbn [map]. by rewrite Hx, IH1. }
  intros ty. specialize (IH2 ty). rewrite remaining_insert in IH2.
  rewrite !of_type_cons.
  destruct (decide (ti_type tensor = ty)) as [<- | Hne].
  - rewrite decide_True by exact Hx. rewrite Hrem. cbn [length take]. by rewrite IH2.
  - rewrite decide_False by congruence. exact IH2.
Qed.

(** The loop returns exactly when no type is asked for more often than
    its iterator can give. *)
Lemma reorder_loop_succeeds (ordered : list TensorInfo)
    (iters : gmap string (list TensorInfo)) :
  (exists out, reorder_loop iters ordered = Ok out)
  <-> forall ty, (length (of_type ty ordered) <= length (remaining iters ty))%nat.
Proof.
  revert iters. induction ordered as [| tensor rest IH]; intros iters.
  { split; [intros _ ty; cbn; lia | intros _; by exists []]. }
  cbn [reorder_loop]. split.
  - intros [out H] ty.
    destruct (iters !! ti_type tensor) as [[| x xs] |] eqn:E; try discriminate.
    destruct (reorder_loop (<[ti_type tensor := xs]> iters) rest) as [out' | e] eqn:E';
      [| discriminate].
    pose proof (proj1 (IH _) (ex_intro _ out' E') ty) as Hle.
    rewrite remaining_insert in Hle. rewrite of_type_cons.
    destruct (decide (ti_type tensor = ty)) as [<- | Hne]; [| exact Hle].
    unfold remaining. rewrite E. cbn [default from_option id length]. lia.
  - intros H.
    pose proof (H (ti_type tensor)) as Ht.
    rewrite of_type_cons, decide_True in Ht by reflexivity.
    unfold remaining in Ht.
    destruct (iters !! ti_type tensor) as [[| x xs] |] eqn:E;
      cbn [default from_option id length] in Ht; try lia.
    destruct (proj2 (IH (<[ti_type tensor := xs]> iters))) as [out' ->]; [| eauto].
    intros ty. rewrite remaining_insert. specialize (H ty).
    rewrite of_type_cons in H.
    destruct (decide (ti_type tensor = ty)) as [<- | Hne]; [| exact H].
    unfold remaining in H. rewrite E in H. cbn [default from_option id length] in H. lia.
Qed.

(** The two ways the loop fails. *)
Lemma reorder_loop_failure (ordered : list TensorInfo)
    (iters : gmap string (list TensorInfo)) (e : Exc) :
  reorder_loop iters ordered = Raise e ->
  e = generator_stop
  \/ exists t, t ∈ ordered /\ e = missing_key (ti_type t) /\ iters !! ti_type t = None.
Proof.
  revert iters. induction ordered as [| tensor rest IH]; intros iters H; [discriminate |].
  cbn [reorder_loop] in H.
  destruct (iters !! ti_type tensor) as [[| x xs] |] eqn:E.
  - injection H as <-. by left.
  - destruct (reorder_loop (<[ti_type tensor := xs]> iters) rest) as [out' | e'] eqn:E';
      [discriminate |].
    injection H as <-.
    destruct (IH _ E') as [-> | (t & Hin & -> & Hnone)]; [by left |].
    right. exists t. split; [by apply list_elem_of_further |]. split; [reflexivity |].
    destruct (decide (ti_type tensor = ti_type t)) as [Heq | Hne].
    + rewrite Heq, lookup_insert_eq in Hnone. discriminate.
    + by rewrite lookup_insert_ne in Hnone.
  - injection H as <-. right. exists tensor.
    split; [apply list_elem_of_here |]. split; [reflexivity | exact E].
Qed.

Lemma group_by_type_homogeneous (tensors : list TensorInfo) (ty : string) :
  homogeneous ty (remaining (group_by_type tensors) ty).
Proof.
  rewrite (proj1 (group_by_type_spec tensors ty)).
  unfold homogeneous, of_type. apply Forall_forall.
  intros x Hx. by apply list_elem_of_filter in Hx as [Hx _].
Qed.

(** X6. [_reorder_tensors_as] returns exactly when [tensors] has, of
    every type, at least as many tensors as [ordered_tensors].  When it
    fails it raises either the [KeyError] of a type of [ordered_tensors]
    that [tensors] does not have at all, or the [RuntimeError] "generator
    raised StopIteration" of an exhausted type. *)
Theorem reorder_succeeds_iff_enough_of_each_type (tensors ordered : list TensorInfo) :
  ((exists out, _reorder_tensors_as tensors ordered = Ok out)
   <-> forall ty, (length (of_type ty ordered) <= length (of_type ty tensors))%nat)
  /\ forall e, _reorder_tensors_as tensors ordered = Raise e ->
        e = generator_stop
        \/ exists t, t ∈ ordered /\ e = missing_key (ti_type t)
                     /\ of_type (ti_type t) tensors = [].
Proof.
  unfold _reorder_tensors_as. split.
  - rewrite reorder_loop_succeeds. split; intros H ty; specialize (H ty);
      by rewrite (proj1 (group_by_type_spec tensors ty)) in *.
  - intros e H. apply reorder_loop_failure in H as [-> | (t & Hin & -> & Hnone)];
      [by left |].
    right. exists t. split; [exact Hin |]. split; [reflexivity |].
    by apply group_by_type_spec.
Qed.

(** X7. When [_reorder_tensors_as] returns, the result has the types of
    [ordered_tensors] position by position, and its tensors of each type
    are the first ones of that type in [tensors], in their order. *)
Theorem reorder_result (tensors ordered out : list TensorInfo) :
  _reorder_tensors_as tensors ordered = Ok out ->
  length out = length ordered
  /\ map ti_type out = map ti_type ordered
  /\ forall ty, of_type ty out
                = take (length (of_type ty ordered)) (of_type ty tensors).
Proof.
  unfold _reorder_tensors_as. intros H.
  apply reorder_loop_spec in H as [H1 H2]; [| apply group_by_type_homogeneous].
  split; [| split; [exact H1 |]].
  - apply (f_equal length) in H1. by rewrite !length_map in H1.
  - intros ty. rewrite H2. by rewrite (proj1 (group_by_type_spec tensors ty)).
Qed.

(** X8. When, type by type, the tensors of [ordered_tensors] are the
    first tensors of that type in [tensors] and in the same order,
    [_reorder_tensors_as] returns [ordered_tensors] itself. *)
Theorem reorder_restores_order (tensors ordered : list TensorInfo) :
  (forall ty, of_type ty ordered `prefix_of` of_type ty tensors) ->
  _reorder_tensors_as tensors ordered = Ok ordered.
Proof.
  intros H. unfold _reorder_tensors_as. apply reorder_loop_prefix.
  intros ty. rewrite (proj1 (group_by_type_spec tensors ty)). apply H.
Qed.

(** X9. Reordering the chunks of [_take_tensors], laid end to end, after
    the original sequence gives the original sequence back, whatever the
    size limit. *)
Theorem reorder_after_take_tensors (tensors : list TensorInfo) (size_limit : Z) :
  _reorder_tensors_as (concat (_take_tensors tensors size_limit)) tensors = Ok tensors.
Proof.
  unfold _reorder_tensors_as. apply reorder_loop_prefix.
  intros ty.
  rewrite (proj1 (group_by_type_spec _ ty)), take_tensors_of_type. reflexivity.
Qed.

Lemma first_seen_ext (seen seen' l : list string) :
  (forall x, x ∈ seen <-> x ∈ seen') -> first_seen seen l = first_seen seen' l.
Proof.
  revert seen seen'. induction l as [| x l IH]; intros seen seen' H; [reflexivity |].
  cbn [first_seen]. destruct (decide (x ∈ seen)) as [Hin | Hout].
  - rewrite !bool_decide_eq_true_2 by (exact Hin || by apply H). by apply IH.
  - rewrite !bool_decide_eq_false_2 by (exact Hout || by rewrite <- H).
    f_equal. apply IH. intros y. rewrite !elem_of_cons, H. reflexivity.
Qed.

Lemma first_seen_elem (seen l : list string) (x : string) :
  x ∈ first_seen seen l -> x ∈ l.
Proof.
  revert seen. induction l as [| y l IH]; intros seen H; [exact H |].
  cbn [first_seen] in H. case_bool_decide.
  - apply list_elem_of_further. by apply (IH seen).
  - apply elem_of_cons in H as [-> | H]; [apply list_elem_of_here |].
    apply list_elem_of_further. by apply (IH (y :: seen)).
Qed.

Lemma of_type_present (ty : string) (l : list TensorInfo) :
  ty ∈ map ti_type l -> (0 < length (of_type ty l))%nat.
Proof.
  intros H. apply list_elem_of_fmap in H as (x & -> & Hx).
  assert (Hin : x ∈ of_type (ti_type x) l) by (by apply list_elem_of_filter).
  destruct (of_type (ti_type x) l); [by apply elem_of_nil in Hin | cbn; lia].
Qed.

(** While everything still fits, the loop yields nothing and the dict
    gets a key for each new type. *)
Lemma take_loop_fits (size_limit : Z) (tensors : list TensorInfo) (d : BufDict) :
  nonnegative tensors ->
  (forall k, (dict_value d k).2 + total_size tensors <= size_limit) ->
  (take_loop size_limit d tensors).1 = []
  /\ dict_keys (take_loop size_limit d tensors).2
     = (dict_keys d ++ first_seen (dict_keys d) (map ti_type tensors))%list.
Proof.
  revert d. induction tensors as [| tensor rest IH]; intros d Hnn Hfit.
  { cbn. by rewrite app_nil_r. }
  apply Forall_cons in Hnn as [Hsize Hnn].
  pose proof (total_size_nonnegative rest Hnn) as Hrest.
  assert (Htot : total_size (tensor :: rest) = tensor_size tensor + total_size rest)
    by reflexivity.
  cbn [take_loop map first_seen].
  destruct (take_step_spec size_limit d tensor) as [Hkeys Hcases].
  destruct (take_step size_limit d tensor) as [y d1]. cbn [fst snd] in *.
  destruct Hcases as [(Hover & _) | (_ & -> & Hv)].
  { specialize (Hfit (ti_type tensor)). lia. }
  destruct (IH d1 Hnn) as [IH1 IH2].
  { intros k. rewrite Hv. specialize (Hfit k).
    destruct (decide (k = ti_type tensor)) as [-> | Hne]; cbn [snd]; lia. }
  destruct (take_loop size_limit d1 rest) as [ys d2]. cbn [fst snd] in *.
  split; [exact IH1 |]. rewrite IH2, Hkeys.
  destruct (decide (ti_type tensor ∈ dict_keys d)) as [Hin | Hout].
  - rewrite bool_decide_eq_true_2 by exact Hin. by rewrite app_nil_r.
  - rewrite bool_decide_eq_false_2 by exact Hout. rewrite <- app_assoc. cbn [app].
    do 2 f_equal. apply first_seen_ext. intros x.
    rewrite elem_of_app, !elem_of_cons, elem_of_nil. tauto.
Qed.

Lemma filter_all {B} (P : B -> Prop) `{forall x, Decision (P x)} (l : list B) :
  Forall P l -> filter P l = l.
Proof.
  induction 1 as [| x l Hx _ IH]; [reflexivity |].
  rewrite filter_cons_True by exact Hx. by rewrite IH.
Qed.

(** X24. When no tensor has a negative size and the sizes add up to at
    most [size_limit], [_take_tensors] splits nothing: it yields one chunk
    per type, the types in the order they first appear, each chunk
    holding all tensors of its type in their order. *)
Theorem take_tensors_one_chunk_per_type (tensors : list TensorInfo) (size_limit : Z) :
  nonnegative tensors ->
  total_size tensors <= size_limit ->
  _take_tensors tensors size_limit
  = map (fun ty => of_type ty tensors) (first_seen [] (map ti_type tensors)).
Proof.
  intros Hnn Hfit. unfold _take_tensors.
  destruct (take_loop_spec size_limit tensors [] dict_ok_empty) as (Hd & Hty & _).
  destruct (take_loop_fits size_limit tensors [] Hnn) as [Hys Hkeys].
  { intros k. cbn. lia. }
  destruct (take_loop size_limit [] tensors) as [ys d]. cbn [fst snd] in *.
  subst ys. cbn [app dict_keys map] in *.
  assert (Hval : forall ty, (dict_value d ty).1 = of_type ty tensors).
  { intros ty. specialize (Hty ty). cbn in Hty. exact Hty. }
  unfold leftovers.
  replace (map (fun kv : string * (list TensorInfo * Z) => kv.2.1) d)
    with (map fst (map snd d)) by (rewrite map_map; reflexivity).
  rewrite (dict_values_by_key d (proj1 Hd)), map_map.
  unfold dict_keys in *. rewrite Hkeys.
  rewrite filter_all.
  - apply map_ext. intros ty. apply Hval.
  - apply Forall_forall. intros buf Hin.
    apply list_elem_of_fmap in Hin as (ty & -> & Hin).
    rewrite Hval. apply of_type_present. by apply (first_seen_elem []).
Qed.

Lemma take_tensors_one_chunk_per_type_witness :
  _take_tensors ChunkSample.some_tensors 200
  = map (fun ty => of_type ty ChunkSample.some_tensors)
        (first_seen [] (map ti_type ChunkSample.some_tensors)).
Proof.
  apply (take_tensors_one_chunk_per_type ChunkSample.some_tensors 200).
  - repeat constructor; vm_compute; discriminate.
  - vm_compute. discriminate.
Defined.

Lemma reorder_succeeds_witness :
  exists out,
    _reorder_tensors_as
      [ChunkSample.float_a; ChunkSample.long_b; ChunkSample.float_c]
      [ChunkSample.long_b; ChunkSample.float_a] = Ok out.
Proof.
  apply (proj2 (proj1 (reorder_succeeds_iff_enough_of_each_type
                         [ChunkSample.float_a; ChunkSample.long_b; ChunkSample.float_c]
                         [ChunkSample.long_b; ChunkSample.float_a]))).
  intros ty. unfold of_type. rewrite !filter_cons, !filter_nil.
  repeat case_decide; cbn [length]; lia.
Defined.

Lemma take_tensors_respects_limit_witness :
  Forall (within_limit 40) (_take_tensors ChunkSample.some_tensors 40).
Proof.
  apply (take_tensors_respects_limit ChunkSample.some_tensors 40).
  repeat constructor; vm_compute; discriminate.
Defined.

Lemma reorder_result_witness :
  let tensors := [ChunkSample.float_a; ChunkSample.float_c; ChunkSample.long_b] in
  let ordered := [ChunkSample.long_b; ChunkSample.float_c] in
  let out := [ChunkSample.long_b; ChunkSample.float_a] in
  length out = length ordered
  /\ map ti_type out = map ti_type ordered
  /\ forall ty, of_type ty out
                = take (length (of_type ty ordered)) (of_type ty tensors).
Proof.
  apply (reorder_result
           [ChunkSample.float_a; ChunkSample.float_c; ChunkSample.long_b]
           [ChunkSample.long_b; ChunkSample.float_c]
           [ChunkSample.long_b; ChunkSample.float_a]).
  vm_compute. reflexivity.
Defined.

Lemma reorder_restores_order_witness :
  _reorder_tensors_as
    [ChunkSample.float_a; ChunkSample.long_b; ChunkSample.float_c]
    [ChunkSample.long_b; ChunkSample.float_a]
  = Ok [ChunkSample.long_b; ChunkSample.float_a].
Proof.
  apply (reorder_restores_order
           [ChunkSample.float_a; ChunkSample.long_b; ChunkSample.float_c]
           [ChunkSample.long_b; ChunkSample.float_a]).
  intros ty. unfold of_type. rewrite !filter_cons, !filter_nil. cbn [ti_type
    ChunkSample.float_a ChunkSample.long_b ChunkSample.float_c].
  repeat case_decide; try congruence;
    first [apply prefix_nil | eexists; reflexivity].
Defined.

Example take_tensors_sample :
  _take_tensors ChunkSample.some_tensors 40
  = [[ChunkSample.float_a]; [ChunkSample.float_c]; [ChunkSample.long_b];
     [ChunkSample.sparse_d]].
Proof. reflexivity. Qed.

(** Zero-size tensors do not count against the limit: the chunk below
    weighs 32 bytes under a limit of 8. *)
Example take_tensors_over_limit :
  _take_tensors [ChunkSample.float_empty; ChunkSample.float_empty; ChunkSample.float_c] 8
  = [[ChunkSample.float_empty; ChunkSample.float_empty; ChunkSample.float_c]].
Proof. reflexivity. Qed.

Example reorder_missing_type :
  _reorder_tensors_as [ChunkSample.float_a] [ChunkSample.long_b]
  = Raise (missing_key "torch.LongTensor").
Proof. reflexivity. Qed.

Example reorder_exhausted_type :
  _reorder_tensors_as [ChunkSample.float_a] [ChunkSample.float_a; ChunkSample.float_c]
  = Raise generator_stop.
Proof. reflexivity. Qed.

End ChunkFacts.

(** ** [_get_async_or_non_blocking] *)

Module KwargsFacts.

(** X10. [_get_async_or_non_blocking] returns exactly when no keyword
    was given or the sole keyword is [async].  Without keywords it returns
    [non_blocking] and warns of nothing; with [async] alone it returns the
    value of [async], whatever [non_blocking] is, and issues the
    deprecation warning.  In every other case, also when [async] is given
    together with another keyword, it raises the [TypeError] that names
    the keyword given last, and issues no warning. *)
Theorem get_async_or_non_blocking_outcome (function_name : string)
    (non_blocking : PyVal) (kwargs : list (string * PyVal)) :
  let r := _get_async_or_non_blocking function_name non_blocking kwargs in
  _get_async_or_non_blocking function_name non_blocking [] = (Ok non_blocking, [])
  /\ (forall v, _get_async_or_non_blocking function_name non_blocking [("async", v)]
                = (Ok v, [async_warning]))
  /\ ((exists v, r.1 = Ok v) <-> kwargs = [] \/ exists v, kwargs = [("async", v)])
  /\ match r.1 with
     | Ok _ => True
     | Raise e =>
         e = TypeError (function_name +:+ "() got an unexpected keyword argument '"
                        +:+ last_key kwargs +:+ "'")
         /\ r.2 = []
     end.
Proof.
  intros r. split; [reflexivity |]. split; [reflexivity |]. subst r.
  destruct kwargs as [| [k v] [| kv2 rest]].
  - split; [| exact I]. split; [by left | by eexists].
  - unfold _get_async_or_non_blocking, has_key. cbn [length Nat.eqb negb orb existsb fst].
    destruct (String.eqb_spec k "async") as [-> | Hne]; cbn [negb orb fst snd].
    + split; [| exact I]. split; [intros _; right; by eexists | by eexists].
    + split; [| split; reflexivity].
      split; [intros [? [=]] | intros [[=] | [? [=]]]; congruence].
  - unfold _get_async_or_non_blocking. cbn [length Nat.eqb negb orb fst snd].
    split; [| split; reflexivity].
    split; [intros [? [=]] | intros [[=] | [? [=]]]].
Qed.

Example async_with_another_keyword :
  _get_async_or_non_blocking "cuda" (VBool false)
    [("device", VInt 0); ("async", VBool true)]
  = (Raise (TypeError "cuda() got an unexpected keyword argument 'async'"), []).
Proof. reflexivity. Qed.

End KwargsFacts.

(** ** Object state *)

Module ObjStateFacts.

Lemma last_binding_slot_items (k : string) (names seen : list string)
    (slots : gmap string PyVal) :
  last_binding k (slot_items names seen slots)
  = if decide (k ∈ names /\ k ∉ seen) then slots !! k else None.
Proof.
  revert seen. induction names as [| name rest IH]; intros seen.
  { cbn. rewrite decide_False; [reflexivity |]. intros [H _]. by apply elem_of_nil in H. }
  cbn [slot_items]. destruct (slots !! name) as [v |] eqn:E.
  - case_bool_decide as Hseen.
    + rewrite IH. destruct (decide (k ∈ rest /\ k ∉ seen)) as [[H1 H2] | Hn].
      * rewrite decide_True; [reflexivity |]. split; [by apply list_elem_of_further | exact H2].
      * rewrite decide_False; [reflexivity |].
        intros [[-> | H1]%elem_of_cons H2]; [contradiction | apply Hn; by split].
    + cbn [last_binding]. rewrite IH.
      destruct (String.eqb_spec name k) as [-> | Hne].
      * rewrite decide_False.
        2: { intros [_ H]. apply H. apply list_elem_of_here. }
        rewrite decide_True; [by rewrite E |].
        split; [apply list_elem_of_here | exact Hseen].
      * destruct (decide (k ∈ rest /\ k ∉ name :: seen)) as [[H1 H2] | Hn].
        -- rewrite decide_True.
           2: { split; [by apply list_elem_of_further |].
                intros H. apply H2. by apply list_elem_of_further. }
           destruct (slots !! k); reflexivity.
        -- rewrite decide_False; [reflexivity |].
           intros [[-> | H1]%elem_of_cons H2]; [congruence |].
           apply Hn. split; [exact H1 |].
           intros [-> | H]%elem_of_cons; [congruence | contradiction].
  - rewrite IH. destruct (decide (k ∈ rest /\ k ∉ seen)) as [[H1 H2] | Hn].
    + rewrite decide_True; [reflexivity |]. split; [by apply list_elem_of_further | exact H2].
    + destruct (decide (k ∈ name :: rest /\ k ∉ seen)) as [[H1 H2] | Hn']; [| reflexivity].
      apply elem_of_cons in H1 as [-> | H1]; [by rewrite E |].
      exfalso. apply Hn. by split.
Qed.

Lemma last_binding_app (k : string) (xs ys : list (string * PyVal)) :
  last_binding k (xs ++ ys)
  = match last_binding k ys with
    | Some v => Some v
    | None => last_binding k xs
    end.
Proof.
  induction xs as [| [k' v] rest IH]; cbn [app last_binding].
  - destruct (last_binding k ys); reflexivity.
  - rewrite IH. destruct (last_binding k ys); reflexivity.
Qed.

(** The saved slots are among the slot names of the class. *)
Lemma slot_items_names (names seen : list string) (slots : gmap string PyVal) :
  Forall (fun kv => kv.1 ∈ names) (slot_items names seen slots).
Proof.
  revert seen. induction names as [| name rest IH]; intros seen; [constructor |].
  assert (Hrest : forall seen', Forall (fun kv : string * PyVal => kv.1 ∈ name :: rest)
                                  (slot_items rest seen' slots)).
  { intros seen'. eapply Forall_impl; [apply IH |].
    intros kv H. by apply list_elem_of_further. }
  cbn [slot_items]. destruct (slots !! name); [| apply Hrest].
  case_bool_decide; [apply Hrest |].
  constructor; [apply list_elem_of_here | apply Hrest].
Qed.

Section WithObjects.
Context `{OM : ObjectModel}.

(** X11. For an object without [__getstate__] whose saved names are
    ordinary attributes of the target's class, the state that
    [_get_obj_state] saves is accepted by [_set_obj_state], and replaying
    it on a target gives the target every saved attribute: a slot that
    holds a value wins, then an entry of [__dict__]; any other attribute
    of the target, and its tensor, stay as they were. *)
Theorem obj_state_round_trip (obj : PyObject) (target : NNParameter) :
  o_getstate obj = None ->
  Forall (fun kv => plain kv.1) (o_dict obj) ->
  Forall plain (o_slotnames obj) ->
  exists target',
    _set_obj_state target (_get_obj_state obj) = (Ok tt, target')
    /\ p_data target' = p_data target
    /\ forall k,
         p_attrs target' !! k
         = match (if decide (k ∈ o_slotnames obj) then o_slots obj !! k else None) with
           | Some v => Some v
           | None =>
               match last_binding k (o_dict obj) with
               | Some v => Some v
               | None => p_attrs target !! k
               end
           end.
Proof.
  intros Hget Hdict Hslots.
  set (saved := slot_items (o_slotnames obj) [] (o_slots obj)).
  assert (Hsaved : Forall (fun kv => plain kv.1) saved).
  { eapply Forall_impl; [apply slot_items_names |].
    intros kv Hin. cbn beta in Hin.
    by apply (proj1 (Forall_forall _ _) Hslots). }
  assert (Hstate : _set_obj_state target (_get_obj_state obj)
                   = setattr_all target
                       (o_dict obj
                        ++ (if Nat.eqb (length (o_slotnames obj)) 0 then [] else saved))%list).
  { unfold _get_obj_state. rewrite Hget.
    destruct (Nat.eqb (length (o_slotnames obj)) 0); cbn [negb].
    - rewrite app_nil_r. unfold _set_obj_state. rewrite ParamFacts.replay_dict.
      destruct (setattr_all target (o_dict obj)) as [[[] | e] o']; reflexivity.
    - unfold _set_obj_state. rewrite ParamFacts.replay_dict, ParamFacts.setattr_all_app.
      destruct (setattr_all target (o_dict obj)) as [[[] | e] o'];
        [apply ParamFacts.replay_dict | reflexivity]. }
  rewrite Hstate.
  destruct (ParamFacts.setattr_all_plain
              (o_dict obj ++ (if Nat.eqb (length (o_slotnames obj)) 0 then [] else saved))
              target) as (target' & Hrun & Hdata & Hattrs).
  { apply Forall_app. split; [exact Hdict |].
    destruct (Nat.eqb (length (o_slotnames obj)) 0); [constructor | exact Hsaved]. }
  exists target'. split; [exact Hrun |]. split; [exact Hdata |].
  intros k. rewrite Hattrs, last_binding_app.
  destruct (o_slotnames obj) as [| name rest] eqn:Hnames.
  - cbn [length Nat.eqb last_binding].
    rewrite decide_False by apply not_elem_of_nil. reflexivity.
  - cbn [length Nat.eqb]. subst saved. rewrite ?Hnames, last_binding_slot_items.
    destruct (decide (k ∈ name :: rest)) as [Hin | Hout].
    + rewrite decide_True by (split; [exact Hin | apply not_elem_of_nil]).
      destruct (o_slots obj !! k); reflexivity.
    + rewrite decide_False; [reflexivity |]. intros [H _]. contradiction.
Qed.

(** X12. With a state that carries nothing (a falsy value that is not a
    tuple, or a pair of falsy values) [_rebuild_parameter_with_state] does
    what [_rebuild_parameter] does: it returns the same parameter, or
    raises the same exception when the parameter cannot be built. *)
Theorem rebuild_parameter_with_empty_state (data : Tensor) (requires_grad : bool)
    (backward_hooks state : PyVal) :
  nothing_to_replay state = true ->
  _rebuild_parameter_with_state data requires_grad backward_hooks state
  = _rebuild_parameter data requires_grad backward_hooks.
Proof.
  intros H.
  assert (Hset : forall obj, _set_obj_state obj state = (Ok tt, obj)).
  { intros obj. unfold _set_obj_state.
    destruct state as [| b | z | s | items | items | entries];
      cbn [nothing_to_replay] in H.
    5: { destruct items as [| a [| b [| c rest]]]; try discriminate.
         apply andb_prop in H as [Ha Hb]. apply negb_true_iff in Ha, Hb.
         unfold replay. rewrite Ha, Hb. reflexivity. }
    all: apply negb_true_iff in H; unfold replay; rewrite H; reflexivity. }
  unfold _rebuild_parameter_with_state, _rebuild_parameter.
  destruct (new_Parameter data requires_grad) as [param | e]; [| reflexivity].
  destruct (setattr param "_backward_hooks" backward_hooks) as [[[] | e] param'];
    [| reflexivity].
  by rewrite Hset.
Qed.

End WithObjects.

Lemma obj_state_round_trip_witness :
  let OM := Sample.sample_objects in
  let obj := mkObject None ["tag"; "scale"] [("label", VStr "w")] {[ "tag" := VInt 7 ]} in
  let target := mkParameter Sample.float_tensor {[ "version" := VInt 2 ]} in
  exists target',
    _set_obj_state target (_get_obj_state obj) = (Ok tt, target')
    /\ p_data target' = p_data target
    /\ forall k,
         p_attrs target' !! k
         = match (if decide (k ∈ o_slotnames obj) then o_slots obj !! k else None) with
           | Some v => Some v
           | None =>
               match last_binding k (o_dict obj) with
               | Some v => Some v
               | None => p_attrs target !! k
               end
           end.
Proof.
  apply (@obj_state_round_trip Sample.sample_objects
           (mkObject None ["tag"; "scale"] [("label", VStr "w")] {[ "tag" := VInt 7 ]})
           (mkParameter Sample.float_tensor {[ "version" := VInt 2 ]})).
  - reflexivity.
  - repeat constructor.
  - repeat constructor.
Defined.

Lemma rebuild_parameter_with_empty_state_witness :
  let OM := Sample.sample_objects in
  _rebuild_parameter_with_state Sample.float_tensor true (VDict []) (VTuple [VNone; VDict []])
  = _rebuild_parameter Sample.float_tensor true (VDict []).
Proof.
  apply (@rebuild_parameter_with_empty_state Sample.sample_objects
           Sample.float_tensor true (VDict []) (VTuple [VNone; VDict []])).
  reflexivity.
Defined.

(** Both fail alike on an integer tensor that is to require a gradient. *)
Example rebuild_parameter_refused :
  @_rebuild_parameter Sample.sample_objects Sample.long_tensor true (VDict [])
  = Raise (RuntimeError
             "only Tensors of floating point and complex dtype can require gradients")
  /\ @_rebuild_parameter_with_state Sample.sample_objects Sample.long_tensor true
       (VDict []) VNone
     = @_rebuild_parameter Sample.sample_objects Sample.long_tensor true (VDict []).
Proof. split; reflexivity. Qed.

End ObjStateFacts.

(** ** The pending list, call by call *)

Module DrainFacts.

Lemma keeps_pending_ret {A} (a : A) : keeps_pending (ret a).
Proof. intros w. reflexivity. Qed.

Lemma keeps_pending_raise {A} (e : Exc) : keeps_pending (@raise A e).
Proof. intros w. reflexivity. Qed.

Lemma keeps_pending_native (c : Call) : keeps_pending (native c).
Proof. intros w. reflexivity. Qed.

Lemma keeps_pending_check (r : option Exc) : keeps_pending (check r).
Proof. intros w. destruct r; reflexivity. Qed.

Lemma keeps_pending_bind {A B} (m : M A) (k : A -> M B) :
  keeps_pending m -> (forall a, keeps_pending (k a)) -> keeps_pending (bind m k).
Proof.
  intros Hm Hk w. unfold bind. specialize (Hm w).
  destruct (m w) as [[a | e] w']; cbn [snd] in *; [| exact Hm].
  by rewrite Hk.
Qed.

(** Take a computation apart down to the primitives above. *)
Ltac keeps_pending_step :=
  match goal with
  | |- keeps_pending (bind _ _) => apply keeps_pending_bind; [| intros ?]
  | |- keeps_pending (ret _) => apply keeps_pending_ret
  | |- keeps_pending (raise _) => apply keeps_pending_raise
  | |- keeps_pending (native _) => apply keeps_pending_native
  | |- keeps_pending (check _) => apply keeps_pending_check
  | |- keeps_pending (if ?b then _ else _) => destruct b
  | |- keeps_pending (let (_, _) := ?p in _) => destruct p
  | |- keeps_pending (match ?x with _ => _ end) => destruct x
  end.

Section WithRuntime.
Context `{RT : TorchRuntime}.

Lemma keeps_pending_set_ (t : Tensor) (st : UntypedStorage) (offset : Z)
    (size stride : list Z) :
  keeps_pending (set_ t st offset size stride).
Proof. unfold set_. repeat keeps_pending_step. Qed.

Lemma keeps_pending_sparse_coo_tensor (indices values size is_coalesced : Item)
    (check_invariants : bool) :
  keeps_pending (sparse_coo_tensor indices values size check_invariants is_coalesced).
Proof.
  unfold sparse_coo_tensor, arg_tensor, arg_size, arg_optional_bool,
    validate_sparse_coo_tensor_args.
  repeat keeps_pending_step.
Qed.

Lemma keeps_pending_sparse_compressed_tensor
    (compressed_indices plain_indices values size : Item) (lay : Layout)
    (check_invariants : bool) :
  keeps_pending (sparse_compressed_tensor compressed_indices plain_indices values size
                   lay check_invariants).
Proof.
  unfold sparse_compressed_tensor, arg_tensor, arg_size,
    validate_sparse_compressed_tensor_args.
  repeat keeps_pending_step.
Qed.

(** X22. The dense and the quantized rebuilds never touch the pending
    list: whatever they return or raise, no tensor is registered for
    validation and none is dropped. *)
Theorem dense_rebuilds_keep_pending (storage : TypedStorage) (storage_offset : Z)
    (size stride : list Z) (requires_grad : bool) (backward_hooks : PyVal)
    (metadata : option (gmap string bool)) (quantizer_params : QuantizerParams) :
  keeps_pending (_rebuild_tensor storage storage_offset size stride)
  /\ keeps_pending (_rebuild_tensor_v2 storage storage_offset size stride
                      requires_grad backward_hooks metadata)
  /\ keeps_pending (_rebuild_qtensor storage storage_offset size stride
                      quantizer_params requires_grad backward_hooks).
Proof.
  assert (H1 : keeps_pending (_rebuild_tensor storage storage_offset size stride)).
  { unfold _rebuild_tensor, tensor_empty.
    repeat first [apply keeps_pending_set_ | keeps_pending_step]. }
  split; [exact H1 |]. split.
  - unfold _rebuild_tensor_v2, set_tensor_metadata, set_requires_grad.
    repeat first [exact H1 | keeps_pending_step].
  - unfold _rebuild_qtensor, _empty_affine_quantized, _empty_per_channel_affine_quantized,
      tensor_of_list, arg_number, arg_vec, set_requires_grad.
    repeat first [apply keeps_pending_set_ | keeps_pending_step].
Qed.

(** The rebuild appends its result and nothing else. *)
Lemma append_after (m : M SparseTensor) (w : World) :
  keeps_pending m ->
  let out := bind m (fun result => bind (append_pending result) (fun _ => ret result)) w in
  fst out = fst (m w)
  /\ _sparse_tensors_to_validate (snd out)
     = (_sparse_tensors_to_validate w
        ++ match fst (m w) with
           | Ok t => [t]
           | Raise _ => []
           end)%list.
Proof.
  intros Hm. specialize (Hm w). unfold bind at 1.
  destruct (m w) as [[t | e] w']; cbn [fst snd] in *.
  - cbv [bind append_pending get_pending set_pending ret].
    cbn [fst snd _sparse_tensors_to_validate].
    split; [reflexivity | by rewrite Hm].
  - split; [reflexivity | by rewrite Hm, app_nil_r].
Qed.

Lemma rebuild_sparse_appends_its_result_aux (lay : Layout) (data : list Item)
    (w : World) :
  _sparse_tensors_to_validate (snd (_rebuild_sparse_tensor lay data w))
  = (_sparse_tensors_to_validate w
     ++ match fst (_rebuild_sparse_tensor lay data w) with
        | Ok t => [t]
        | Raise _ => []
        end)%list.
Proof.
  unfold _rebuild_sparse_tensor.
  destruct (bool_decide (lay = sparse_coo)).
  - destruct data as [| a [| b [| c [| d [| e rest]]]]];
      try (cbn; by rewrite app_nil_r).
    + destruct (append_after (sparse_coo_tensor a b c false INone) w
                  (keeps_pending_sparse_coo_tensor a b c INone false)) as [H1 H2].
      cbn zeta in H1, H2. rewrite <- H1 in H2. exact H2.
    + destruct (append_after (sparse_coo_tensor a b c false d) w
                  (keeps_pending_sparse_coo_tensor a b c d false)) as [H1 H2].
      cbn zeta in H1, H2. rewrite <- H1 in H2. exact H2.
  - destruct (member lay compressed_layouts); [| cbn; by rewrite app_nil_r].
    destruct data as [| a [| b [| c [| d [| e rest]]]]];
      try (cbn; by rewrite app_nil_r).
    destruct (append_after (sparse_compressed_tensor a b c d lay false) w
                (keeps_pending_sparse_compressed_tensor a b c d lay false)) as [H1 H2].
    cbn zeta in H1, H2. rewrite <- H1 in H2. exact H2.
Qed.

(** X13. Between drains the pending list only grows, and only by what
    [_rebuild_sparse_tensor] returns: a call that returns a tensor appends
    exactly that tensor, a call that raises (unsupported layout, tuple of
    the wrong length, argument of the wrong type) leaves the list as it
    was. *)
Theorem rebuild_sparse_appends_its_result (lay : Layout) (data : list Item) (w : World) :
  _sparse_tensors_to_validate (snd (_rebuild_sparse_tensor lay data w))
  = (_sparse_tensors_to_validate w
     ++ match fst (_rebuild_sparse_tensor lay data w) with
        | Ok t => [t]
        | Raise _ => []
        end)%list.
Proof. apply rebuild_sparse_appends_its_result_aux. Qed.

Lemma validate_one_outcome (t : SparseTensor) (w : World) :
  validate_one t w
  = (match verdict t with
     | None => Ok tt
     | Some e => Raise e
     end,
     mkWorld (_sparse_tensors_to_validate w) (native_calls w ++ validation_call t)).
Proof.
  unfold validate_one, verdict, validation_call, validate_sparse_coo_tensor_args,
    validate_sparse_compressed_tensor_args,
    crow_indices, col_indices, ccol_indices, row_indices.
  destruct (bool_decide (layout t = sparse_coo)).
  - cbv [bind native check]. cbn [_sparse_tensors_to_validate native_calls].
    destruct (_validate_sparse_coo_tensor_args _ _ _ _); reflexivity.
  - destruct (member (layout t) compressed_layouts).
    + destruct (member (layout t) [sparse_csr; sparse_bsr]);
        cbv [bind native check]; cbn [_sparse_tensors_to_validate native_calls];
        destruct (_validate_sparse_compressed_tensor_args _ _ _ _ _); reflexivity.
    + cbv [raise]. rewrite app_nil_r. destruct w; reflexivity.
Qed.

Lemma for_each_all_pass (l : list SparseTensor) (w : World) :
  Forall (fun t => verdict t = None) l ->
  for_each l validate_one w
  = (Ok tt, mkWorld (_sparse_tensors_to_validate w)
                    (native_calls w ++ concat (map validation_call l))).
Proof.
  intros H. revert w. induction H as [| t l Ht _ IH]; intros w.
  { cbn. rewrite app_nil_r. destruct w; reflexivity. }
  cbn [for_each map concat]. unfold bind. rewrite validate_one_outcome, Ht, IH.
  cbn [_sparse_tensors_to_validate native_calls]. by rewrite app_assoc.
Qed.

Lemma for_each_first_failure (good rest : list SparseTensor) (bad : SparseTensor)
    (e : Exc) (w : World) :
  Forall (fun t => verdict t = None) good ->
  verdict bad = Some e ->
  for_each (good ++ bad :: rest) validate_one w
  = (Raise e, mkWorld (_sparse_tensors_to_validate w)
                      (native_calls w ++ concat (map validation_call good)
                       ++ validation_call bad)).
Proof.
  intros H Hbad. revert w. induction H as [| t l Ht _ IH]; intros w.
  { cbn [app for_each map concat]. unfold bind. by rewrite validate_one_outcome, Hbad. }
  cbn [app for_each map concat]. unfold bind at 1.
  rewrite validate_one_outcome, Ht, IH.
  cbn [_sparse_tensors_to_validate native_calls]. by rewrite <- !app_assoc.
Qed.

(** X14. The drain is fail-fast.  When the pending tensors up to some
    tensor pass and that tensor fails (the validator rejects it, or its
    layout is not a sparse one), the drain raises that tensor's error; the
    validator has been called once for each tensor up to and including
    the failing one, in order, and never for the tensors after it, which
    are dropped from the list unvalidated. *)
Theorem drain_stops_at_first_failure (good rest : list SparseTensor)
    (bad : SparseTensor) (e : Exc) (calls : list Call) :
  Forall (fun t => verdict t = None) good ->
  verdict bad = Some e ->
  _validate_loaded_sparse_tensors (mkWorld (good ++ bad :: rest) calls)
  = (Raise e, mkWorld [] (calls ++ concat (map validation_call good)
                          ++ validation_call bad)).
Proof.
  intros Hgood Hbad. unfold _validate_loaded_sparse_tensors.
  rewrite SparseFacts.try_finally_clear.
  unfold bind at 1 2. cbn [get_pending _sparse_tensors_to_validate].
  rewrite (for_each_first_failure good rest bad e _ Hgood Hbad). reflexivity.
Qed.

(** X15. When every pending tensor passes, the drain returns, having
    called the validator exactly once per tensor in the order the tensors
    were registered, and leaves the list empty. *)
Theorem drain_validates_each_once (pending : list SparseTensor) (calls : list Call) :
  Forall (fun t => verdict t = None) pending ->
  _validate_loaded_sparse_tensors (mkWorld pending calls)
  = (Ok tt, mkWorld [] (calls ++ concat (map validation_call pending))).
Proof.
  intros H. unfold _validate_loaded_sparse_tensors.
  rewrite SparseFacts.try_finally_clear.
  unfold bind at 1 2. cbn [get_pending _sparse_tensors_to_validate].
  rewrite (for_each_all_pass pending _ H). reflexivity.
Qed.

(** X16. A drain that follows a drain does nothing: it returns, makes no
    native call and leaves the world as the first drain left it, whether
    the first one returned or raised. *)
Theorem second_drain_is_a_no_op (w : World) :
  let w1 := snd (_validate_loaded_sparse_tensors w) in
  _validate_loaded_sparse_tensors w1 = (Ok tt, w1).
Proof.
  intros w1. subst w1. unfold _validate_loaded_sparse_tensors.
  rewrite !SparseFacts.try_finally_clear. reflexivity.
Qed.

(** X23. After a load pass the pending list is what it was before,
    followed by exactly the tensors that the rebuild calls returned, in
    call order: every returned sparse tensor is registered once, and
    nothing else is. *)
Theorem load_pass_registers_returned_tensors (calls : list (Layout * list Item))
    (w : World) :
  _sparse_tensors_to_validate (rebuild_all calls w)
  = (_sparse_tensors_to_validate w ++ returned calls w)%list.
Proof.
  revert w. induction calls as [| [lay data] rest IH]; intros w.
  { cbn. by rewrite app_nil_r. }
  cbn [rebuild_all returned]. rewrite IH.
  pose proof (rebuild_sparse_appends_its_result_aux lay data w) as H.
  destruct (_rebuild_sparse_tensor lay data w) as [[t | e] w']; cbn [fst snd] in *;
    rewrite H.
  - by rewrite <- app_assoc.
  - by rewrite app_nil_r.
Qed.

End WithRuntime.

Lemma drain_stops_at_first_failure_witness :
  let RT := Sample.sample_runtime in
  let good := mkSparse sparse_coo Sample.good_indices no_data Sample.one_value [2; 2] true in
  let bad := mkSparse sparse_coo Sample.bad_indices no_data Sample.one_value [2; 2] false in
  _validate_loaded_sparse_tensors (mkWorld ([good] ++ bad :: [good; bad]) [])
  = (Raise (RuntimeError "size is inconsistent with indices"),
     mkWorld [] ([] ++ concat (map validation_call [good])
                 ++ validation_call bad)).
Proof.
  apply (@drain_stops_at_first_failure Sample.sample_runtime
           [mkSparse sparse_coo Sample.good_indices no_data Sample.one_value [2; 2] true]
           [mkSparse sparse_coo Sample.good_indices no_data Sample.one_value [2; 2] true;
            mkSparse sparse_coo Sample.bad_indices no_data Sample.one_value [2; 2] false]
           (mkSparse sparse_coo Sample.bad_indices no_data Sample.one_value [2; 2] false)
           (RuntimeError "size is inconsistent with indices") []).
  - repeat constructor.
  - reflexivity.
Defined.

Lemma drain_validates_each_once_witness :
  let RT := Sample.sample_runtime in
  let good := mkSparse sparse_coo Sample.good_indices no_data Sample.one_value [2; 2] true in
  _validate_loaded_sparse_tensors (mkWorld [good; good] [])
  = (Ok tt, mkWorld [] ([] ++ concat (map validation_call [good; good]))).
Proof.
  apply (@drain_validates_each_once Sample.sample_runtime
           [mkSparse sparse_coo Sample.good_indices no_data Sample.one_value [2; 2] true;
            mkSparse sparse_coo Sample.good_indices no_data Sample.one_value [2; 2] true]
           []).
  repeat constructor.
Defined.

End DrainFacts.

(** ** [reraise] and the constructor's own errors *)

Module ReraiseFacts.

(** X17. An exception raised by the constructor of the captured class
    reaches the caller of [reraise] as it is, except for a [TypeError]
    from the call with the message as sole argument: every exception from
    the [message=] call, a [TypeError] included, and every exception
    other than a [TypeError] from the positional call. *)
Theorem reraise_passes_constructor_errors (c : ClassDesc) (trace label : string)
    (e' : Exc) :
  let msg := composite (cls_name c) label trace in
  (truthy (cls_message c) = true /\ cls_call c (KeywordMessage (Str msg)) = Raise e')
  \/ (truthy (cls_message c) = false /\ cls_call c (Positional (Str msg)) = Raise e'
      /\ isinstance e' "TypeError" = false) ->
  reraise (mkWrapper (Some (OtherClass c)) trace label) = Raise e'.
Proof.
  intros msg H. unfold reraise, instantiate_and_raise.
  cbn [exc_type where_ exc_msg is_KeyError getattr_message call name_of]. fold msg.
  destruct H as [[Hattr Hcall] | (Hattr & Hcall & Hty)]; rewrite Hattr, Hcall.
  - reflexivity.
  - by rewrite Hty.
Qed.

Lemma reraise_passes_constructor_errors_witness :
  reraise (mkWrapper (Some (OtherClass WrapperSample.OpError_class))
             "Traceback ..." "in worker 3")
  = Raise (TypeError
             "OpError.__init__() missing 2 required positional arguments: 'node_def' and 'op'").
Proof.
  apply (reraise_passes_constructor_errors WrapperSample.OpError_class
           "Traceback ..." "in worker 3").
  left. split; reflexivity.
Defined.

Example reraise_constructor_ValueError :
  reraise (mkWrapper (Some (OtherClass WrapperSample.Fussy_class))
             "Traceback ..." "in worker 3")
  = Raise (Py.ValueError "bad argument").
Proof. reflexivity. Qed.

End ReraiseFacts.

(** ** [_rebuild_qtensor] and the length of [quantizer_params] *)

Module QuantizedArity.
Section WithRuntime.
Context `{RT : TorchRuntime}.

(** X21. When [quantizer_params] has not the length its scheme unpacks
    (three for [per_tensor_affine], four for the per-channel schemes),
    [_rebuild_qtensor] raises the [ValueError] of the tuple unpacking
    before any native call: nothing is allocated and the world is
    unchanged. *)
Theorem rebuild_qtensor_wrong_arity (storage : TypedStorage) (storage_offset : Z)
    (size stride : list Z) (requires_grad : bool) (backward_hooks : PyVal)
    (qscheme : QScheme) (rest : list QArg) (n : nat) (w : World) :
  unpacked_length qscheme = Some n ->
  S (length rest) <> n ->
  _rebuild_qtensor storage storage_offset size stride (mkQParams qscheme rest)
    requires_grad backward_hooks w
  = (Raise (unpack_error n (S (length rest))), w).
Proof.
  intros Hn Hlen. destruct qscheme; cbn in Hn; try discriminate;
    injection Hn as <-.
  - destruct rest as [| a [| b [| c rest]]]; cbn in Hlen; try lia; reflexivity.
  - destruct rest as [| a [| b [| c [| d rest]]]]; cbn in Hlen; try lia; reflexivity.
  - destruct rest as [| a [| b [| c [| d rest]]]]; cbn in Hlen; try lia; reflexivity.
Qed.

End WithRuntime.

Lemma rebuild_qtensor_wrong_arity_witness :
  let RT := Sample.sample_runtime in
  _rebuild_qtensor (mkTyped quint8 (mkUntyped cpu 6)) 0 [2; 3] [3; 1]
    (mkQParams per_tensor_affine [QNumber (QArith_base.Qmake 1 10)])
    false (VDict []) initial_world
  = (Raise (Py.ValueError "not enough values to unpack (expected 3, got 2)"),
     initial_world).
Proof.
  apply (@rebuild_qtensor_wrong_arity Sample.sample_runtime
           (mkTyped quint8 (mkUntyped cpu 6)) 0 [2; 3] [3; 1] false (VDict [])
           per_tensor_affine [QNumber (QArith_base.Qmake 1 10)] 3%nat initial_world).
  - reflexivity.
  - cbn. lia.
Defined.

End QuantizedArity.

(** ** Device lookup *)

Module DeviceFacts.

(** The lookup of a device module fails only with an [AttributeError]. *)
Lemma get_device_attr_error {A} (torch : TorchModule)
    (get_member : DeviceModule -> option A) (e : Exc) :
  _get_device_attr torch get_member = Raise e -> exc_class e = "AttributeError".
Proof.
  unfold _get_device_attr. intros He.
  repeat match type of He with
         | context [if ?b then _ else _] => destruct b
         | context [match ?x with _ => _ end] => destruct x
         end; try discriminate; by injection He as <-.
Qed.

(** After the two [isinstance] branches no index is known: the default
    device is asked for, or the [ValueError] is raised. *)
Lemma no_index_outcome (I : Interp) (optional : bool) (r : Result (option Z))
    (text : string) :
  r = (if optional then
         if is_scripting I then Ok (Some (get_current_device_index (torch I)))
         else _get_current_device_index (torch I)
       else Raise (Py.ValueError text)) ->
  (exists e, r = Raise e /\ exc_class e = "ValueError") <-> optional = false.
Proof.
  intros ->. destruct optional.
  - split; [| discriminate]. intros (e & He & Hc). exfalso.
    destruct (is_scripting I); [discriminate |].
    apply get_device_attr_error in He. rewrite He in Hc. discriminate.
  - split; [reflexivity |]. intros _. eexists. split; reflexivity.
Qed.

(** X18. For an argument that is not a string, [_get_device_index]
    raises a [ValueError] in exactly two cases: the argument is a CPU
    device and [allow_cpu] is off, or the argument names no index ([None],
    or a non-CPU device without index) and [optional] is off.  An integer
    is returned as it is, whatever the flags. *)
Theorem get_device_index_value_errors (I : Interp) (device : DeviceArg)
    (optional allow_cpu : bool) :
  (forall s, device <> ArgStr s) ->
  ((exists e, _get_device_index I device optional allow_cpu = Raise e
              /\ exc_class e = "ValueError")
   <-> (is_cpu device = true /\ allow_cpu = false)
       \/ (no_index device = true /\ optional = false))
  /\ forall i, _get_device_index I (ArgInt i) optional allow_cpu = Ok (Some i).
Proof.
  intros Hstr. split; [| reflexivity].
  destruct device as [s | d | i | ]; [by destruct (Hstr s) | | |].
  - unfold _get_device_index, is_cpu, no_index.
    destruct (String.eqb (dev_type d) "cpu") eqn:Ecpu; cbn [negb andb].
    + destruct allow_cpu; cbn [negb andb].
      * split; [intros (e & [=] & _) | intros [[_ [=]] | [[=] _]]].
      * split; [intros _; left; by split | intros _; eexists; split; reflexivity].
    + rewrite andb_false_r.
      destruct (dev_index d) as [i |] eqn:Ei.
      * rewrite bool_decide_eq_true_2 by eauto. cbn [negb].
        split; [intros (e & [=] & _) | intros [[[=] _] | [[=] _]]].
      * rewrite bool_decide_eq_false_2 by (intros [? [=]]). cbn [negb].
        rewrite (no_index_outcome I optional _ _ eq_refl).
        split; [intros ->; right; by split | intros [[[=] _] | [_ ->]]; reflexivity].
  - cbn. split; [intros (e & [=] & _) | intros [[[=] _] | [[=] _]]].
  - unfold _get_device_index, is_cpu, no_index.
    rewrite (no_index_outcome I optional _ _ eq_refl).
    split; [intros ->; right; by split | intros [[[=] _] | [_ ->]]; reflexivity].
Qed.

Lemma get_device_index_value_errors_witness :
  ((exists e, _get_device_index DeviceSample.gpu_interp
                (ArgDevice (mkDevice "cuda" None)) false true = Raise e
              /\ exc_class e = "ValueError")
   <-> (is_cpu (ArgDevice (mkDevice "cuda" None)) = true /\ true = false)
       \/ (no_index (ArgDevice (mkDevice "cuda" None)) = true /\ false = false))
  /\ forall i, _get_device_index DeviceSample.gpu_interp (ArgInt i) false true
               = Ok (Some i).
Proof.
  apply (get_device_index_value_errors DeviceSample.gpu_interp
           (ArgDevice (mkDevice "cuda" None)) false true).
  intros s. discriminate.
Defined.



(** A member that is [None] is handed on as it is. *)
Example device_attr_member_None :
  _get_device_attr DeviceSample.gpu_box (fun _ => @None Z) = Ok None
  /\ _get_available_device_type DeviceSample.gpu_box = Some "cuda".
Proof. split; reflexivity. Qed.

(** X20. The element size of a complex dtype is twice that of the
    floating dtype with the same [finfo] width, when that width is a whole
    number of bytes; the floating one is the width divided by eight. *)
Theorem element_size_complex_is_twice_real (c f : DtypeInfo) :
  is_complex c = true ->
  is_complex f = false ->
  is_floating_point f = true ->
  finfo_bits c = finfo_bits f ->
  finfo_bits f mod 8 = 0 ->
  exists n,
    _element_size (ADtype f) = Ok n
    /\ _element_size (ADtype c) = Ok (2 * n)
    /\ 8 * n = finfo_bits f.
Proof.
  intros Hc Hf Hfp Hbits Hmod. unfold _element_size.
  rewrite Hc, Hf, Hfp, Hbits.
  apply Z.mod_divide in Hmod as [k Hk]; [| lia]. rewrite Hk.
  exists k. rewrite !Z.shiftr_div_pow2 by lia.
  change (2 ^ 3) with 8. change (2 ^ 2) with 4.
  replace (k * 8 / 4) with (2 * k) by (replace (k * 8) with (2 * k * 4) by lia;
                                       by rewrite Z.div_mul).
  rewrite Z.div_mul by lia.
  split; [reflexivity |]. split; [reflexivity | lia].
Qed.

Lemma element_size_complex_is_twice_real_witness :
  exists n,
    _element_size (ADtype DeviceSample.float32_info) = Ok n
    /\ _element_size (ADtype DeviceSample.complex64) = Ok (2 * n)
    /\ 8 * n = finfo_bits DeviceSample.float32_info.
Proof.
  apply (element_size_complex_is_twice_real DeviceSample.complex64
           DeviceSample.float32_info); reflexivity.
Defined.

Example get_device_index_cpu_string_rejected :
  _get_device_index DeviceSample.gpu_interp (ArgStr "cpu") true false
  = Raise (Py.ValueError "Expected a non cpu device, but got: cpu").
Proof. reflexivity. Qed.

Example get_device_index_default_without_device :
  _get_device_index DeviceSample.cpu_interp ArgNone true false = Ok None.
Proof. reflexivity. Qed.

Example element_size_of_non_dtype :
  _element_size (NotADtype (VInt 3))
  = Raise (RuntimeError "expected torch.dtype, but got <class 'int'>").
Proof. reflexivity. Qed.

End DeviceFacts.

(** ** [_import_dotted_name] *)

Module DottedNameFacts.
Import DottedName.

Lemma split_dot_nonempty (name : string) : split_dot name <> [].
Proof.
  destruct name as [| c rest]; cbn; [discriminate |].
  destruct (Ascii.eqb c dot); [discriminate |].
  destruct (split_dot rest); discriminate.
Qed.

Lemma split_dot_dotless (component : string) :
  dotless component -> split_dot component = [component].
Proof.
  unfold dotless. induction component as [| c rest IH]; intros H; [reflexivity |].
  cbn [contains_char] in H. apply orb_false_elim in H as [Hc Hrest].
  cbn [split_dot]. rewrite Ascii.eqb_sym, Hc, (IH Hrest). reflexivity.
Qed.

Lemma split_dot_prepend (component rest : string) :
  dotless component ->
  split_dot (component +:+ String dot rest) = component :: split_dot rest.
Proof.
  unfold dotless. induction component as [| c component IH]; intros H.
  { reflexivity. }
  cbn [contains_char] in H. apply orb_false_elim in H as [Hc Hrest].
  change (String c component +:+ String dot rest)
    with (String c (component +:+ String dot rest)).
  cbn [split_dot]. rewrite Ascii.eqb_sym, Hc, (IH Hrest). reflexivity.
Qed.

Lemma split_join (components : list string) :
  components <> [] -> Forall dotless components ->
  split_dot (join_dot components) = components.
Proof.
  intros Hne H. induction H as [| component rest Hc Hrest IH]; [contradiction |].
  destruct rest as [| next rest'].
  - cbn. by apply split_dot_dotless.
  - cbn [join_dot]. rewrite split_dot_prepend by exact Hc.
    f_equal. apply IH. discriminate.
Qed.

(** X25. A dotted name made of components without dots is taken apart
    into exactly those components: [_import_dotted_name] imports the
    first as a top-level module and then reads the others as attributes,
    one after the other, raising the import error of the first or the
    [AttributeError] of the first component that is missing. *)
Theorem import_dotted_name_walks_components (modules : list (string * PyObj))
    (first : string) (rest : list string) :
  Forall dotless (first :: rest) ->
  split_dot (join_dot (first :: rest)) = first :: rest
  /\ _import_dotted_name modules (join_dot (first :: rest))
     = match __import__ modules first with
       | Ok obj => getattr_chain obj rest
       | Raise e => Raise e
       end.
Proof.
  intros H.
  assert (Hsplit : split_dot (join_dot (first :: rest)) = first :: rest)
    by (by apply split_join).
  split; [exact Hsplit |]. unfold _import_dotted_name. by rewrite Hsplit.
Qed.

Lemma import_dotted_name_walks_components_witness :
  split_dot (join_dot ["torch"; "cuda"; "FloatTensor"]) = ["torch"; "cuda"; "FloatTensor"]
  /\ _import_dotted_name some_modules (join_dot ["torch"; "cuda"; "FloatTensor"])
     = match __import__ some_modules "torch" with
       | Ok obj => getattr_chain obj ["cuda"; "FloatTensor"]
       | Raise e => Raise e
       end.
Proof.
  apply (import_dotted_name_walks_components some_modules "torch" ["cuda"; "FloatTensor"]).
  repeat constructor.
Defined.

Example import_dotted_name_found :
  _import_dotted_name some_modules "torch.cuda.FloatTensor" = Ok FloatTensor_obj.
Proof. reflexivity. Qed.

Example import_dotted_name_missing_attribute :
  _import_dotted_name some_modules "torch.xpu.FloatTensor"
  = Raise (AttributeError "module 'torch' has no attribute 'xpu'").
Proof. reflexivity. Qed.

Example import_dotted_name_empty :
  _import_dotted_name some_modules "" = Raise (Py.ValueError "Empty module name").
Proof. reflexivity. Qed.

End DottedNameFacts.
